(** * HubSpot lead dashboard: the aggregation pipeline of
      [src/app/lib/hubspot-actions.ts], embedded and verified.

    Conventions of the embedding.
    - A JavaScript string is a Rocq [string]; its characters are bytes, and
      case mapping and white space are the ASCII ones.
    - A JavaScript number is a [number]: a finite value carried by the
      rational it denotes, or one of NaN, +Infinity, -Infinity.  Sums and
      quotients of finite values are exact (rounding to 53 bits is not
      modelled); a decimal literal outside the range of doubles parses to an
      infinity or to zero as in JavaScript.
    - A plain object used as a dictionary is the [gmap string _] of its own
      properties; what the code reads and writes under the name of a member
      of [Object.prototype] is modelled where the dictionaries are updated.
    - Host services (Date, URL, locale formatting) are fields of [Host].
    - Console output is not modelled. *)

From Stdlib Require Import ZArith QArith Qabs Ascii String List Bool.
From Stdlib Require Import Lia Lqa Sorted Permutation.
From stdpp Require Import gmap strings list fin_maps sorting pretty.

Local Open Scope Z_scope.

(** ** JavaScript strings *)

Module Js.

Definition is_upper (c : ascii) : bool := Ascii.leb "A" c && Ascii.leb c "Z".
Definition is_digit (c : ascii) : bool := Ascii.leb "0" c && Ascii.leb c "9".
Definition is_lower (c : ascii) : bool := Ascii.leb "a" c && Ascii.leb c "z".

(** [\w] of a regular expression. *)
Definition is_word (c : ascii) : bool :=
  is_upper c || is_lower c || is_digit c || Ascii.eqb c "_".

(** [\s] of a regular expression and the white space of [trim]. *)
Definition is_space (c : ascii) : bool := Ascii.is_space c.

Definition lower_char (c : ascii) : ascii :=
  if is_upper c then ascii_of_nat (nat_of_ascii c + 32) else c.

Fixpoint toLowerCase (s : string) : string :=
  match s with
  | EmptyString => EmptyString
  | String c s' => String (lower_char c) (toLowerCase s')
  end.

(** [s.startsWith(p)]. *)
Fixpoint startsWith (p s : string) : bool :=
  match p, s with
  | EmptyString, _ => true
  | String a p', String b s' => Ascii.eqb a b && startsWith p' s'
  | String _ _, EmptyString => false
  end.

(** [s.indexOf(p)]; [None] stands for -1. *)
Fixpoint indexOf (s p : string) : option nat :=
  if startsWith p s then Some 0%nat
  else match s with
       | EmptyString => None
       | String _ s' => S <$> indexOf s' p
       end.

Definition includes (s p : string) : bool := bool_decide (is_Some (indexOf s p)).

(** [s.substring(0, n)]. *)
Fixpoint take_str (n : nat) (s : string) : string :=
  match n, s with
  | S n', String c s' => String c (take_str n' s')
  | _, _ => EmptyString
  end.

Fixpoint trimStart (s : string) : string :=
  match s with
  | String c s' => if is_space c then trimStart s' else s
  | EmptyString => EmptyString
  end.

Definition trimEnd (s : string) : string := String.rev (trimStart (String.rev s)).
Definition trim (s : string) : string := trimEnd (trimStart s).

(** [s.replace(/,$/, '')]: one comma at the very end is dropped. *)
Definition strip_final_comma (s : string) : string :=
  match String.rev s with
  | String "," r => String.rev r
  | _ => s
  end.

(** [s.split(/[\s,]+/)[0]]: the text before the first separator. *)
Fixpoint first_word (s : string) : string :=
  match s with
  | EmptyString => EmptyString
  | String c s' =>
      if is_space c || Ascii.eqb c "," then EmptyString else String c (first_word s')
  end.

(** [s.replace(/[$,\s]/g, '')]. *)
Fixpoint strip_currency (s : string) : string :=
  match s with
  | EmptyString => EmptyString
  | String c s' =>
      if Ascii.eqb c "$" || Ascii.eqb c "," || is_space c
      then strip_currency s' else String c (strip_currency s')
  end.

(** Truthiness of a string: only the empty string is falsy. *)
Definition truthy (s : string) : bool :=
  match s with EmptyString => false | _ => true end.

(** [a || b] on strings. *)
Definition or_else (a b : string) : string := if truthy a then a else b.

(** An optional field [a?: string] read through [a || b]. *)
Definition opt_or (a : option string) (b : string) : string :=
  match a with Some s => or_else s b | None => b end.

End Js.

(** ** JavaScript numbers *)

Inductive number : Type :=
  | Fin (q : Q)
  | NaN
  | PInf
  | NInf.

Module Num.

Definition Qltb (a b : Q) : bool := negb (Qle_bool b a).

Definition isNaN (n : number) : bool := match n with NaN => true | _ => false end.
Definition isFinite (n : number) : bool := match n with Fin _ => true | _ => false end.

Definition zero : number := Fin 0.
Definition of_Z (z : Z) : number := Fin (inject_Z z).
Definition of_nat (n : nat) : number := of_Z (Z.of_nat n).

(** [a < b]; every comparison with NaN is false. *)
Definition lt (a b : number) : bool :=
  match a, b with
  | NaN, _ | _, NaN => false
  | Fin x, Fin y => Qltb x y
  | NInf, NInf => false
  | NInf, _ => true
  | _, NInf => false
  | PInf, _ => false
  | Fin _, PInf => true
  end.

(** [a <= b]. *)
Definition le (a b : number) : bool :=
  match a, b with
  | NaN, _ | _, NaN => false
  | Fin x, Fin y => Qle_bool x y
  | NInf, _ => true
  | _, PInf => true
  | _, NInf => false
  | PInf, _ => false
  end.

Definition gt (a b : number) : bool := lt b a.
Definition ge (a b : number) : bool := le b a.

Definition abs (a : number) : number :=
  match a with
  | Fin x => Fin (Qabs x)
  | NaN => NaN
  | PInf | NInf => PInf
  end.

Definition neg (a : number) : number :=
  match a with
  | Fin x => Fin (- x)
  | NaN => NaN
  | PInf => NInf
  | NInf => PInf
  end.

Definition add (a b : number) : number :=
  match a, b with
  | NaN, _ | _, NaN => NaN
  | Fin x, Fin y => Fin (x + y)
  | PInf, NInf | NInf, PInf => NaN
  | PInf, _ | _, PInf => PInf
  | NInf, _ | _, NInf => NInf
  end.

Definition sub (a b : number) : number := add a (neg b).

Definition sign_inf (positive_result : bool) : number :=
  if positive_result then PInf else NInf.

Definition mul (a b : number) : number :=
  match a, b with
  | NaN, _ | _, NaN => NaN
  | Fin x, Fin y => Fin (x * y)
  | Fin x, PInf | PInf, Fin x =>
      if Qeq_bool x 0 then NaN else sign_inf (Qltb 0 x)
  | Fin x, NInf | NInf, Fin x =>
      if Qeq_bool x 0 then NaN else sign_inf (negb (Qltb 0 x))
  | PInf, PInf | NInf, NInf => PInf
  | PInf, NInf | NInf, PInf => NInf
  end.

(** [a / b]; a zero divisor is the positive zero. *)
Definition div (a b : number) : number :=
  match a, b with
  | NaN, _ | _, NaN => NaN
  | Fin x, Fin y =>
      if Qeq_bool y 0
      then (if Qeq_bool x 0 then NaN else sign_inf (Qltb 0 x))
      else Fin (x / y)
  | Fin _, (PInf | NInf) => zero
  | (PInf | NInf), (PInf | NInf) => NaN
  | PInf, Fin y => sign_inf (Qle_bool 0 y)
  | NInf, Fin y => sign_inf (negb (Qle_bool 0 y))
  end.

(** [Math.max], [Math.min]: NaN if an argument is NaN. *)
Definition max (a b : number) : number :=
  if isNaN a || isNaN b then NaN else if lt a b then b else a.
Definition min (a b : number) : number :=
  if isNaN a || isNaN b then NaN else if lt b a then b else a.

(** Truthiness of a number: 0 and NaN are falsy. *)
Definition truthy (a : number) : bool :=
  match a with
  | Fin x => negb (Qeq_bool x 0)
  | NaN => false
  | PInf | NInf => true
  end.

(** *** Numeric literals *)

Definition digit_val (c : ascii) : option Z :=
  if Js.is_digit c then Some (Z.of_nat (nat_of_ascii c) - 48) else None.

(** Reads the longest run of decimal digits: the value accumulated onto [acc],
    the number of digits read, and the rest of the text. *)
Fixpoint scan_digits (s : string) (acc : Z) (n : nat) : Z * nat * string :=
  match s with
  | String c s' =>
      match digit_val c with
      | Some d => scan_digits s' (10 * acc + d) (S n)
      | None => (acc, n, s)
      end
  | EmptyString => (acc, n, s)
  end.

(** [m * 10^e] as a rational. *)
Definition scale10 (m e : Z) : Q :=
  if 0 <=? e then inject_Z (m * 10 ^ e) else m # Z.to_pos (10 ^ (- e)).

Definition scan_sign (s : string) : bool * string :=
  match s with
  | String "-" s' => (true, s')
  | String "+" s' => (false, s')
  | _ => (false, s)
  end.

(** The exponent part [e[+-]ddd], taken only when it has a digit. *)
Definition scan_exponent (s : string) : Z * string :=
  match s with
  | String c r =>
      if Ascii.eqb c "e" || Ascii.eqb c "E" then
        let '(sg, r') := scan_sign r in
        let '(ev, ne, r'') := scan_digits r' 0 0 in
        if Nat.eqb ne 0 then (0, s) else ((if sg then - ev else ev), r'')
      else (0, s)
  | EmptyString => (0, s)
  end.

(** The longest prefix that is an unsigned decimal literal
    ([ddd], [ddd.], [ddd.ddd], [.ddd], each with an optional exponent):
    its value and the rest of the text; [None] when there is no such prefix. *)
Definition scan_decimal (s : string) : option (Q * string) :=
  let '(i, ni, r1) := scan_digits s 0 0 in
  let '(m, nf, r2) :=
    match r1 with
    | String "." r =>
        let '(m, nf, r2) := scan_digits r i 0 in
        if Nat.eqb (ni + nf) 0 then (i, 0%nat, r1) else (m, nf, r2)
    | _ => (i, 0%nat, r1)
    end in
  if Nat.eqb (ni + nf) 0 then None
  else
    let '(e, r3) := scan_exponent r2 in
    Some (scale10 m (e - Z.of_nat nf), r3).

(** Literals at or beyond this magnitude round to an infinity. *)
Definition overflow_bound : Q := inject_Z (2 ^ 1024 - 2 ^ 970).
(** Literals at or below this magnitude round to zero. *)
Definition underflow_bound : Q := 1 # Z.to_pos (2 ^ 1075).

Definition of_literal (negative : bool) (q : Q) : number :=
  if Qle_bool overflow_bound q then sign_inf (negb negative)
  else if Qle_bool q underflow_bound then zero
  else Fin (if negative then - q else q).

(** [Number.parseFloat(s)]. *)
Definition parseFloat (s : string) : number :=
  let '(sg, r) := scan_sign (Js.trimStart s) in
  if Js.startsWith "Infinity" r then sign_inf (negb sg)
  else match scan_decimal r with
       | Some (q, _) => of_literal sg q
       | None => NaN
       end.

(** [Number.parseInt(s, 10)]. *)
Definition parseInt (s : string) : number :=
  let '(sg, r) := scan_sign (Js.trimStart s) in
  let '(v, n, _) := scan_digits r 0 0 in
  if Nat.eqb n 0 then NaN else of_literal sg (inject_Z v).

(** Digits of a literal in base 2, 8 or 16. *)
Definition radix_digit (base : Z) (c : ascii) : option Z :=
  let d :=
    if Js.is_digit c then Z.of_nat (nat_of_ascii c) - 48
    else if Js.is_lower c then Z.of_nat (nat_of_ascii c) - 87
    else if Js.is_upper c then Z.of_nat (nat_of_ascii c) - 55
    else base in
  if d <? base then Some d else None.

Fixpoint radix_value (base : Z) (s : string) (acc : Z) : option Z :=
  match s with
  | EmptyString => Some acc
  | String c s' =>
      match radix_digit base c with
      | Some d => radix_value base s' (base * acc + d)
      | None => None
      end
  end.

Definition radix_literal (base : Z) (s : string) : number :=
  match s with
  | EmptyString => NaN
  | _ => match radix_value base s 0 with
         | Some v => of_literal false (inject_Z v)
         | None => NaN
         end
  end.

(** [Number(s)] on a string: the whole trimmed text has to be a literal. *)
Definition Number (s : string) : number :=
  let t := Js.trim s in
  match t with
  | EmptyString => zero
  | String "0" (String ("x" | "X") r) => radix_literal 16 r
  | String "0" (String ("o" | "O") r) => radix_literal 8 r
  | String "0" (String ("b" | "B") r) => radix_literal 2 r
  | _ =>
      let '(sg, r) := scan_sign t in
      if String.eqb r "Infinity" then sign_inf (negb sg)
      else match scan_decimal r with
           | Some (q, EmptyString) => of_literal sg q
           | _ => NaN
           end
  end.

End Num.

(** ** The data model ([AccountData] of the type declarations) *)

Record AccountData : Type := mkAccount {
  Account_ID : number;
  Account_Name : string;
  Address : string;
  Total_Sales : string;
  Date_Created : string;
  Date_Last_Quoted : string;
  Primary_Rep_Name : string;
  Lifecycle_Stage : option string;
  Analytics_Source : option string;
  Latest_Source : option string;
  Source_Data_1 : option string;
  Source_Data_2 : option string;
  First_Touch_Campaign : option string;
  Last_Touch_Campaign : option string;
  First_URL : option string;
  Last_URL : option string;
  Number_of_Visits : option string;
  Number_of_Page_Views : option string
}.

(** ** Helpers of [hubspot-actions.ts] *)

(** [parseCurrency] on the text of a [Total Sales] field (the only way the
    module calls it). *)
Definition parseCurrency (value : string) : number :=
  if negb (Js.truthy value) then Num.zero
  else
    let cleaned := Js.strip_currency value in
    let num := Num.parseFloat cleaned in
    if negb (Num.isNaN num) && Num.isFinite num then num else Num.zero.

Definition calculateAverage (arr : list number) : number :=
  if Nat.eqb (length arr) 0 then Num.zero
  else
    let sum := fold_left (fun acc val => Num.add acc val) arr Num.zero in
    Num.div sum (Num.of_nat (length arr)).

Definition determineLifecycleStage (salesAmount : number) : string :=
  if Num.gt salesAmount (Num.of_Z 50000) then "customer"
  else if Num.gt salesAmount (Num.of_Z 10000) then "salesqualifiedlead"
  else if Num.gt salesAmount (Num.of_Z 0) then "marketingqualifiedlead"
  else "lead".

(** *** Brand extraction *)

Definition KNOWN_BRANDS_HS : list string :=
  ["Hospeco"; "Indoff"; "Triad"; "Impact"; "Legacy"; "Acme"; "Supply"; "Corp"; "LLC"; "Inc"].

Definition GENERIC_SUFFIXES : list string := ["LLC"; "Inc"; "Corp"; "Group"; "Brands"].

Definition in_list (x : string) (l : list string) : bool := existsb (String.eqb x) l.

(** [s.split(sep)[0]]: the text before the first occurrence of [sep]. *)
Definition before_first (s sep : string) : string :=
  match Js.indexOf s sep with
  | Some i => Js.take_str i s
  | None => s
  end.

(** [s.substring(0, s'.indexOf(sep))]; an index of -1 counts as 0. *)
Definition substring_to_index (s s' sep : string) : string :=
  match Js.indexOf s' sep with
  | Some i => Js.take_str i s
  | None => EmptyString
  end.

(** The [for (const brand of KNOWN_BRANDS_HS)] loop: [Some label] when the
    loop returns, [None] when it runs to its end. *)
Fixpoint brand_loop (accountName lowerCaseName : string) (brands : list string)
  : option string :=
  match brands with
  | [] => None
  | brand :: rest =>
      if Js.includes lowerCaseName (Js.toLowerCase brand) then
        if in_list brand GENERIC_SUFFIXES
           && Js.truthy (Js.trim (before_first lowerCaseName (Js.toLowerCase brand)))
        then
          let potentialBrand :=
            Js.trim (Js.strip_final_comma (Js.trim
              (substring_to_index accountName lowerCaseName (Js.toLowerCase brand)))) in
          if Js.truthy potentialBrand then Some potentialBrand else Some brand
        else Some brand
      else brand_loop accountName lowerCaseName rest
  end.

Definition extractBrandFromAccountNameHS (accountName : string) : string :=
  let lowerCaseName := Js.toLowerCase accountName in
  match brand_loop accountName lowerCaseName KNOWN_BRANDS_HS with
  | Some label => label
  | None =>
      let word0 := Js.first_word accountName in
      if Nat.ltb 2 (String.length word0) && negb (in_list word0 ["The"; "A"; "An"])
      then word0 else "Other"
  end.

(** *** Traffic sources and lead health *)

Definition normalizeTrafficSource (source : string) : string :=
  if negb (Js.truthy source) || String.eqb source "Unknown" then "Unknown"
  else
    let normalized := Js.toLowerCase source in
    if Js.includes normalized "organic" || Js.includes normalized "seo" then "Organic Search"
    else if Js.includes normalized "paid" || Js.includes normalized "cpc"
            || Js.includes normalized "adwords" then "Paid Search"
    else if Js.includes normalized "social" || Js.includes normalized "facebook"
            || Js.includes normalized "linkedin" then "Social Media"
    else if Js.includes normalized "email" then "Email Marketing"
    else if Js.includes normalized "direct" then "Direct Traffic"
    else if Js.includes normalized "referral" then "Referral"
    else if Js.includes normalized "offline" then "Offline"
    else source.

(** [Number(account["Number of Visits"] || 0)]. *)
Definition visits_of (account : AccountData) : number :=
  match Number_of_Visits account with
  | Some s => if Js.truthy s then Num.Number s else Num.zero
  | None => Num.zero
  end.

(** [account["Lifecycle Stage"]?.toLowerCase()]. *)
Definition stage_lower (account : AccountData) : option string :=
  Js.toLowerCase <$> Lifecycle_Stage account.

(** The score only ever holds small integers; it is carried as a [Z]. *)
Definition calculateLeadHealthScore (account : AccountData) : Z :=
  let score := 50 in
  let source := Js.opt_or (Analytics_Source account) "Unknown" in
  let score :=
    if Js.includes source "Organic Search" then score + 15
    else if Js.includes source "Paid Search" then score + 10
    else if Js.includes source "Referral" then score + 20
    else score in
  let visits := visits_of account in
  let score :=
    if Num.gt visits (Num.of_Z 5) then score + 15
    else if Num.gt visits (Num.of_Z 2) then score + 10
    else score in
  let stage := Js.opt_or (stage_lower account) EmptyString in
  let score :=
    if String.eqb stage "salesqualifiedlead" then score + 25
    else if String.eqb stage "marketingqualifiedlead" then score + 15
    else if String.eqb stage "customer" then score + 30
    else score in
  Z.max 0 (Z.min 100 score).

Definition getLeadTemperature (healthScore : Z) : string :=
  if 80 <=? healthScore then "🔥 Hot"
  else if 60 <=? healthScore then "🌡️ Warm"
  else if 40 <=? healthScore then "❄️ Cool"
  else "🧊 Cold".

(** ** Host services

    [Date], [URL] and the locale-dependent formatters belong to the
    JavaScript host, not to the repository; the code is verified for every
    host. *)

Record JsDate : Type := mkDate {
  getFullYear : Z;
  getMonth : Z;
  getTime : Z
}.

Record Host : Type := mkHost {
  (** [new Date(s)]; [None] is an Invalid Date. *)
  newDate : string -> option JsDate;
  (** [a.localeCompare(b)]. *)
  localeCompare : string -> string -> number;
  (** [new Date(key + "-01").toLocaleDateString("en-US", { month: "short", year: "2-digit" })]. *)
  monthLabel : string -> string;
  (** [new URL(s).pathname]; [None] when the constructor throws. *)
  urlPathname : string -> option string;
  (** [new Date(s).toLocaleDateString("en-US")]. *)
  toLocaleDateString : string -> string;
  (** The [n]-th draw of [Math.floor(Math.random() * 1000000)]. *)
  randomId : nat -> number
}.

(** ** Arrays *)

(** [arr.sort(cmp)]: the sort is stable, and [cmp x y > 0] moves [x] behind
    [y]; an insertion sort from the right computes that order. *)
Fixpoint sort_insert {A} (cmp : A -> A -> number) (x : A) (l : list A) : list A :=
  match l with
  | [] => [x]
  | y :: ys => if Num.gt (cmp x y) Num.zero then y :: sort_insert cmp x ys else x :: l
  end.

Definition js_sort {A} (cmp : A -> A -> number) (l : list A) : list A :=
  fold_right (sort_insert cmp) [] l.

(** [arr.slice(-n)] for [n > 0]. *)
Definition slice_last {A} (n : nat) (l : list A) : list A :=
  drop (length l - n) l.

(** [arr.slice(0, n)]. *)
Definition slice_first {A} (n : nat) (l : list A) : list A := take n l.

(** ** The summary snapshot ([ProcessedData]) *)

Record SalesBucket : Type := mkSales { sales : number; accounts : nat }.
Record TrendBucket : Type := mkTrend { t_accounts : nat; t_revenue : number }.
Record MonthlyTrend : Type := mkMonthly { month : string; m_accounts : nat; m_revenue : number }.
Record SourceBucket : Type := mkSource {
  s_leads : nat; s_revenue : number; s_conversionRate : number; s_avgDealSize : number }.
Record LeadBucket : Type := mkLead { leads : nat; revenue : number }.
Record PageBucket : Type := mkPage {
  p_leads : nat; p_revenue : number; p_avgDealSize : number;
  p_sqlCount : nat; p_conversionRate : number }.
Record HealthEntry : Type := mkHealth {
  accountId : number; accountName : string; healthScore : Z; temperature : string }.

(** The fields of the snapshot that do not read the wall clock; the
    wall-clock ones ([recentlyQuoted], the risk level of a health entry and
    [timeBasedInsights]) are left out. *)
Record ProcessedData : Type := mkProcessed {
  totalAccounts : nat;
  totalRevenue : number;
  averageDealSize : number;
  salesByRep : gmap string SalesBucket;
  salesDistribution : gmap string nat;
  monthlyTrends : list MonthlyTrend;
  topStates : gmap string SalesBucket;
  salesByBrand : gmap string SalesBucket;
  topPerformingAccounts : list AccountData;
  leastPerformingAccounts : list AccountData;
  allAccounts : list AccountData;
  lifecycleStageDistribution : gmap string number;
  trafficSourcePerformance : gmap string SourceBucket;
  geographicDistribution : gmap string LeadBucket;
  leadHealthScores : list HealthEntry;
  campaignPerformance : gmap string LeadBucket;
  landingPagePerformance : gmap string PageBucket
}.

(** ** The aggregation engine: [processAccountDataInternal] *)

(** *** Dictionaries and [Object.prototype]

    The dictionaries are object literals, so a key that names a member of
    [Object.prototype] reads the inherited member where the object has no
    property of its own.  Eleven of the members are functions; [__proto__]
    is an accessor whose getter returns [Object.prototype] and whose setter
    ignores a value that is neither an object nor [null].  All of them are
    truthy. *)
Definition PROTO_FUNCTIONS : list string :=
  ["constructor"; "__defineGetter__"; "__defineSetter__"; "hasOwnProperty";
   "__lookupGetter__"; "__lookupSetter__"; "isPrototypeOf"; "propertyIsEnumerable";
   "toString"; "valueOf"; "toLocaleString"].

Definition PROTO_MEMBERS : list string := "__proto__" :: PROTO_FUNCTIONS.

Definition proto_member (k : string) : bool := in_list k PROTO_MEMBERS.

(** [if (!m[k]) m[k] = init; m[k] = f(m[k])] on a dictionary whose entries
    are objects (always truthy once present).  Under the name of a member of
    [Object.prototype] the test finds the inherited member, no entry is
    created, and the update writes fields of the inherited object: the
    dictionary keeps its own properties.  (The fields written there hold
    NaN, which is falsy, so no later test of this or of another dictionary
    is changed by them.) *)
Definition upsert {V} (k : string) (init : V) (f : V -> V) (m : gmap string V)
  : gmap string V :=
  if proto_member k then m else <[k := f (default init (m !! k))]> m.

(** [if (!m[k]) m[k] = 0; m[k]++] on a dictionary of counts: a stored 0 or
    NaN is falsy and is overwritten by 0.  Under the name of an inherited
    function the test passes the first time and [m[k]++] stores NaN (the
    function converted to a number, plus 1) as a property of the
    dictionary; under [__proto__] the setter ignores the number and nothing
    is stored. *)
Definition count_up (k : string) (m : gmap string number) : gmap string number :=
  if String.eqb k "__proto__" then m
  else
    match m !! k with
    | Some n => <[k := Num.add (if Num.truthy n then n else Num.zero) (Num.of_Z 1)]> m
    | None => if proto_member k then <[k := NaN]> m else <[k := Num.of_Z 1]> m
    end.

(** [m[k]++] on a key the initialiser put there. *)
Definition bump (k : string) (m : gmap string nat) : gmap string nat :=
  alter S k m.

Definition add_sale (s : number) (b : SalesBucket) : SalesBucket :=
  {| sales := Num.add (sales b) s; accounts := accounts b + 1 |}.

(** The six revenue bands created by the initialiser of [salesDistribution]. *)
Definition BANDS : list string :=
  ["Negative"; "$0-$1K"; "$1K-$5K"; "$5K-$10K"; "$10K-$25K"; "$25K+"].

Definition salesDistribution_init : gmap string nat :=
  <["Negative" := 0%nat]> (<["$0-$1K" := 0%nat]> (<["$1K-$5K" := 0%nat]>
  (<["$5K-$10K" := 0%nat]> (<["$10K-$25K" := 0%nat]> (<["$25K+" := 0%nat]> ∅))))).

Definition band_of (s : number) : string :=
  if Num.lt s Num.zero then "Negative"
  else if Num.le s (Num.of_Z 1000) then "$0-$1K"
  else if Num.le s (Num.of_Z 5000) then "$1K-$5K"
  else if Num.le s (Num.of_Z 10000) then "$5K-$10K"
  else if Num.le s (Num.of_Z 25000) then "$10K-$25K"
  else "$25K+".

(** *** The state pattern
    [/\b([A-Z]{2})\b(?=,?\s*\d{5}(-\d{4})?$)/] *)

Fixpoint digits_then (n : nat) (s : string) : option string :=
  match n with
  | O => Some s
  | S n' =>
      match s with
      | String c s' => if Js.is_digit c then digits_then n' s' else None
      | EmptyString => None
      end
  end.

(** [,?\s*\d{5}(-\d{4})?$] against the whole of [s]. *)
Definition zip_tail (s : string) : bool :=
  let s1 := match s with String "," r => r | _ => s end in
  match digits_then 5 (Js.trimStart s1) with
  | Some EmptyString => true
  | Some (String "-" r) =>
      match digits_then 4 r with Some EmptyString => true | _ => false end
  | _ => false
  end.

Definition starts_with_word (s : string) : bool :=
  match s with String c _ => Js.is_word c | EmptyString => false end.

(** The first match of the pattern, scanning from the left; [prev_word]
    tells whether the character before [s] is a word character. *)
Fixpoint state_match (prev_word : bool) (s : string) : option string :=
  match s with
  | EmptyString => None
  | String a s' =>
      match s' with
      | String b rest =>
          if negb prev_word && Js.is_upper a && Js.is_upper b
             && negb (starts_with_word rest) && zip_tail rest
          then Some (String a (String b EmptyString))
          else state_match (Js.is_word a) s'
      | EmptyString => None
      end
  end.

Definition stateMatch (address : string) : option string := state_match false address.

(** *** First pass: totals, rep/brand/state rollups, bands *)

Record MainState : Type := mkMain {
  totalSalesValue : number;
  validSales : list number;
  st_lifecycle : gmap string number;
  st_salesByRep : gmap string SalesBucket;
  st_salesByBrand : gmap string SalesBucket;
  st_salesDistribution : gmap string nat;
  st_topStates : gmap string SalesBucket
}.

Definition main_init : MainState :=
  {| totalSalesValue := Num.zero;
     validSales := [];
     st_lifecycle := ∅;
     st_salesByRep := ∅;
     st_salesByBrand := ∅;
     st_salesDistribution := salesDistribution_init;
     st_topStates := ∅ |}.

(** The guard that ends the callback early:
    [!isFinite(sales) || isNaN(sales) || Math.abs(sales) > 1e12]. *)
Definition rejected (s : number) : bool :=
  negb (Num.isFinite s) || Num.isNaN s || Num.gt (Num.abs s) (Num.of_Z (10 ^ 12)).

(** The test before [validSales.push(sales)]:
    [sales > 0 && isFinite(sales) && Math.abs(sales) < 1e12]. *)
Definition averaged (s : number) : bool :=
  Num.gt s Num.zero && Num.isFinite s && Num.lt (Num.abs s) (Num.of_Z (10 ^ 12)).

Definition rep_key (row : AccountData) : string := Js.or_else (Primary_Rep_Name row) "N/A".
Definition brand_key (row : AccountData) : string :=
  extractBrandFromAccountNameHS (Account_Name row).
Definition stage_key (row : AccountData) : string :=
  Js.opt_or (Lifecycle_Stage row) "unknown".

(** One call of the callback of the first [data.forEach]. *)
Definition main_step (st : MainState) (row : AccountData) : MainState :=
  let s := parseCurrency (Total_Sales row) in
  if rejected s then st
  else
    let rep := rep_key row in
    let brand := brand_key row in
    let lifecycleStage := stage_key row in
    let address := Js.or_else (Address row) EmptyString in
    {| totalSalesValue := Num.add (totalSalesValue st) s;
       validSales := if averaged s then validSales st ++ [s] else validSales st;
       st_lifecycle := count_up lifecycleStage (st_lifecycle st);
       st_salesByRep := upsert rep (mkSales Num.zero 0) (add_sale s) (st_salesByRep st);
       st_salesByBrand := upsert brand (mkSales Num.zero 0) (add_sale s) (st_salesByBrand st);
       st_salesDistribution := bump (band_of s) (st_salesDistribution st);
       st_topStates :=
         match stateMatch address with
         | Some state => upsert state (mkSales Num.zero 0) (add_sale s) (st_topStates st)
         | None => st_topStates st
         end |}.

Definition main_pass (data : list AccountData) : MainState :=
  fold_left main_step data main_init.

(** *** Monthly trend *)

(** [String(n).padStart(2, "0")]. *)
Definition padStart2 (s : string) : string :=
  match s with
  | EmptyString => "00"
  | String c EmptyString => String "0" s
  | _ => s
  end.

Definition month_key (d : JsDate) : string :=
  pretty (getFullYear d) +:+ "-" +:+ padStart2 (pretty (getMonth d + 1)).

(** [monthCounts]: the entries in the order in which the keys were created,
    which is the order of [Object.entries] (no month key is an array index). *)
Fixpoint month_add (key : string) (amount : number) (l : list (string * TrendBucket))
  : list (string * TrendBucket) :=
  match l with
  | [] => [(key, mkTrend 1 (Num.add Num.zero amount))]
  | (k, b) :: l' =>
      if String.eqb k key
      then (k, mkTrend (t_accounts b + 1) (Num.add (t_revenue b) amount)) :: l'
      else (k, b) :: month_add key amount l'
  end.

Section Aggregation.

Context (host : Host).

Definition month_step (monthCounts : list (string * TrendBucket)) (row : AccountData)
  : list (string * TrendBucket) :=
  let dateStr := Date_Created row in
  if Js.truthy dateStr && negb (String.eqb dateStr "N/A") then
    match newDate host dateStr with
    | None => monthCounts
    | Some date => month_add (month_key date) (parseCurrency (Total_Sales row)) monthCounts
    end
  else monthCounts.

Definition monthCounts_of (data : list AccountData) : list (string * TrendBucket) :=
  fold_left month_step data [].

Definition monthlyTrends_of (data : list AccountData) : list MonthlyTrend :=
  map (fun e => mkMonthly (monthLabel host (fst e)) (t_accounts (snd e)) (t_revenue (snd e)))
      (slice_last 12
         (js_sort (fun a b => localeCompare host (fst a) (fst b)) (monthCounts_of data))).

(** *** Ranking *)

Definition by_sales_desc (a b : AccountData) : number :=
  Num.sub (parseCurrency (Total_Sales b)) (parseCurrency (Total_Sales a)).

Definition is_negative (acc : AccountData) : bool :=
  Num.lt (parseCurrency (Total_Sales acc)) Num.zero.
Definition is_non_negative (acc : AccountData) : bool :=
  Num.ge (parseCurrency (Total_Sales acc)) Num.zero.

Definition sortedAccounts_of (data : list AccountData) : list AccountData :=
  js_sort by_sales_desc data.

Definition topPerforming_of (data : list AccountData) : list AccountData :=
  slice_first 5 (sortedAccounts_of data).

Definition leastPerforming_of (data : list AccountData) : list AccountData :=
  let sortedAccounts := sortedAccounts_of data in
  let least := rev (slice_last 5 (List.filter is_negative sortedAccounts)) in
  if Nat.ltb (length least) 5 && Nat.ltb 0 (length sortedAccounts) then
    let lowestPositive :=
      rev (slice_last (5 - length least) (List.filter is_non_negative sortedAccounts)) in
    least ++ lowestPositive
  else least.

(** *** Traffic sources *)

Definition source_key (account : AccountData) : string :=
  normalizeTrafficSource
    (Js.opt_or (Analytics_Source account) (Js.opt_or (Latest_Source account) "Unknown")).

Definition is_sql (account : AccountData) : bool :=
  match stage_lower account with
  | Some s => String.eqb s "salesqualifiedlead"
  | None => false
  end.

Definition source_step (m : gmap string SourceBucket) (account : AccountData)
  : gmap string SourceBucket :=
  let amount := parseCurrency (Total_Sales account) in
  upsert (source_key account) (mkSource 0 Num.zero Num.zero Num.zero)
    (fun b => mkSource (s_leads b + 1) (Num.add (s_revenue b) amount)
                (s_conversionRate b) (s_avgDealSize b)) m.

(** The second loop, over [Object.keys(processed.trafficSourcePerformance)]. *)
Definition source_finish (data : list AccountData) (source : string) (b : SourceBucket)
  : SourceBucket :=
  let sourceAccounts := List.filter (fun a => String.eqb (source_key a) source) data in
  let sqlCount := length (List.filter is_sql sourceAccounts) in
  mkSource (s_leads b) (s_revenue b)
    (if Nat.ltb 0 (length sourceAccounts)
     then Num.mul (Num.div (Num.of_nat sqlCount) (Num.of_nat (length sourceAccounts)))
                  (Num.of_Z 100)
     else Num.zero)
    (if Nat.ltb 0 (s_leads b) then Num.div (s_revenue b) (Num.of_nat (s_leads b))
     else Num.zero).

Definition trafficSourcePerformance_of (data : list AccountData)
  : gmap string SourceBucket :=
  map_imap (fun source b => Some (source_finish data source b))
    (fold_left source_step data ∅).

(** *** Geography, campaigns *)

Definition add_lead (amount : number) (b : LeadBucket) : LeadBucket :=
  mkLead (leads b + 1) (Num.add (revenue b) amount).

Definition geo_key (account : AccountData) : string :=
  match stateMatch (Js.or_else (Address account) "Unknown") with
  | Some state => state
  | None => "Unknown"
  end.

Definition geo_step (m : gmap string LeadBucket) (account : AccountData)
  : gmap string LeadBucket :=
  upsert (geo_key account) (mkLead 0 Num.zero)
    (add_lead (parseCurrency (Total_Sales account))) m.

Definition campaign_of (account : AccountData) : string :=
  Js.opt_or (Last_Touch_Campaign account)
    (Js.opt_or (First_Touch_Campaign account) EmptyString).

Definition campaign_step (m : gmap string LeadBucket) (account : AccountData)
  : gmap string LeadBucket :=
  let campaign := campaign_of account in
  if Js.truthy campaign && Js.truthy (Js.trim campaign)
     && negb (String.eqb campaign "Unknown Campaign")
  then upsert campaign (mkLead 0 Num.zero)
         (add_lead (parseCurrency (Total_Sales account))) m
  else m.

(** *** Landing pages *)

(** [s.length > n ? s.substring(0, n) + "..." : s]. *)
Definition truncate (n : nat) (s : string) : string :=
  if Nat.ltb n (String.length s) then Js.take_str n s +:+ "..." else s.

Definition page_name (pathname : string) : string :=
  if String.eqb pathname "/" || String.eqb pathname EmptyString then "Homepage"
  else if Js.includes pathname "/home" then "Home Page"
  else if Js.includes pathname "/product" then "Product Pages"
  else if Js.includes pathname "/about" then "About Us"
  else if Js.includes pathname "/contact" then "Contact Us"
  else if Js.includes pathname "/blog" then "Blog"
  else if Js.includes pathname "/pricing" then "Pricing"
  else if Js.includes pathname "/demo" then "Demo/Trial"
  else if Js.includes pathname "/case-study" || Js.includes pathname "/case-studies"
       then "Case Studies"
  else if Js.includes pathname "/resource" then "Resources"
  else truncate 30 pathname.

(** The bucket of an account; [None] when its first URL is empty or blank.
    The [catch] branch is taken exactly when [new URL] throws. *)
Definition page_key (account : AccountData) : option string :=
  let firstUrl := Js.opt_or (First_URL account) EmptyString in
  if Js.truthy firstUrl && Js.truthy (Js.trim firstUrl) then
    match urlPathname host firstUrl with
    | Some pathname => Some (page_name pathname)
    | None => Some (truncate 40 firstUrl)
    end
  else None.

Definition add_page (amount : number) (isSQL : bool) (b : PageBucket) : PageBucket :=
  mkPage (p_leads b + 1) (Num.add (p_revenue b) amount) (p_avgDealSize b)
         (if isSQL then p_sqlCount b + 1 else p_sqlCount b) (p_conversionRate b).

Definition page_step (m : gmap string PageBucket) (account : AccountData)
  : gmap string PageBucket :=
  match page_key account with
  | Some key =>
      upsert key (mkPage 0 Num.zero Num.zero 0 Num.zero)
        (add_page (parseCurrency (Total_Sales account)) (is_sql account)) m
  | None => m
  end.

Definition page_finish (b : PageBucket) : PageBucket :=
  mkPage (p_leads b) (p_revenue b)
    (if Nat.ltb 0 (p_leads b) then Num.div (p_revenue b) (Num.of_nat (p_leads b))
     else Num.zero)
    (p_sqlCount b)
    (if Nat.ltb 0 (p_leads b)
     then Num.mul (Num.div (Num.of_nat (p_sqlCount b)) (Num.of_nat (p_leads b)))
                  (Num.of_Z 100)
     else Num.zero).

Definition landingPagePerformance_of (data : list AccountData) : gmap string PageBucket :=
  page_finish <$> fold_left page_step data ∅.

(** *** Lead health *)

Definition health_entry (account : AccountData) : HealthEntry :=
  let score := calculateLeadHealthScore account in
  mkHealth (Account_ID account) (Account_Name account) score (getLeadTemperature score).

Definition leadHealthScores_of (data : list AccountData) : list HealthEntry :=
  js_sort (fun a b => Num.of_Z (healthScore b - healthScore a)) (map health_entry data).

(** *** The snapshot *)

Definition processAccountDataInternal (data : list AccountData) : ProcessedData :=
  let st := main_pass data in
  {| totalAccounts := length data;
     totalRevenue := totalSalesValue st;
     averageDealSize := calculateAverage (validSales st);
     salesByRep := st_salesByRep st;
     salesDistribution := st_salesDistribution st;
     monthlyTrends := monthlyTrends_of data;
     topStates := st_topStates st;
     salesByBrand := st_salesByBrand st;
     topPerformingAccounts := topPerforming_of data;
     leastPerformingAccounts := leastPerforming_of data;
     allAccounts := data;
     lifecycleStageDistribution := st_lifecycle st;
     trafficSourcePerformance := trafficSourcePerformance_of data;
     geographicDistribution := fold_left geo_step data ∅;
     leadHealthScores := leadHealthScores_of data;
     campaignPerformance := fold_left campaign_step data ∅;
     landingPagePerformance := landingPagePerformance_of data |}.

End Aggregation.

(** ** Arrays as shared objects

    [processed.allAccounts = data] stores a reference to the caller's array;
    [sort] and [reverse] work in place.  The ranking block is modelled a
    second time over a store of arrays, to tell which arrays it writes. *)

Module Store.

Abbreviation ref := nat (only parsing).
Abbreviation store := (gmap nat (list AccountData)) (only parsing).

Definition M (A : Type) : Type := store -> A * store.

Definition ret {A} (a : A) : M A := fun h => (a, h).
Definition bind {A B} (m : M A) (k : A -> M B) : M B :=
  fun h => let '(a, h') := m h in k a h'.

Notation "x <- m ;; k" := (bind m (fun x => k))
  (at level 100, m at next level, right associativity).

(** A new array object. *)
Definition alloc (l : list AccountData) : M ref :=
  fun h => let r := fresh (dom h) in (r, <[r := l]> h).

Definition read (r : ref) : M (list AccountData) :=
  fun h => (default [] (h !! r), h).

(** [[...arr]] *)
Definition spread (r : ref) : M ref := l <- read r ;; alloc l.

(** [arr.sort(cmp)]: in place, returns the same array. *)
Definition sort (cmp : AccountData -> AccountData -> number) (r : ref) : M ref :=
  fun h => (r, alter (js_sort cmp) r h).

(** [arr.reverse()]: in place, returns the same array. *)
Definition reverse (r : ref) : M ref := fun h => (r, alter (@rev AccountData) r h).

(** [arr.filter(p)], [arr.slice(..)], [[...a, ...b]]: new arrays. *)
Definition filter (p : AccountData -> bool) (r : ref) : M ref :=
  l <- read r ;; alloc (List.filter p l).
Definition slice_from_end (n : nat) (r : ref) : M ref :=
  l <- read r ;; alloc (slice_last n l).
Definition slice_to (n : nat) (r : ref) : M ref :=
  l <- read r ;; alloc (slice_first n l).
Definition concat (r1 r2 : ref) : M ref :=
  l1 <- read r1 ;; l2 <- read r2 ;; alloc (l1 ++ l2).
Definition length_of (r : ref) : M nat := l <- read r ;; ret (length l).

(** The references held by the snapshot after the ranking block. *)
Record Ranked : Type := mkRanked {
  r_allAccounts : ref;
  r_topPerformingAccounts : ref;
  r_leastPerformingAccounts : ref
}.

Definition ranking (data : ref) : M Ranked :=
  let allAccounts := data in
  copy <- spread data ;;
  sortedAccounts <- sort by_sales_desc copy ;;
  top <- slice_to 5 sortedAccounts ;;
  negatives <- filter is_negative sortedAccounts ;;
  tail <- slice_from_end 5 negatives ;;
  least <- reverse tail ;;
  n <- length_of least ;;
  total <- length_of sortedAccounts ;;
  if Nat.ltb n 5 && Nat.ltb 0 total then
    others <- filter is_non_negative sortedAccounts ;;
    tail' <- slice_from_end (5 - n) others ;;
    lowestPositive <- reverse tail' ;;
    least' <- concat least lowestPositive ;;
    ret (mkRanked allAccounts top least')
  else ret (mkRanked allAccounts top least).

End Store.

(** ** The record transformer: [transformHubSpotDataToAccountData] *)

(** A CRM object: its id and its property dictionary. *)
Record CrmObject : Type := mkObject {
  o_id : string;
  o_properties : gmap string string
}.

Record Contact : Type := mkContact {
  c_id : string;
  c_properties : gmap string string;
  (** the ids of [associations.companies.results] *)
  c_companies : list string
}.

Record Owner : Type := mkOwner {
  firstName : option string;
  lastName : option string
}.

(** [props.name || fallback] *)
Definition prop_or (props : gmap string string) (name fallback : string) : string :=
  Js.opt_or (props !! name) fallback.

(** [contact.associations?.companies?.results?.[0]?.id] and the map lookup
    that follows it. *)
Definition company_of (companiesMap : gmap string CrmObject) (contact : Contact)
  : option CrmObject :=
  match c_companies contact with
  | companyId :: _ => if Js.truthy companyId then companiesMap !! companyId else None
  | [] => None
  end.

Definition owner_of (ownersMap : gmap string Owner) (contact : Contact) : option Owner :=
  match c_properties contact !! "hubspot_owner_id" with
  | Some ownerId => if Js.truthy ownerId then ownersMap !! ownerId else None
  | None => None
  end.

(** The [switch (lifecycleStage.toLowerCase())] that sets [leadValue]. *)
Definition leadValue_of (lifecycleStage : string) : string :=
  let stage := Js.toLowerCase lifecycleStage in
  if String.eqb stage "customer" then "25000"
  else if String.eqb stage "salesqualifiedlead" || String.eqb stage "sql" then "10000"
  else if String.eqb stage "marketingqualifiedlead" || String.eqb stage "mql" then "5000"
  else if String.eqb stage "lead" then "2000"
  else if String.eqb stage "subscriber" then "500"
  else "1000".

(** [parts.filter(Boolean).join(", ")] *)
Fixpoint join_comma (parts : list string) : string :=
  match parts with
  | [] => EmptyString
  | [p] => p
  | p :: rest => p +:+ ", " +:+ join_comma rest
  end.

Definition join_truthy (parts : list (option string)) : string :=
  join_comma (List.filter Js.truthy (omap id parts)).

Section Transformer.

Context (host : Host).

(** A date range bound, [startDate] or [endDate]: the time value of the Date. *)
Definition in_range (startDate endDate : option Z) (t : Z) : bool :=
  match startDate with Some s => negb (t <? s) | None => true end
  && match endDate with Some e => negb (e <? t) | None => true end.

(** The callback of [.filter]. *)
Definition keep_contact (companiesMap : gmap string CrmObject)
    (startDate endDate : option Z) (contact : Contact) : bool :=
  match startDate, endDate with
  | None, None => true
  | _, _ =>
      let company := company_of companiesMap contact in
      let createdDateStr :=
        match c_properties contact !! "createdate" with
        | Some s => if Js.truthy s then Some s
                    else (company ≫= fun c => o_properties c !! "createdate")
        | None => company ≫= fun c => o_properties c !! "createdate"
        end in
      match createdDateStr with
      | Some s =>
          if Js.truthy s then
            match newDate host s with
            | Some createdDate => in_range startDate endDate (getTime createdDate)
            | None => true
            end
          else true
      | None => true
      end
  end.

(** The callback of [.map]; [draws] counts the calls of [Math.random] so far. *)
Definition transform_contact (companiesMap : gmap string CrmObject)
    (ownersMap : gmap string Owner) (draws : nat) (contact : Contact)
  : AccountData * nat :=
  let props := c_properties contact in
  let company := company_of companiesMap contact in
  let owner := owner_of ownersMap contact in
  let contactName :=
    Js.trim (prop_or props "firstname" EmptyString +:+ " "
             +:+ prop_or props "lastname" EmptyString) in
  let accountName :=
    Js.or_else (match company with
                | Some c => prop_or (o_properties c) "name" EmptyString
                | None => EmptyString
                end)
      (Js.or_else (prop_or props "company" EmptyString)
         (Js.or_else contactName "Unknown Account")) in
  let lifecycleStage := prop_or props "lifecyclestage" "unknown" in
  let leadValue := leadValue_of lifecycleStage in
  let companyCreated :=
    match company with
    | Some c => prop_or (o_properties c) "createdate" EmptyString
    | None => EmptyString
    end in
  let dateCreated :=
    if Js.truthy (prop_or props "createdate" EmptyString)
    then toLocaleDateString host (prop_or props "createdate" EmptyString)
    else if Js.truthy companyCreated then toLocaleDateString host companyCreated
    else "N/A" in
  let dateLastQuoted :=
    if Js.truthy (prop_or props "lastmodifieddate" EmptyString)
    then toLocaleDateString host (prop_or props "lastmodifieddate" EmptyString)
    else "N/A" in
  let primaryRepName :=
    match owner with
    | Some o =>
        Js.or_else
          (Js.trim (Js.opt_or (firstName o) EmptyString +:+ " "
                    +:+ Js.opt_or (lastName o) EmptyString))
          "N/A"
    | None => "N/A"
    end in
  let address :=
    match company with
    | Some c =>
        let p := o_properties c in
        Js.or_else (Js.trim (join_truthy [p !! "address"; p !! "city"; p !! "state"; p !! "zip"]))
                   "N/A"
    | None =>
        Js.or_else (Js.trim (join_truthy [props !! "city"; props !! "state"; props !! "country"]))
                   "N/A"
    end in
  let parsedId :=
    Num.parseInt (Js.or_else (match company with Some c => o_id c | None => EmptyString end)
                             (c_id contact)) in
  let '(accountId, draws') :=
    if Num.truthy parsedId then (parsedId, draws) else (randomId host draws, S draws) in
  ({| Account_ID := accountId;
      Account_Name := accountName;
      Address := address;
      Total_Sales := leadValue;
      Date_Created := dateCreated;
      Date_Last_Quoted := dateLastQuoted;
      Primary_Rep_Name := primaryRepName;
      Lifecycle_Stage := Some lifecycleStage;
      Analytics_Source := Some (prop_or props "hs_analytics_source" "Unknown");
      Latest_Source := Some (prop_or props "hs_latest_source" "Unknown");
      Source_Data_1 := Some (prop_or props "hs_analytics_source_data_1" EmptyString);
      Source_Data_2 := Some (prop_or props "hs_analytics_source_data_2" EmptyString);
      First_Touch_Campaign :=
        Some (prop_or props "hs_analytics_first_touch_converting_campaign" EmptyString);
      Last_Touch_Campaign :=
        Some (prop_or props "hs_analytics_last_touch_converting_campaign" EmptyString);
      First_URL := Some (prop_or props "hs_analytics_first_url" EmptyString);
      Last_URL := Some (prop_or props "hs_analytics_last_url" EmptyString);
      Number_of_Visits := Some (prop_or props "hs_analytics_num_visits" "0");
      Number_of_Page_Views := Some (prop_or props "hs_analytics_num_page_views" "0") |},
   draws').

Fixpoint transform_all (companiesMap : gmap string CrmObject)
    (ownersMap : gmap string Owner) (draws : nat) (contacts : list Contact)
  : list AccountData :=
  match contacts with
  | [] => []
  | contact :: rest =>
      let '(account, draws') := transform_contact companiesMap ownersMap draws contact in
      account :: transform_all companiesMap ownersMap draws' rest
  end.

Definition transformHubSpotDataToAccountData (contacts : list Contact)
    (companiesMap : gmap string CrmObject) (ownersMap : gmap string Owner)
    (startDate endDate : option Z) : list AccountData :=
  transform_all companiesMap ownersMap 0
    (List.filter (keep_contact companiesMap startDate endDate) contacts).

End Transformer.

(** ** The adapters and their fallback: [fetchAndProcessHubSpotData] *)

Inductive result (A : Type) : Type :=
  | Ok (a : A)
  | Err (msg : string).
Arguments Ok {A} a.
Arguments Err {A} msg.

(** One page of a contact listing: [results] and [paging?.next?.after]. *)
Record ContactPage : Type := mkContactPage {
  results : list Contact;
  next_after : option string
}.

(** What the function asks of the outside world, in order. *)
Inductive Event : Type :=
  | EvSearch (after : option string)
  | EvGetPage (after : option string)
  | EvGetCompany (id : string)
  | EvGetOwner (id : string)
  | EvReadCsv.

(** The outside world of one invocation.  [csvRecords] stands for the part
    of [processCSVData] that reads the file and builds the date-filtered
    account list; [Err] when any step of it throws. *)
Record Env : Type := mkEnv {
  HUBSPOT_API_KEY : option string;
  searchApi_doSearch : Z -> option string -> result ContactPage;
  contacts_getPage : option string -> result ContactPage;
  companies_getById : string -> result CrmObject;
  owners_getById : string -> result Owner;
  csvRecords : option JsDate -> option JsDate -> result (list AccountData)
}.

Module Eff.

Record St : Type := mkSt { trace : list Event; allContacts : list Contact }.

(** A computation that talks to the outside world and may throw. *)
Definition M (A : Type) : Type := St -> St * result A.

Definition ret {A} (a : A) : M A := fun s => (s, Ok a).
Definition throw {A} (msg : string) : M A := fun s => (s, Err msg).
Definition bind {A B} (m : M A) (k : A -> M B) : M B :=
  fun s => match m s with
           | (s', Ok a) => k a s'
           | (s', Err e) => (s', Err e)
           end.
(** [try { m } catch (e) { handler(e) }] *)
Definition try_catch {A} (m : M A) (handler : string -> M A) : M A :=
  fun s => match m s with
           | (s', Ok a) => (s', Ok a)
           | (s', Err e) => handler e s'
           end.
(** An awaited call: it is recorded, then it resolves or rejects. *)
Definition call {A} (ev : Event) (r : result A) : M A :=
  fun s => (mkSt (trace s ++ [ev]) (allContacts s), r).
(** [allContacts.push(...page.results)] *)
Definition push (cs : list Contact) : M unit :=
  fun s => (mkSt (trace s) (allContacts s ++ cs), Ok tt).
Definition get_contacts : M (list Contact) := fun s => (s, Ok (allContacts s)).

Notation "x <- m ;; k" := (bind m (fun x => k))
  (at level 100, m at next level, right associativity).

Definition initial : St := mkSt [] [].

End Eff.

Import Eff.

Definition after_truthy (after : option string) : bool :=
  match after with Some a => Js.truthy a | None => false end.

(** [do { pageCount++; ... } while (after && pageCount < maxPages)]; [left]
    is [maxPages - pageCount] before the iteration. *)
Fixpoint paginate (ev : option string -> Event)
    (api : option string -> result ContactPage)
    (left : nat) (after : option string) : Eff.M unit :=
  match left with
  | O => Eff.ret tt
  | S left' =>
      contactsResponse <- Eff.call (ev after) (api after) ;;
      _ <- Eff.push (results contactsResponse) ;;
      let after' := next_after contactsResponse in
      if after_truthy after' then paginate ev api left' after' else Eff.ret tt
  end.

(** The qualification filter. *)
Definition lower_prop (contact : Contact) (name : string) : option string :=
  Js.toLowerCase <$> (c_properties contact !! name).

Definition opt_in (o : option string) (l : list string) : bool :=
  match o with Some s => in_list s l | None => false end.

Definition is_qualified (contact : Contact) : bool :=
  opt_in (lower_prop contact "lifecyclestage")
         ["salesqualifiedlead"; "marketingqualifiedlead"; "sql"; "mql"]
  || opt_in (lower_prop contact "lead_status")
         ["sales qualified lead"; "marketing qualified lead"; "sql"; "mql"]
  || opt_in (lower_prop contact "hs_lead_status")
         ["sales qualified lead"; "marketing qualified lead"; "sql"; "mql"].

(** [Array.from(new Set(ids))]: first occurrences, in order. *)
Fixpoint dedupe (seen ids : list string) : list string :=
  match ids with
  | [] => []
  | i :: rest => if in_list i seen then dedupe seen rest else i :: dedupe (i :: seen) rest
  end.

(** The [for (const id of ...)] loops with their inner [try]/[catch]. *)
Fixpoint lookup_all {V} (ev : string -> Event) (api : string -> result V)
    (ids : list string) (m : gmap string V) : Eff.M (gmap string V) :=
  match ids with
  | [] => Eff.ret m
  | i :: rest =>
      m' <- Eff.try_catch (v <- Eff.call (ev i) (api i) ;; Eff.ret (<[i := v]> m))
                          (fun _ => Eff.ret m) ;;
      lookup_all ev api rest m'
  end.

Section Adapters.

Context (host : Host) (env : Env).

Definition processCSVData (startDate endDate : option JsDate) : Eff.M ProcessedData :=
  Eff.try_catch
    (accounts <- Eff.call EvReadCsv (csvRecords env startDate endDate) ;;
     Eff.ret (processAccountDataInternal host accounts))
    (fun _ => Eff.throw "Failed to process CSV data").

(** The three ways of collecting [allContacts]. *)
Definition fetch_contacts (startDate : option JsDate) : Eff.M unit :=
  match startDate with
  | Some d =>
      if 2025 <=? getFullYear d then
        Eff.try_catch
          (paginate EvSearch (searchApi_doSearch env (getTime d)) 500 None)
          (fun _ => paginate EvGetPage (contacts_getPage env) 200 None)
      else paginate EvGetPage (contacts_getPage env) 500 None
  | None => paginate EvGetPage (contacts_getPage env) 500 None
  end.

(** The date filter applied to the qualified leads. *)
Definition lead_in_range (startDate endDate : option JsDate) (contact : Contact) : bool :=
  match c_properties contact !! "createdate" with
  | Some createDate =>
      if Js.truthy createDate then
        match newDate host createDate with
        | Some contactDate =>
            in_range (getTime <$> startDate) (getTime <$> endDate) (getTime contactDate)
        | None => false
        end
      else false
  | None => false
  end.

Definition owner_ids (contacts : list Contact) : list string :=
  List.filter Js.truthy (omap (fun c => c_properties c !! "hubspot_owner_id") contacts).

(** The body of the outer [try], from the qualification filter on. *)
Definition process_contacts (startDate endDate : option JsDate)
  : Eff.M (option ProcessedData) :=
  allContacts <- Eff.get_contacts ;;
  let qualifiedLeads := List.filter is_qualified allContacts in
  if Nat.eqb (length qualifiedLeads) 0 then
    processed <- processCSVData startDate endDate ;;
    Eff.ret (Some processed)
  else
    let filteredLeads :=
      match startDate, endDate with
      | None, None => qualifiedLeads
      | _, _ => List.filter (lead_in_range startDate endDate) qualifiedLeads
      end in
    let contacts := filteredLeads in
    let companyIds := dedupe [] (concat (map c_companies contacts)) in
    let ownerIds := dedupe [] (owner_ids contacts) in
    companiesMap <- lookup_all EvGetCompany (companies_getById env) companyIds ∅ ;;
    ownersMap <- lookup_all EvGetOwner (owners_getById env) ownerIds ∅ ;;
    let accountDataList :=
      transformHubSpotDataToAccountData host contacts companiesMap ownersMap
        (getTime <$> startDate) (getTime <$> endDate) in
    Eff.ret (Some (processAccountDataInternal host accountDataList)).

(** The body of the outer [try]. *)
Definition fetch_body (startDate endDate : option JsDate) : Eff.M (option ProcessedData) :=
  _ <- fetch_contacts startDate ;;
  process_contacts startDate endDate.

Definition key_configured : bool :=
  match HUBSPOT_API_KEY env with
  | Some k => Js.truthy (Js.trim k)
  | None => false
  end.

(** [Ok (Some snapshot)] and [Ok None] are the returned values; [Err] is a
    rejection of the returned promise.  Each of [startDate] and [endDate] is
    absent ([None]) or a valid date. *)
Definition fetchAndProcessHubSpotData (startDate endDate : option JsDate)
  : Eff.M (option ProcessedData) :=
  if negb key_configured then
    Eff.throw "HubSpot API key (HUBSPOT_API_KEY) is not configured in environment variables."
  else
    Eff.try_catch (fetch_body startDate endDate) (fun _ => Eff.ret None).

End Adapters.

(** ** A small host and sample records for the closed examples *)

Module Sample.

(** Splits [s] at every [sep]. *)
Fixpoint split_on (sep : ascii) (s : string) : list string :=
  match s with
  | EmptyString => [EmptyString]
  | String c s' =>
      if Ascii.eqb c sep then EmptyString :: split_on sep s'
      else match split_on sep s' with
           | w :: ws => String c w :: ws
           | [] => [String c EmptyString]
           end
  end.

Definition all_digits (s : string) : bool :=
  Js.truthy s && Nat.eqb (snd (fst (Num.scan_digits s 0 0))) (String.length s).

Definition digits_Z (s : string) : Z := fst (fst (Num.scan_digits s 0 0)).

(** Dates written [M/D/YYYY]; the time value counts days. *)
Definition newDate (s : string) : option JsDate :=
  match split_on "/" s with
  | [m; d; y] =>
      if all_digits m && all_digits d && all_digits y
         && (1 <=? digits_Z m) && (digits_Z m <=? 12)
      then Some (mkDate (digits_Z y) (digits_Z m - 1)
                        (digits_Z y * 372 + (digits_Z m - 1) * 31 + digits_Z d))
      else None
  | _ => None
  end.

Definition localeCompare (a b : string) : number :=
  match String.compare a b with
  | Lt => Num.of_Z (-1)
  | Eq => Num.of_Z 0
  | Gt => Num.of_Z 1
  end.

(** URLs written [scheme://authority/path]. *)
Definition urlPathname (s : string) : option string :=
  match Js.indexOf s "://" with
  | Some i =>
      let rest := String.substring (i + 3) (String.length s) s in
      match Js.indexOf rest "/" with
      | Some j => Some (String.substring j (String.length rest) rest)
      | None => Some "/"
      end
  | None => None
  end.

Definition host : Host :=
  mkHost newDate localeCompare (fun key => key) urlPathname (fun s => s)
         (fun n => Num.of_nat (S n)).

(** An account with the given name, rep and sales text, created 3/14/2024 in
    Columbus, OH; the attribution fields are filled in. *)
Definition account (name rep total : string) : AccountData :=
  {| Account_ID := Num.of_Z 1;
     Account_Name := name;
     Address := "123 Main St, Columbus, OH 43215";
     Total_Sales := total;
     Date_Created := "3/14/2024";
     Date_Last_Quoted := "N/A";
     Primary_Rep_Name := rep;
     Lifecycle_Stage := Some "lead";
     Analytics_Source := Some "Direct Traffic";
     Latest_Source := Some "Direct Traffic";
     Source_Data_1 := Some EmptyString;
     Source_Data_2 := Some EmptyString;
     First_Touch_Campaign := Some "Spring";
     Last_Touch_Campaign := Some "Spring";
     First_URL := Some "https://example.com/pricing";
     Last_URL := Some EmptyString;
     Number_of_Visits := Some "1";
     Number_of_Page_Views := Some "1" |}.

(** A record as [processCSVData] builds it from a row of the file: the
    eight fields of the file, the stage derived from the sales amount, and no
    attribution field. *)
Definition csv_account (name rep total : string) : AccountData :=
  {| Account_ID := Num.of_Z 1;
     Account_Name := name;
     Address := "123 Main St, Columbus, OH 43215";
     Total_Sales := total;
     Date_Created := "3/14/2024";
     Date_Last_Quoted := "N/A";
     Primary_Rep_Name := rep;
     Lifecycle_Stage := Some (determineLifecycleStage (parseCurrency total));
     Analytics_Source := None;
     Latest_Source := None;
     Source_Data_1 := None;
     Source_Data_2 := None;
     First_Touch_Campaign := None;
     Last_Touch_Campaign := None;
     First_URL := None;
     Last_URL := None;
     Number_of_Visits := None;
     Number_of_Page_Views := None |}.

End Sample.

(** ** Notions used to state the properties *)

(** The parsed sales value of a record, as a rational. *)
Definition sale_of (row : AccountData) : Q :=
  match parseCurrency (Total_Sales row) with
  | Fin q => q
  | _ => 0%Q
  end.

(** A record that passes the guard of the first pass. *)
Definition valid (row : AccountData) : bool :=
  negb (rejected (parseCurrency (Total_Sales row))).

(** The number of records of [data] that satisfy [p]. *)
Definition count_of (p : AccountData -> bool) (data : list AccountData) : nat :=
  length (List.filter p data).

(** Valid records whose key under [key] is [k]. *)
Definition keyed (key : AccountData -> string) (k : string) (row : AccountData) : bool :=
  valid row && String.eqb (key row) k.

(** The records a rollup keyed by [key] gives a bucket: the valid ones whose
    key is not the name of a member of [Object.prototype]. *)
Definition counted (key : AccountData -> string) (row : AccountData) : bool :=
  valid row && negb (proto_member (key row)).

(** Valid records whose sales value falls in the band [band]. *)
Definition in_band (band : string) (row : AccountData) : bool :=
  valid row && String.eqb (band_of (parseCurrency (Total_Sales row))) band.

(** The count stored under a key of a rep, brand or state rollup; an absent
    key counts as 0. *)
Definition bucket_accounts (m : gmap string SalesBucket) (k : string) : nat :=
  from_option accounts 0%nat (m !! k).

(** The sum of the [accounts] fields over the buckets of a rollup. *)
Definition total_accounts (m : gmap string SalesBucket) : nat :=
  map_fold (fun _ b n => (accounts b + n)%nat) 0%nat m.


(** C3 as the specification words it: seven negative records, and the list
    holds the five values closest to 0, the least negative first. *)
Definition five_least_negative (data least : list AccountData) : Prop :=
  exists rest,
    Permutation data (least ++ rest)
    /\ length least = 5%nat
    /\ (forall a b, a ∈ least -> b ∈ rest -> (sale_of b <= sale_of a)%Q)
    /\ StronglySorted (fun a b => (sale_of b <= sale_of a)%Q) least.

(** What the code computes there: the five values furthest below 0, the most
    negative first. *)
Definition five_most_negative (data least : list AccountData) : Prop :=
  exists rest,
    Permutation data (least ++ rest)
    /\ length least = 5%nat
    /\ (forall a b, a ∈ least -> b ∈ rest -> (sale_of a <= sale_of b)%Q)
    /\ StronglySorted (fun a b => (sale_of a <= sale_of b)%Q) least.

(** No lazily created bucket is empty. *)
Definition populated_sales (m : gmap string SalesBucket) : Prop :=
  map_Forall (fun _ b => (0 < accounts b)%nat) m.
Definition populated_leads (m : gmap string LeadBucket) : Prop :=
  map_Forall (fun _ b => (0 < leads b)%nat) m.

(** A finite number above 0. *)
Definition positive_number (s : number) : Prop := exists q, s = Fin q /\ (0 < q)%Q.

(** *** The lead health score as a table of bonuses *)

(** The bonus of the first keyword of [table] that occurs in [source]. *)
Fixpoint first_match (table : list (string * Z)) (source : string) : Z :=
  match table with
  | [] => 0
  | (keyword, bonus) :: rest =>
      if Js.includes source keyword then bonus else first_match rest source
  end.

(** The priority order of the specification. *)
Definition SOURCE_BONUS_SPEC : list (string * Z) :=
  [("Referral", 20); ("Organic Search", 15); ("Paid Search", 10)].

(** The priority order of the code. *)
Definition SOURCE_BONUS_CODE : list (string * Z) :=
  [("Organic Search", 15); ("Paid Search", 10); ("Referral", 20)].

Definition visit_bonus (account : AccountData) : Z :=
  if Num.gt (visits_of account) (Num.of_Z 5) then 15
  else if Num.gt (visits_of account) (Num.of_Z 2) then 10
  else 0.

Definition STAGE_BONUS : list (string * Z) :=
  [("customer", 30); ("salesqualifiedlead", 25); ("marketingqualifiedlead", 15)].

Definition stage_bonus (account : AccountData) : Z :=
  match List.find (fun e => String.eqb (fst e) (Js.opt_or (stage_lower account) EmptyString))
                  STAGE_BONUS with
  | Some e => snd e
  | None => 0
  end.

Definition clamp (lo hi x : Z) : Z := if x <? lo then lo else if hi <? x then hi else x.

(** The reference definition of the score for a given source table. *)
Definition reference_score (table : list (string * Z)) (account : AccountData) : Z :=
  clamp 0 100
    (50 + first_match table (Js.opt_or (Analytics_Source account) "Unknown")
        + visit_bonus account + stage_bonus account).

(** *** Lifecycle stages in order of estimated value *)

Inductive StageTier : Type :=
  | TCustomer | TSalesQualified | TMarketingQualified | TLead | TSubscriber | TUnknown.

(** The tier a stage text belongs to, case-insensitively; every text that is
    not a named stage is unknown. *)
Definition tier_of (lifecycleStage : string) : StageTier :=
  let stage := Js.toLowerCase lifecycleStage in
  if String.eqb stage "customer" then TCustomer
  else if String.eqb stage "salesqualifiedlead" || String.eqb stage "sql" then TSalesQualified
  else if String.eqb stage "marketingqualifiedlead" || String.eqb stage "mql"
       then TMarketingQualified
  else if String.eqb stage "lead" then TLead
  else if String.eqb stage "subscriber" then TSubscriber
  else TUnknown.

(** The position of a tier in the order of the specification:
    customer, sql, mql, lead, subscriber, unknown. *)
Definition rank_spec (t : StageTier) : nat :=
  match t with
  | TCustomer => 0 | TSalesQualified => 1 | TMarketingQualified => 2
  | TLead => 3 | TSubscriber => 4 | TUnknown => 5
  end.

(** The position of a tier in the order of the code:
    customer, sql, mql, lead, unknown, subscriber. *)
Definition rank_code (t : StageTier) : nat :=
  match t with
  | TCustomer => 0 | TSalesQualified => 1 | TMarketingQualified => 2
  | TLead => 3 | TUnknown => 4 | TSubscriber => 5
  end.

(** The estimated value of a stage, as a number. *)
Definition estimate (lifecycleStage : string) : number :=
  parseCurrency (leadValue_of lifecycleStage).

(** Estimates descend strictly along [rank]. *)
Definition estimates_descend (rank : StageTier -> nat) : Prop :=
  forall s1 s2, (rank (tier_of s1) < rank (tier_of s2))%nat ->
                Num.gt (estimate s1) (estimate s2) = true.

(** [contact] with its lifecycle stage replaced. *)
Definition with_stage (contact : Contact) (stage : string) : Contact :=
  mkContact (c_id contact) (<["lifecyclestage" := stage]> (c_properties contact))
            (c_companies contact).

(** The parsed [Total Sales] of the account the transformer makes of a
    contact. *)
Definition estimated_sales (host : Host) (companiesMap : gmap string CrmObject)
    (ownersMap : gmap string Owner) (draws : nat) (contact : Contact) : number :=
  parseCurrency (Total_Sales (transform_contact host companiesMap ownersMap draws contact).1).

(** *** Brand labels and casing *)

(** The known tokens that are brand names rather than company suffixes. *)
Definition BRAND_NAMES : list string :=
  ["Hospeco"; "Indoff"; "Triad"; "Impact"; "Legacy"; "Acme"; "Supply"].

(** The first brand name, in the order of the list, that occurs in a
    lower-cased account name. *)
Definition first_brand (lowerCaseName : string) : option string :=
  List.find (fun b => Js.includes lowerCaseName (Js.toLowerCase b)) BRAND_NAMES.

(** C7 as the specification words it. *)
Definition case_insensitive (f : string -> string) : Prop :=
  forall n1 n2, Js.toLowerCase n1 = Js.toLowerCase n2 -> f n1 = f n2.

(** *** Traces of the adapters *)

(** The trace of [s'] continues the trace of [s]. *)
Definition extends (s s' : Eff.St) : Prop :=
  exists l, Eff.trace s' = Eff.trace s ++ l.

(** A computation that only adds to the trace. *)
Definition monotone {A} (m : Eff.M A) : Prop := forall s, extends s (m s).1.

(** The first request recorded in [s] is a contact listing from the start. *)
Definition starts_remote (s : Eff.St) : Prop :=
  exists ev rest, Eff.trace s = ev :: rest /\ (ev = EvSearch None \/ ev = EvGetPage None).

Definition missing_key_message : string :=
  "HubSpot API key (HUBSPOT_API_KEY) is not configured in environment variables.".

(** C6 as the specification words its second part: whenever the listing
    completes with no qualified contact, the call returns a snapshot. *)
Definition snapshot_when_no_lead_qualifies : Prop :=
  forall (host : Host) (env : Env) (startDate endDate : option JsDate) (s1 : Eff.St),
    key_configured env = true ->
    fetch_contacts env startDate Eff.initial = (s1, Ok tt) ->
    List.filter is_qualified (Eff.allContacts s1) = [] ->
    exists p, (fetchAndProcessHubSpotData host env startDate endDate Eff.initial).2
              = Ok (Some p).

(** *** Estimates by tier *)

Definition tier_estimate (t : StageTier) : Z :=
  match t with
  | TCustomer => 25000 | TSalesQualified => 10000 | TMarketingQualified => 5000
  | TLead => 2000 | TSubscriber => 500 | TUnknown => 1000
  end.

(** Descending order of sales values. *)
Definition desc (a b : AccountData) : Prop := (sale_of b <= sale_of a)%Q.

(** *** A logic for the array store *)

Definition wp {A} (m : Store.M A) (h : gmap nat (list AccountData))
    (Q : A -> gmap nat (list AccountData) -> Prop) : Prop :=
  Q (m h).1 (m h).2.

(** *** Sample inputs *)

Definition oversized : AccountData := Sample.csv_account "ACME Corp" "Ann" "2000000000000".
Definition oversized_attributed : AccountData :=
  Sample.account "ACME Corp" "Ann" "2000000000000".
Definition at_bound : AccountData := Sample.csv_account "ACME Corp" "Ann" "1000000000000".
Definition debtor (total : string) : AccountData := Sample.account "Foo Inc" "Bob" total.
(** A lead whose source text names both a referral and organic search. *)
Definition referred : AccountData :=
  {| Account_ID := Num.of_Z 7;
     Account_Name := "Triad Supply";
     Address := "N/A";
     Total_Sales := "5000";
     Date_Created := "N/A";
     Date_Last_Quoted := "N/A";
     Primary_Rep_Name := "Ann";
     Lifecycle_Stage := Some "lead";
     Analytics_Source := Some "Referral from Organic Search";
     Latest_Source := None;
     Source_Data_1 := None;
     Source_Data_2 := None;
     First_Touch_Campaign := None;
     Last_Touch_Campaign := None;
     First_URL := None;
     Last_URL := None;
     Number_of_Visits := Some "1";
     Number_of_Page_Views := None |}.

Definition sample_contact : Contact :=
  mkContact "101" (<["firstname" := "Ada"]> (<["lifecyclestage" := "lead"]> ∅)) [].

Definition seven_debtors : list AccountData :=
  [debtor "-3"; debtor "-7"; debtor "-1"; debtor "-5"; debtor "-2"; debtor "-6"; debtor "-4"].

(** A portal whose only contact is a plain lead, and a file of seven records. *)
Definition quiet_portal (key : option string) : Env :=
  {| HUBSPOT_API_KEY := key;
     searchApi_doSearch := fun _ _ => Err "search unavailable";
     contacts_getPage := fun _ => Ok (mkContactPage [sample_contact] None);
     companies_getById := fun _ => Err "not found";
     owners_getById := fun _ => Err "not found";
     csvRecords := fun _ _ => Ok seven_debtors |}.

(** The same portal on a machine without the file. *)
Definition fileless_portal (key : option string) : Env :=
  {| HUBSPOT_API_KEY := key;
     searchApi_doSearch := fun _ _ => Err "search unavailable";
     contacts_getPage := fun _ => Ok (mkContactPage [sample_contact] None);
     companies_getById := fun _ => Err "not found";
     owners_getById := fun _ => Err "not found";
     csvRecords := fun _ _ => Err "ENOENT: no such file or directory" |}.

(** ** Lines of the flat file: [parseCSVLine] *)

(** The double quote character. *)
Definition dquote : ascii := "034"%char.

(** The [for] loop of [parseCSVLine] from character [i] on. *)
Fixpoint csv_scan (line : string) (result : list string) (current : string)
    (inQuotes : bool) : list string :=
  match line with
  | EmptyString => result ++ [current]
  | String char rest =>
      if Ascii.eqb char dquote then csv_scan rest result current (negb inQuotes)
      else if Ascii.eqb char "," && negb inQuotes
           then csv_scan rest (result ++ [current]) EmptyString inQuotes
      else csv_scan rest result (current +:+ String char EmptyString) inQuotes
  end.

Definition parseCSVLine (line : string) : list string :=
  csv_scan line [] EmptyString false.

(** ** The risk level of a lead: [getLeadRiskLevel] *)

(** [1000 * 60 * 60 * 24], the milliseconds of a day. *)
Definition MS_PER_DAY : Z := 1000 * 60 * 60 * 24.

(** [getLeadRiskLevel(account)], [now] being the value of [Date.now()].
    Neither [new Date(created)] nor [getTime()] throws, so the [catch] is
    never entered; the time value of an Invalid Date is NaN. *)
Definition getLeadRiskLevel (host : Host) (now : Z) (account : AccountData) : string :=
  let created := Date_Created account in
  if negb (Js.truthy created) || String.eqb created "N/A" then "Unknown"
  else
    let createDate := newDate host created in
    let time := match createDate with Some d => Num.of_Z (getTime d) | None => NaN end in
    let daysSinceCreated := Num.div (Num.sub (Num.of_Z now) time) (Num.of_Z MS_PER_DAY) in
    if Num.gt daysSinceCreated (Num.of_Z 60) then "🚨 High Risk"
    else if Num.gt daysSinceCreated (Num.of_Z 30) then "⚠️ Medium Risk"
    else "✅ Low Risk".

(** ** The flat file: the rows of [processCSVData] *)

(** [s.split(sep)] for a separator of one character. *)
Fixpoint split_char (sep : ascii) (s : string) : list string :=
  match s with
  | EmptyString => [EmptyString]
  | String c s' =>
      if Ascii.eqb c sep then EmptyString :: split_char sep s'
      else match split_char sep s' with
           | w :: ws => String c w :: ws
           | [] => [String c EmptyString]
           end
  end.

(** [s.replace(/'/g, '')] with the double quote for ['] in the pattern: every
    double quote is removed. *)
Fixpoint remove_quotes (s : string) : string :=
  match s with
  | EmptyString => EmptyString
  | String c s' => if Ascii.eqb c dquote then remove_quotes s' else String c (remove_quotes s')
  end.

(** The longest run of digits of base [base]: its value and its length. *)
Fixpoint scan_radix (base : Z) (s : string) (acc : Z) (n : nat) : Z * nat :=
  match s with
  | String c s' =>
      match Num.radix_digit base c with
      | Some d => scan_radix base s' (base * acc + d) (S n)
      | None => (acc, n)
      end
  | EmptyString => (acc, n)
  end.

(** [parseInt(s)] without a radix: base 16 after a [0x] prefix, base 10
    otherwise. *)
Definition parseIntAuto (s : string) : number :=
  let '(sg, r) := Num.scan_sign (Js.trimStart s) in
  match r with
  | String "0" (String ("x" | "X") h) =>
      let '(v, n) := scan_radix 16 h 0 0 in
      if Nat.eqb n 0 then NaN else Num.of_literal sg (inject_Z v)
  | _ =>
      let '(v, n, _) := Num.scan_digits r 0 0 in
      if Nat.eqb n 0 then NaN else Num.of_literal sg (inject_Z v)
  end.

(** What [processCSVData] asks of the host's [Date]. *)
Record CsvHost : Type := mkCsvHost {
  (** [new Date(year, monthIndex, day)]; [None] is an Invalid Date. *)
  dateOfParts : number -> number -> number -> option JsDate;
  (** [date.toLocaleDateString()], also of an Invalid Date. *)
  localeDateString : option JsDate -> string
}.

(** [csvContent.split('\n').filter(line => line.trim())] *)
Definition csv_lines (csvContent : string) : list string :=
  List.filter (fun line => Js.truthy (Js.trim line)) (split_char "010" csvContent).

(** [lines[0].split(',')], each header without its double quotes and trimmed. *)
Definition csv_headers (line : string) : list string :=
  map (fun h => Js.trim (remove_quotes h)) (split_char "," line).

(** The own properties of the object [account] after [headers.forEach], for
    a row with at least as many values as headers (the loop skips the
    others): a later header of the same name overwrites an earlier one, and
    the assignment of a text to [account["__proto__"]] stores nothing. *)
Definition csv_object (headers values : list string) : gmap string string :=
  fold_left (fun account hv =>
               if String.eqb hv.1 "__proto__" then account
               else <[hv.1 := Js.or_else (Js.trim (remove_quotes hv.2)) EmptyString]> account)
    (zip headers values) ∅.

(** [accountDate]: [None] is [null], [Some None] an Invalid Date. *)
Definition csv_date (ch : CsvHost) (account : gmap string string)
  : option (option JsDate) :=
  match account !! "Date Created" with
  | Some dateCreated =>
      if Js.truthy dateCreated then
        match split_char "/" dateCreated with
        | month :: day :: year :: _ =>
            if Js.truthy month && Js.truthy day && Js.truthy year then
              Some (dateOfParts ch (parseIntAuto year)
                      (Num.sub (parseIntAuto month) (Num.of_Z 1)) (parseIntAuto day))
            else None
        | _ => None
        end
      else None
  | None => None
  end.

(** The date filter of the loop; a comparison with an Invalid Date is false. *)
Definition csv_in_range (startDate endDate : option JsDate)
    (accountDate : option (option JsDate)) : bool :=
  match startDate, endDate with
  | None, None => true
  | _, _ =>
      match accountDate with
      | None => false
      | Some None => true
      | Some (Some d) => in_range (getTime <$> startDate) (getTime <$> endDate) (getTime d)
      end
  end.

(** One iteration of the loop over the lines: the record pushed, if any. *)
Definition csv_row (ch : CsvHost) (headers : list string)
    (startDate endDate : option JsDate) (line : string) : option AccountData :=
  let values := parseCSVLine line in
  if Nat.ltb (length values) (length headers) then None
  else
    let account := csv_object headers values in
    let accountDate := csv_date ch account in
    if negb (csv_in_range startDate endDate accountDate) then None
    else
      let id := match account !! "Account ID" with
                | Some s => parseIntAuto s
                | None => NaN
                end in
      Some {| Account_ID := if Num.truthy id then id else Num.zero;
              Account_Name := Js.opt_or (account !! "Account Name") "Unknown Account";
              Address := Js.opt_or (account !! "Address") "N/A";
              Total_Sales := Js.opt_or (account !! "Total Sales") "$0";
              Date_Created := match accountDate with
                              | Some d => localeDateString ch d
                              | None => "N/A"
                              end;
              Date_Last_Quoted := Js.opt_or (account !! "Date Last Quoted") "N/A";
              Primary_Rep_Name := Js.opt_or (account !! "Primary Rep Name") "N/A";
              Lifecycle_Stage :=
                Some (determineLifecycleStage
                        (match account !! "Total Sales" with
                         | Some s => parseCurrency s
                         | None => Num.zero
                         end));
              Analytics_Source := None;
              Latest_Source := None;
              Source_Data_1 := None;
              Source_Data_2 := None;
              First_Touch_Campaign := None;
              Last_Touch_Campaign := None;
              First_URL := None;
              Last_URL := None;
              Number_of_Visits := None;
              Number_of_Page_Views := None |}.

(** The account list of [processCSVData] for a file of content [csvContent];
    [lines[0].split] throws when no line is left. *)
Definition csv_accounts (ch : CsvHost) (csvContent : string)
    (startDate endDate : option JsDate) : result (list AccountData) :=
  match csv_lines csvContent with
  | [] => Err "Cannot read properties of undefined (reading 'split')"
  | header :: rows => Ok (omap (csv_row ch (csv_headers header) startDate endDate) rows)
  end.

(** ** Response time metrics (the last block of [processAccountDataInternal]) *)

(** A property key that is an array index: a canonical decimal numeral below
    [2^32 - 1].  [Object.entries] lists such keys first, in ascending order. *)
Definition array_index (k : string) : option Z :=
  match k with
  | EmptyString => None
  | String c r =>
      match Num.scan_digits k 0 0 with
      | (v, _, EmptyString) =>
          if Ascii.eqb c "0" && Js.truthy r then None
          else if v <? 2 ^ 32 - 1 then Some v else None
      | _ => None
      end
  end.

(** [Object.entries(o)] of an object whose properties were created in the
    order of [l]: the array indices in ascending order, then the other keys
    in the order of their creation. *)
Definition own_entries {V} (l : list (string * V)) : list (string * V) :=
  js_sort (fun a b => Num.of_Z (default 0 (array_index (fst a)) - default 0 (array_index (fst b))))
          (List.filter (fun e => bool_decide (is_Some (array_index (fst e)))) l)
  ++ List.filter (fun e => negb (bool_decide (is_Some (array_index (fst e))))) l.

(** [account["Primary Rep Name"] || "Unknown"] *)
Definition responder (account : AccountData) : string :=
  Js.or_else (Primary_Rep_Name account) "Unknown".

(** [repsWithLeads[rep] = (repsWithLeads[rep] || 0) + 1] where the entry is
    absent or a count: the own properties in the order of their creation. *)
Fixpoint rep_incr (rep : string) (l : list (string * nat)) : list (string * nat) :=
  match l with
  | [] => [(rep, 1%nat)]
  | (k, n) :: l' =>
      if String.eqb k rep then (k, (n + 1)%nat) :: l' else (k, n) :: rep_incr rep l'
  end.

(** The same assignment for a [rep] that is not the name of an inherited
    function.  Under [__proto__] the value read is [Object.prototype], the
    value assigned is a text, and assigning a text there stores nothing. *)
Definition rep_add (rep : string) (l : list (string * nat)) : list (string * nat) :=
  if String.eqb rep "__proto__" then l else rep_incr rep l.

(** A record under whose rep every object inherits a function: the value
    read is that function, and the value stored is a text (the source text
    of the function followed by one 1 per record), not a count. *)
Definition stores_text (account : AccountData) : bool :=
  in_list (responder account) PROTO_FUNCTIONS.

(** [repsWithLeads] after the loop; [None] when an entry is a text. *)
Definition repsWithLeads_of (data : list AccountData) : option (list (string * nat)) :=
  if existsb stores_text data then None
  else Some (fold_left (fun l account => rep_add (responder account) l) data []).

(** [Object.entries(repsWithLeads).sort(([,a], [,b]) => b - a)] on counts. *)
Definition sort_reps (repsWithLeads : list (string * nat)) : list (string * nat) :=
  js_sort (fun a b => Num.of_Z (Z.of_nat (snd b) - Z.of_nat (snd a)))
          (own_entries repsWithLeads).

(** [sortedReps].  With an entry that is a text the comparator yields NaN
    against every other entry; it is then in general not a consistent
    ordering, and the order of the sorted array is left to the engine:
    there the model gives no result. *)
Definition sortedReps_of (data : list AccountData) : option (list (string * nat)) :=
  sort_reps <$> repsWithLeads_of data.

Record ResponseTimeMetrics : Type := mkResponse {
  avgResponseTime : Z;
  fastResponders : list string;
  slowResponders : list string
}.

Definition responseTimeMetrics_of (data : list AccountData) : option ResponseTimeMetrics :=
  (fun sortedReps =>
     {| avgResponseTime := 24;
        fastResponders := map fst (slice_first 3 sortedReps);
        slowResponders := map fst (slice_last 2 sortedReps) |})
  <$> sortedReps_of data.

(** ** The earlier module: [src/lib/hubspot-actions.ts]

    The deal-based variant of the pipeline.  Its brand extraction is the
    text of [extractBrandFromAccountNameHS] above; its aggregation takes the
    currency parser and the brand extractor as arguments. *)

Module Legacy.

Definition safeParseCurrency (value : string) : number :=
  if negb (Js.truthy value) then Num.zero
  else
    let cleaned := Js.strip_currency value in
    let num := Num.parseFloat cleaned in
    if negb (Num.isNaN num) && Num.isFinite num then num else Num.zero.

Definition safeAverage (arr : list number) : number :=
  if Nat.eqb (length arr) 0 then Num.zero
  else
    let validValues := List.filter (fun val => negb (Num.isNaN val) && Num.isFinite val) arr in
    if Nat.eqb (length validValues) 0 then Num.zero
    else
      let sum := fold_left (fun a b => Num.add a b) validValues Num.zero in
      Num.div sum (Num.of_nat (length validValues)).

(** A deal: its id, its property dictionary and the ids of
    [associations.companies.results]. *)
Record Deal : Type := mkDeal {
  d_id : string;
  d_properties : gmap string string;
  d_companies : list string
}.

(** The snapshot of this module; [recentlyQuoted] reads the wall clock and
    is left out. *)
Record Processed : Type := mkProcessed {
  totalAccounts : nat;
  totalRevenue : number;
  averageDealSize : number;
  salesByRep : gmap string SalesBucket;
  salesDistribution : gmap string nat;
  monthlyTrends : list MonthlyTrend;
  topStates : gmap string SalesBucket;
  salesByBrand : gmap string SalesBucket;
  topPerformingAccounts : list AccountData;
  leastPerformingAccounts : list AccountData;
  allAccounts : list AccountData
}.

(** The variables of the first [data.forEach]. *)
Record LoopState : Type := mkLoop {
  totalSalesValue : number;
  validSales : list number;
  l_salesByRep : gmap string SalesBucket;
  l_salesByBrand : gmap string SalesBucket;
  l_salesDistribution : gmap string nat;
  l_topStates : gmap string SalesBucket
}.

Definition loop_init : LoopState :=
  {| totalSalesValue := Num.zero;
     validSales := [];
     l_salesByRep := ∅;
     l_salesByBrand := ∅;
     l_salesDistribution := salesDistribution_init;
     l_topStates := ∅ |}.

Section Pipeline.

Context (host : Host).

(** *** [transformHubSpotDataToAccountData] *)

Definition is_closed_won (deal : Deal) : bool :=
  match d_properties deal !! "dealstage" with
  | Some stage => String.eqb stage "closedwon"
  | None => false
  end.

Definition company_of (companiesMap : gmap string CrmObject) (deal : Deal)
  : option CrmObject :=
  match d_companies deal with
  | companyId :: _ => if Js.truthy companyId then companiesMap !! companyId else None
  | [] => None
  end.

Definition owner_of (ownersMap : gmap string Owner) (deal : Deal) : option Owner :=
  match d_properties deal !! "hubspot_owner_id" with
  | Some ownerId => if Js.truthy ownerId then ownersMap !! ownerId else None
  | None => None
  end.

(** The callback of [.map]; [draws] counts the calls of [Math.random] so far. *)
Definition transform_deal (companiesMap : gmap string CrmObject)
    (ownersMap : gmap string Owner) (draws : nat) (deal : Deal) : AccountData * nat :=
  let props := d_properties deal in
  let company := company_of companiesMap deal in
  let owner := owner_of ownersMap deal in
  let accountName :=
    Js.or_else (match company with
                | Some c => prop_or (o_properties c) "name" EmptyString
                | None => EmptyString
                end)
      (Js.or_else (prop_or props "dealname" EmptyString) "Unknown Account") in
  let totalSales := prop_or props "amount" "0" in
  let companyCreated :=
    match company with
    | Some c => prop_or (o_properties c) "createdate" EmptyString
    | None => EmptyString
    end in
  let dateCreated :=
    if Js.truthy companyCreated then toLocaleDateString host companyCreated
    else if Js.truthy (prop_or props "createdate" EmptyString)
    then toLocaleDateString host (prop_or props "createdate" EmptyString)
    else "N/A" in
  let dateLastQuoted :=
    if Js.truthy (prop_or props "closedate" EmptyString)
    then toLocaleDateString host (prop_or props "closedate" EmptyString)
    else "N/A" in
  let primaryRepName :=
    match owner with
    | Some o =>
        Js.or_else
          (Js.trim (Js.opt_or (firstName o) EmptyString +:+ " "
                    +:+ Js.opt_or (lastName o) EmptyString))
          "N/A"
    | None => "N/A"
    end in
  let address :=
    match company with
    | Some c =>
        let p := o_properties c in
        Js.or_else (Js.trim (join_truthy [p !! "address"; p !! "city"; p !! "state"; p !! "zip"]))
                   "N/A"
    | None => "N/A"
    end in
  let parsedId :=
    Num.parseInt (Js.or_else (match company with Some c => o_id c | None => EmptyString end)
                             (d_id deal)) in
  let '(accountId, draws') :=
    if Num.truthy parsedId then (parsedId, draws) else (randomId host draws, S draws) in
  ({| Account_ID := accountId;
      Account_Name := accountName;
      Address := address;
      Total_Sales := totalSales;
      Date_Created := dateCreated;
      Date_Last_Quoted := dateLastQuoted;
      Primary_Rep_Name := primaryRepName;
      Lifecycle_Stage := None;
      Analytics_Source := None;
      Latest_Source := None;
      Source_Data_1 := None;
      Source_Data_2 := None;
      First_Touch_Campaign := None;
      Last_Touch_Campaign := None;
      First_URL := None;
      Last_URL := None;
      Number_of_Visits := None;
      Number_of_Page_Views := None |},
   draws').

Fixpoint transform_all (companiesMap : gmap string CrmObject)
    (ownersMap : gmap string Owner) (draws : nat) (deals : list Deal)
  : list AccountData :=
  match deals with
  | [] => []
  | deal :: rest =>
      let '(account, draws') := transform_deal companiesMap ownersMap draws deal in
      account :: transform_all companiesMap ownersMap draws' rest
  end.

Definition transformHubSpotDataToAccountData (deals : list Deal)
    (companiesMap : gmap string CrmObject) (ownersMap : gmap string Owner)
  : list AccountData :=
  transform_all companiesMap ownersMap 0 (List.filter is_closed_won deals).

(** *** [processAccountDataInternal(data, parseCurrency, extractBrand)] *)

Context (parseCurrency : string -> number) (extractBrand : string -> string).

(** One call of the callback of the first [data.forEach]. *)
Definition loop_step (st : LoopState) (row : AccountData) : LoopState :=
  let s := parseCurrency (Total_Sales row) in
  if rejected s then st
  else
    let rep := Js.or_else (Primary_Rep_Name row) "N/A" in
    let brand := extractBrand (Account_Name row) in
    let address := Js.or_else (Address row) EmptyString in
    {| totalSalesValue := Num.add (totalSalesValue st) s;
       validSales := if averaged s then validSales st ++ [s] else validSales st;
       l_salesByRep := upsert rep (mkSales Num.zero 0) (add_sale s) (l_salesByRep st);
       l_salesByBrand := upsert brand (mkSales Num.zero 0) (add_sale s) (l_salesByBrand st);
       l_salesDistribution := bump (band_of s) (l_salesDistribution st);
       l_topStates :=
         match stateMatch address with
         | Some state => upsert state (mkSales Num.zero 0) (add_sale s) (l_topStates st)
         | None => l_topStates st
         end |}.

Definition month_step (monthCounts : list (string * TrendBucket)) (row : AccountData)
  : list (string * TrendBucket) :=
  let dateStr := Date_Created row in
  if Js.truthy dateStr && negb (String.eqb dateStr "N/A") then
    match newDate host dateStr with
    | None => monthCounts
    | Some date => month_add (month_key date) (parseCurrency (Total_Sales row)) monthCounts
    end
  else monthCounts.

Definition monthlyTrends_of (data : list AccountData) : list MonthlyTrend :=
  map (fun e => mkMonthly (monthLabel host (fst e)) (t_accounts (snd e)) (t_revenue (snd e)))
      (slice_last 12
         (js_sort (fun a b => localeCompare host (fst a) (fst b))
                  (fold_left month_step data []))).

Definition sortedAccounts_of (data : list AccountData) : list AccountData :=
  js_sort (fun a b => Num.sub (parseCurrency (Total_Sales b)) (parseCurrency (Total_Sales a)))
          data.

Definition leastPerforming_of (data : list AccountData) : list AccountData :=
  let sortedAccounts := sortedAccounts_of data in
  let least :=
    rev (slice_last 5
           (List.filter (fun acc => Num.lt (parseCurrency (Total_Sales acc)) Num.zero)
                        sortedAccounts)) in
  if Nat.ltb (length least) 5 && Nat.ltb 0 (length sortedAccounts) then
    let lowestPositive :=
      rev (slice_last (5 - length least)
             (List.filter (fun acc => Num.ge (parseCurrency (Total_Sales acc)) Num.zero)
                          sortedAccounts)) in
    least ++ lowestPositive
  else least.

Definition processAccountDataInternal (data : list AccountData) : Processed :=
  let st := fold_left loop_step data loop_init in
  {| totalAccounts := length data;
     totalRevenue := totalSalesValue st;
     averageDealSize := safeAverage (validSales st);
     salesByRep := l_salesByRep st;
     salesDistribution := l_salesDistribution st;
     monthlyTrends := monthlyTrends_of data;
     topStates := l_topStates st;
     salesByBrand := l_salesByBrand st;
     topPerformingAccounts := slice_first 5 (sortedAccounts_of data);
     leastPerformingAccounts := leastPerforming_of data;
     allAccounts := data |}.

End Pipeline.

(** *** [fetchAndProcessHubSpotData] *)

(** What the function asks of the portal, in order. *)
Inductive Request : Type :=
  | GetDeals
  | GetCompany (id : string)
  | GetOwner (id : string).

Definition is_listing (r : Request) : bool :=
  match r with GetDeals => true | _ => false end.

Record Portal : Type := mkPortal {
  HUBSPOT_API_KEY : option string;
  deals_getPage : result (list Deal);
  companies_getById : string -> result CrmObject;
  owners_getById : string -> result Owner
}.

(** The [for (const id of ...)] loops: a lookup that fails is skipped. *)
Definition lookups {V} (api : string -> result V) (ids : list string) : gmap string V :=
  fold_left (fun m id => match api id with Ok v => <[id := v]> m | Err _ => m end) ids ∅.

Definition owner_ids (deals : list Deal) : list string :=
  List.filter Js.truthy (omap (fun d => d_properties d !! "hubspot_owner_id") deals).

(** The requests made, and the value the promise resolves to ([None] is
    [null]); the promise never rejects. *)
Definition fetchAndProcessHubSpotData (host : Host) (portal : Portal)
  : list Request * option Processed :=
  match HUBSPOT_API_KEY portal with
  | None => ([], None)
  | Some apiKey =>
      if negb (Js.truthy apiKey) then ([], None)
      else
        match deals_getPage portal with
        | Err _ => ([GetDeals], None)
        | Ok deals =>
            let companyIds := dedupe [] (concat (map d_companies deals)) in
            let ownerIds := dedupe [] (owner_ids deals) in
            let companiesMap := lookups (companies_getById portal) companyIds in
            let ownersMap := lookups (owners_getById portal) ownerIds in
            let accountDataList :=
              transformHubSpotDataToAccountData host deals companiesMap ownersMap in
            (GetDeals :: map GetCompany companyIds ++ map GetOwner ownerIds,
             Some (processAccountDataInternal host safeParseCurrency
                     extractBrandFromAccountNameHS accountDataList))
        end
  end.

End Legacy.

(** ** Notions used to state the further properties *)

(** A finite number between two rationals. *)
Definition within (lo hi : Q) (s : number) : Prop :=
  exists q, s = Fin q /\ (lo <= q <= hi)%Q.

(** Accounts whose sales value is [v]. *)
Definition has_sale (v : Q) (a : AccountData) : bool := Qeq_bool (sale_of a) v.

(** The sum of a list of numbers, added from the left as [+=] does. *)
Definition sum_numbers (l : list number) : number :=
  fold_left (fun acc v => Num.add acc v) l Num.zero.

(** The state a record is filed under by the first pass. *)
Definition state_of (row : AccountData) : option string :=
  stateMatch (Js.or_else (Address row) EmptyString).

(** The count stored under a key of a lead rollup; an absent key counts as 0. *)
Definition lead_count (m : gmap string LeadBucket) (k : string) : nat :=
  from_option leads 0%nat (m !! k).

(** The sum of the [leads] fields over the buckets of a rollup. *)
Definition total_leads (m : gmap string LeadBucket) : nat :=
  map_fold (fun _ b n => (leads b + n)%nat) 0%nat m.

(** The last character of a text. *)
Fixpoint last_char (s : string) : option ascii :=
  match s with
  | EmptyString => None
  | String c EmptyString => Some c
  | String _ s' => last_char s'
  end.

(** Every character of [s] satisfies [p]. *)
Fixpoint all_chars (p : ascii -> bool) (s : string) : bool :=
  match s with
  | EmptyString => true
  | String c s' => p c && all_chars p s'
  end.

(** An account whose address has no ZIP code. *)
Definition unzipped : AccountData :=
  let a := Sample.account "Foo Inc" "Bob" "100" in
  mkAccount (Account_ID a) (Account_Name a) "Columbus, OH" (Total_Sales a)
    (Date_Created a) (Date_Last_Quoted a) (Primary_Rep_Name a) (Lifecycle_Stage a)
    (Analytics_Source a) (Latest_Source a) (Source_Data_1 a) (Source_Data_2 a)
    (First_Touch_Campaign a) (Last_Touch_Campaign a) (First_URL a) (Last_URL a)
    (Number_of_Visits a) (Number_of_Page_Views a).

(** The characters a ZIP tail is made of. *)
Definition zip_char (c : ascii) : bool :=
  Js.is_digit c || Js.is_space c || Ascii.eqb c "," || Ascii.eqb c "-".

(** A record whose creation date the host can read. *)
Definition dated (host : Host) (row : AccountData) : bool :=
  Js.truthy (Date_Created row) && negb (String.eqb (Date_Created row) "N/A")
  && bool_decide (is_Some (newDate host (Date_Created row))).

(** [fields.join(",")] *)
Fixpoint csv_join (fields : list string) : string :=
  match fields with
  | [] => EmptyString
  | [f] => f
  | f :: rest => f +:+ "," +:+ csv_join rest
  end.

(** A field wrapped in double quotes. *)
Definition quoted (f : string) : string :=
  String dquote (f +:+ String dquote EmptyString).

(** Any character but the double quote. *)
Definition no_quote (c : ascii) : bool := negb (Ascii.eqb c dquote).

(** The six sales estimates the transformer writes. *)
Definition ESTIMATES : list string := ["25000"; "10000"; "5000"; "2000"; "500"; "1000"].

(** A record as the transformer leaves it: an estimate for its sales, a
    stage, and no empty name, address or rep. *)
Definition estimated (a : AccountData) : Prop :=
  In (Total_Sales a) ESTIMATES
  /\ averaged (parseCurrency (Total_Sales a)) = true
  /\ within 500 25000 (parseCurrency (Total_Sales a))
  /\ Js.truthy (Account_Name a) = true
  /\ Js.truthy (Address a) = true
  /\ Js.truthy (Primary_Rep_Name a) = true
  /\ is_Some (Lifecycle_Stage a).

(** The sum of the counts of the six revenue bands. *)
Definition band_total (m : gmap string nat) : nat :=
  sum_list_with (fun band => default 0%nat (m !! band)) BANDS.

(** What [lifecycleStageDistribution] holds under the stage [k] when [n]
    records that the first pass does not reject have that stage: their
    number, except that nothing is stored under [__proto__], and that under
    the name of an inherited function the first record stores NaN and the
    count restarts from it. *)
Definition stage_entry (k : string) (n : nat) : option number :=
  if String.eqb k "__proto__" then None
  else
    match n with
    | O => None
    | S n' =>
        if proto_member k
        then Some (match n' with O => NaN | S _ => Num.of_nat n' end)
        else Some (Num.of_nat n)
    end.

(** A page asked of the search API; a page asked of the contact listing. *)
Definition is_search (e : Event) : bool :=
  match e with EvSearch _ => true | _ => false end.
Definition is_page (e : Event) : bool :=
  match e with EvGetPage _ => true | _ => false end.

(** The order of the requests of one invocation: search pages, then listing
    pages, then either nothing, or one read of the file, or the company
    lookups followed by the owner lookups, no id being asked for twice. *)
Definition protocol (t : list Event) : Prop :=
  exists searches pages rest,
    t = searches ++ pages ++ rest
    /\ Forall (fun e => is_search e = true) searches
    /\ Forall (fun e => is_page e = true) pages
    /\ (length searches <= 500)%nat /\ (length pages <= 500)%nat
    /\ (length searches + length pages <= 700)%nat
    /\ (rest = [] \/ rest = [EvReadCsv]
        \/ exists companyIds ownerIds,
             rest = map EvGetCompany companyIds ++ map EvGetOwner ownerIds
             /\ NoDup companyIds /\ NoDup ownerIds).

(** The leads [transformHubSpotDataToAccountData] is called with. *)
Definition filteredLeads (host : Host) (startDate endDate : option JsDate)
    (allContacts : list Contact) : list Contact :=
  let qualifiedLeads := List.filter is_qualified allContacts in
  match startDate, endDate with
  | None, None => qualifiedLeads
  | _, _ => List.filter (lead_in_range host startDate endDate) qualifiedLeads
  end.

(** A contact in the sales-qualified stage, created 3/14/2024. *)
Definition qualified_contact : Contact :=
  mkContact "102"
    (<["lifecyclestage" := "SalesQualifiedLead"]> (<["createdate" := "3/14/2024"]> ∅)) [].

(** A portal that lists that contact and a plain lead on one page. *)
Definition busy_portal (key : option string) : Env :=
  {| HUBSPOT_API_KEY := key;
     searchApi_doSearch := fun _ _ => Err "search unavailable";
     contacts_getPage := fun _ => Ok (mkContactPage [qualified_contact; sample_contact] None);
     companies_getById := fun _ => Err "not found";
     owners_getById := fun _ => Err "not found";
     csvRecords := fun _ _ => Ok seven_debtors |}.

(** The risk level of a lead created [age] milliseconds ago. *)
Definition risk_of_age (age : Z) : string :=
  if 60 * MS_PER_DAY <? age then "🚨 High Risk"
  else if 30 * MS_PER_DAY <? age then "⚠️ Medium Risk"
  else "✅ Low Risk".

(** A record as the flat-file adapter builds it. *)
Definition csv_record (a : AccountData) : Prop :=
  Lifecycle_Stage a = Some (determineLifecycleStage (parseCurrency (Total_Sales a)))
  /\ Num.isNaN (Account_ID a) = false
  /\ Js.truthy (Account_Name a) = true
  /\ Js.truthy (Address a) = true
  /\ Js.truthy (Total_Sales a) = true
  /\ Js.truthy (Date_Last_Quoted a) = true
  /\ Js.truthy (Primary_Rep_Name a) = true
  /\ Analytics_Source a = None /\ Latest_Source a = None
  /\ First_Touch_Campaign a = None /\ Last_Touch_Campaign a = None
  /\ First_URL a = None /\ Number_of_Visits a = None.

(** The number of records of a rep. *)
Definition leads_of (data : list AccountData) (rep : string) : nat :=
  count_of (fun a => String.eqb (responder a) rep) data.

(** The reps of a collection that get an entry, each once: every rep but
    [__proto__]. *)
Definition reps_of (data : list AccountData) : list string :=
  remove_dups (List.filter (fun r => negb (String.eqb r "__proto__")) (map responder data)).

(** The count an entry list holds for a key. *)
Definition tally (l : list (string * nat)) (k : string) : nat :=
  sum_list_with (fun e => if String.eqb (fst e) k then snd e else 0%nat) l.

(** The fields of the current snapshot that the earlier module also has. *)
Definition legacy_view (p : ProcessedData) : Legacy.Processed :=
  Legacy.mkProcessed (totalAccounts p) (totalRevenue p) (averageDealSize p) (salesByRep p)
    (salesDistribution p) (monthlyTrends p) (topStates p) (salesByBrand p)
    (topPerformingAccounts p) (leastPerformingAccounts p) (allAccounts p).

(** * Properties *)

(** ** Numbers *)

Lemma parseCurrency_finite (s : string) : exists q, parseCurrency s = Fin q.
Proof.
  unfold parseCurrency. destruct (Js.truthy s); simpl; [|by eexists].
  destruct (Num.parseFloat (Js.strip_currency s)); simpl; by eexists.
Qed.

Lemma parseCurrency_sale_of (row : AccountData) :
  parseCurrency (Total_Sales row) = Fin (sale_of row).
Proof.
  unfold sale_of. by destruct (parseCurrency_finite (Total_Sales row)) as [q ->].
Qed.

(** ** The array store *)

Section StoreLogic.

Implicit Types (h : gmap nat (list AccountData)).

Lemma wp_ret {A} (a : A) h Q : Q a h -> wp (Store.ret a) h Q.
Proof. done. Qed.

Lemma wp_bind {A B} (m : Store.M A) (k : A -> Store.M B) h Q :
  wp m h (fun a h' => wp (k a) h' Q) -> wp (Store.bind m k) h Q.
Proof. unfold wp, Store.bind. by destruct (m h). Qed.

Lemma wp_alloc l h Q :
  (forall r, h !! r = None -> Q r (<[r := l]> h)) -> wp (Store.alloc l) h Q.
Proof.
  intros H. unfold wp, Store.alloc. simpl. apply H.
  apply not_elem_of_dom, is_fresh.
Qed.

(** A new array computed from the contents of an old one. *)
Lemma wp_derive (f : list AccountData -> list AccountData) r l h Q :
  h !! r = Some l ->
  (forall r', h !! r' = None -> Q r' (<[r' := f l]> h)) ->
  wp (Store.bind (Store.read r) (fun x => Store.alloc (f x))) h Q.
Proof.
  intros Hr H. apply wp_bind. unfold wp at 1, Store.read. simpl.
  rewrite Hr. simpl. by apply wp_alloc.
Qed.

Lemma wp_length r l h Q :
  h !! r = Some l -> Q (length l) h -> wp (Store.length_of r) h Q.
Proof.
  intros Hr H. unfold wp, Store.length_of, Store.bind, Store.read, Store.ret.
  simpl. by rewrite Hr.
Qed.

Lemma wp_concat r1 r2 l1 l2 h Q :
  h !! r1 = Some l1 -> h !! r2 = Some l2 ->
  (forall r', h !! r' = None -> Q r' (<[r' := l1 ++ l2]> h)) ->
  wp (Store.concat r1 r2) h Q.
Proof.
  intros H1 H2 H. unfold Store.concat. apply wp_bind.
  unfold wp at 1, Store.read. simpl. rewrite H1. simpl.
  apply wp_bind. unfold wp at 1. simpl. rewrite H2. simpl.
  by apply wp_alloc.
Qed.

(** The in-place operations, on the array allocated last. *)
Lemma wp_sort cmp r l h Q :
  Q r (<[r := js_sort cmp l]> h) -> wp (Store.sort cmp r) (<[r := l]> h) Q.
Proof. unfold wp, Store.sort. simpl. by rewrite alter_insert_eq. Qed.

Lemma wp_reverse r l h Q :
  Q r (<[r := rev l]> h) -> wp (Store.reverse r) (<[r := l]> h) Q.
Proof. unfold wp, Store.reverse. simpl. by rewrite alter_insert_eq. Qed.

End StoreLogic.

Ltac fresh_facts :=
  repeat match goal with
         | H : <[_ := _]> _ !! _ = None |- _ => apply lookup_insert_None in H as [H ?]
         end.

Ltac store_lookup :=
  fresh_facts;
  repeat first [ rewrite lookup_insert_eq | rewrite lookup_insert_ne by congruence ];
  try done.

(** The ranking block writes only arrays it allocated itself, and its
    results are the lists of the functional model. *)
Lemma ranking_spec (h : gmap nat (list AccountData)) (data : nat)
    (xs : list AccountData) :
  h !! data = Some xs ->
  wp (Store.ranking data) h (fun r h' =>
    Store.r_allAccounts r = data
    /\ h' !! data = Some xs
    /\ h' !! Store.r_topPerformingAccounts r = Some (topPerforming_of xs)
    /\ h' !! Store.r_leastPerformingAccounts r = Some (leastPerforming_of xs)
    /\ forall r', r' ∈ dom h -> h' !! r' = h !! r').
Proof.
  intros Hd. unfold Store.ranking.
  apply wp_bind, (wp_derive (fun l => l)) with xs; [done|]. intros copy Hcopy.
  apply wp_bind, wp_sort. fold (sortedAccounts_of xs).
  apply wp_bind, (wp_derive (slice_first 5)) with (sortedAccounts_of xs);
    [by store_lookup|]. intros top Htop.
  apply wp_bind, (wp_derive (List.filter is_negative)) with (sortedAccounts_of xs);
    [by store_lookup|].
  intros negs Hnegs.
  apply wp_bind,
    (wp_derive (slice_last 5)) with (List.filter is_negative (sortedAccounts_of xs));
    [by store_lookup|].
  intros tail Htail.
  apply wp_bind, wp_reverse.
  eapply wp_bind, wp_length; [by store_lookup|].
  eapply wp_bind, wp_length; [by store_lookup|].
  unfold leastPerforming_of. fold (topPerforming_of xs).
  destruct (_ && _).
  - apply wp_bind, (wp_derive (List.filter is_non_negative)) with (sortedAccounts_of xs);
      [by store_lookup|].
    intros others Hothers.
    eapply wp_bind, (wp_derive (slice_last _)); [by store_lookup|].
    intros tail' Htail'.
    apply wp_bind, wp_reverse.
    eapply wp_bind, wp_concat; [by store_lookup | by store_lookup |].
    intros least' Hleast'. apply wp_ret. simpl.
    repeat split; [by store_lookup .. |].
    intros r' [v Hv]%elem_of_dom. by store_lookup.
  - apply wp_ret. simpl.
    repeat split; [by store_lookup .. |].
    intros r' [v Hv]%elem_of_dom. by store_lookup.
Qed.

(** C9: the snapshot's [allAccounts] is the input array itself, and it still
    holds the input records in their original order after the ranking block
    has run: the block sorts and reverses only arrays it allocated, its two
    results are the ranked lists of the snapshot, and every array that existed
    before the call is unchanged. *)
Theorem allAccounts_is_the_untouched_input (host : Host)
    (h : gmap nat (list AccountData)) (data : nat) (xs : list AccountData) :
  h !! data = Some xs ->
  allAccounts (processAccountDataInternal host xs) = xs
  /\ Store.r_allAccounts (Store.ranking data h).1 = data
  /\ (Store.ranking data h).2 !! data = Some xs
  /\ (Store.ranking data h).2 !! Store.r_topPerformingAccounts (Store.ranking data h).1
     = Some (topPerformingAccounts (processAccountDataInternal host xs))
  /\ (Store.ranking data h).2 !! Store.r_leastPerformingAccounts (Store.ranking data h).1
     = Some (leastPerformingAccounts (processAccountDataInternal host xs))
  /\ forall r, r ∈ dom h -> (Store.ranking data h).2 !! r = h !! r.
Proof.
  intros Hd. split; [done|]. exact (ranking_spec h data xs Hd).
Qed.

Lemma allAccounts_is_the_untouched_input_witness :
  let h : gmap nat (list AccountData) := {[ 0%nat := seven_debtors ]} in
  allAccounts (processAccountDataInternal Sample.host seven_debtors) = seven_debtors
  /\ (Store.ranking 0 h).2 !! 0%nat = Some seven_debtors.
Proof.
  intros h.
  destruct (allAccounts_is_the_untouched_input Sample.host h 0%nat seven_debtors)
    as (H1 & _ & H3 & _); [reflexivity|].
  split; [exact H1 | exact H3].
Defined.

(** ** Dictionaries *)

Lemma lookup_upsert {V} (k k' : string) (init : V) f (m : gmap string V) :
  upsert k init f m !! k' =
  if proto_member k then m !! k'
  else if decide (k = k') then Some (f (default init (m !! k))) else m !! k'.
Proof. unfold upsert. destruct (proto_member k); [done | apply lookup_insert]. Qed.

Lemma in_list_In x l : in_list x l = true <-> In x l.
Proof.
  unfold in_list. rewrite existsb_exists. split.
  - intros (y & Hy & E). apply String.eqb_eq in E. by subst.
  - intros H. exists x. split; [done | apply String.eqb_refl].
Qed.

(** The shortest name of [Object.prototype] has seven characters. *)
Lemma proto_member_length k : proto_member k = true -> (7 <= String.length k)%nat.
Proof.
  unfold proto_member. intros H%in_list_In. unfold PROTO_MEMBERS, PROTO_FUNCTIONS in H.
  repeat (destruct H as [<-|H]; [simpl; lia|]). destruct H.
Qed.

Lemma state_match_length s : forall prev st,
  state_match prev s = Some st -> String.length st = 2%nat.
Proof.
  induction s as [|a s IH]; intros prev st; cbn [state_match]; [done|].
  destruct s as [|b rest]; [done|].
  destruct (_ && _); [by intros [= <-] | apply IH].
Qed.

(** A state key is never a name of [Object.prototype]. *)
Lemma geo_key_not_proto row : proto_member (geo_key row) = false.
Proof.
  unfold geo_key. destruct (stateMatch _) as [st|] eqn:E; [|reflexivity].
  apply state_match_length in E. apply not_true_is_false. intros H%proto_member_length. lia.
Qed.

Lemma stateMatch_not_proto address st :
  stateMatch address = Some st -> proto_member st = false.
Proof.
  intros E%state_match_length. apply not_true_is_false. intros H%proto_member_length. lia.
Qed.

Lemma upsert_Forall {V} (P : string -> V -> Prop) k init f (m : gmap string V) :
  (forall v, P k (f v)) -> map_Forall P m -> map_Forall P (upsert k init f m).
Proof.
  intros Hf Hm. unfold upsert. destruct (proto_member k); [done|].
  apply map_Forall_insert_2; auto.
Qed.

Lemma total_accounts_upsert k s (m : gmap string SalesBucket) :
  total_accounts (upsert k (mkSales Num.zero 0) (add_sale s) m)
  = (total_accounts m + if proto_member k then 0 else 1)%nat.
Proof.
  unfold total_accounts, upsert. destruct (proto_member k); [lia|].
  destruct (m !! k) as [b|] eqn:Hk; simpl.
  - rewrite <- insert_delete_eq.
    rewrite map_fold_insert_L; [|intros; lia|apply lookup_delete_eq].
    rewrite (map_fold_delete_L _ _ k b m); [|intros; lia|done].
    simpl. lia.
  - rewrite map_fold_insert_L; [|intros; lia|done]. simpl. lia.
Qed.

Lemma bucket_accounts_upsert k k' s (m : gmap string SalesBucket) :
  bucket_accounts (upsert k (mkSales Num.zero 0) (add_sale s) m) k'
  = (bucket_accounts m k'
     + if negb (proto_member k) && String.eqb k k' then 1 else 0)%nat.
Proof.
  unfold bucket_accounts. rewrite lookup_upsert.
  destruct (proto_member k); [simpl; lia|]. cbn [negb andb].
  destruct (String.eqb_spec k k') as [->|Hne].
  - rewrite decide_True by done. destruct (m !! k'); simpl; lia.
  - rewrite decide_False by done. lia.
Qed.

(** ** The first pass *)

Lemma main_step_rejected st row :
  valid row = false -> main_step st row = st.
Proof.
  unfold valid, main_step. intros H. apply negb_false_iff in H. by rewrite H.
Qed.

(** A rejected record leaves no mark on the first pass: totals, rollups,
    bands and [validSales] are those of the collection without it. *)
Lemma first_pass_skips_rejected d1 row d2 :
  valid row = false -> main_pass (d1 ++ row :: d2) = main_pass (d1 ++ d2).
Proof.
  intros H. unfold main_pass. rewrite !fold_left_app. cbn [fold_left].
  by rewrite main_step_rejected.
Qed.

Lemma count_of_cons p row data :
  count_of p (row :: data) = ((if p row then 1 else 0) + count_of p data)%nat.
Proof. unfold count_of. simpl. by destruct (p row). Qed.


Lemma main_fold_brand data : forall st k,
  bucket_accounts (st_salesByBrand (fold_left main_step data st)) k
  = (bucket_accounts (st_salesByBrand st) k
     + if proto_member k then 0 else count_of (keyed brand_key k) data)%nat.
Proof.
  induction data as [|row data IH]; intros st k; simpl.
  - unfold count_of. simpl. destruct (proto_member k); lia.
  - rewrite IH, count_of_cons. unfold keyed at 2.
    destruct (valid row) eqn:Hv; simpl.
    + unfold main_step. unfold valid in Hv. apply negb_true_iff in Hv. rewrite Hv.
      simpl. rewrite bucket_accounts_upsert. fold (brand_key row).
      destruct (String.eqb_spec (brand_key row) k) as [->|Hne].
      * destruct (proto_member k); simpl; lia.
      * rewrite andb_false_r. destruct (proto_member k); lia.
    + rewrite main_step_rejected by done. destruct (proto_member k); lia.
Qed.

Lemma main_fold_totals data : forall st,
  total_accounts (st_salesByRep (fold_left main_step data st))
  = (total_accounts (st_salesByRep st) + count_of (counted rep_key) data)%nat
  /\ total_accounts (st_salesByBrand (fold_left main_step data st))
  = (total_accounts (st_salesByBrand st) + count_of (counted brand_key) data)%nat.
Proof.
  induction data as [|row data IH]; intros st; cbn [fold_left].
  - unfold count_of. simpl. lia.
  - destruct (IH (main_step st row)) as [-> ->]. rewrite !count_of_cons.
    assert (Hr : counted rep_key row = valid row && negb (proto_member (rep_key row)))
      by done.
    assert (Hb : counted brand_key row
                 = valid row && negb (proto_member (brand_key row))) by done.
    rewrite Hr, Hb. clear Hr Hb.
    destruct (valid row) eqn:Hv; cbn [andb].
    + unfold main_step. unfold valid in Hv. apply negb_true_iff in Hv. rewrite Hv.
      cbn [st_salesByRep st_salesByBrand]. rewrite !total_accounts_upsert.
      fold (rep_key row) (brand_key row).
      destruct (proto_member (rep_key row)), (proto_member (brand_key row));
        cbn [negb]; lia.
    + rewrite main_step_rejected by done. lia.
Qed.

(** No rollup of the first pass ever holds an entry under a name of
    [Object.prototype]. *)
Lemma upsert_no_proto {V} k k' init f (m : gmap string V) :
  proto_member k' = true -> m !! k' = None -> upsert k init f m !! k' = None.
Proof.
  intros Hk' Hm. rewrite lookup_upsert. destruct (proto_member k) eqn:Hk; [done|].
  destruct (decide (k = k')) as [->|]; [congruence | done].
Qed.


Lemma count_of_all p data :
  Forall (fun r => p r = true) data -> count_of p data = length data.
Proof.
  unfold count_of. induction 1 as [|r l Hr _ IH]; simpl; [done|].
  rewrite Hr. simpl. by rewrite IH.
Qed.

Lemma total_accounts_empty : total_accounts ∅ = 0%nat.
Proof. unfold total_accounts. apply map_fold_empty. Qed.





(** A valid account whose rep is named [constructor] is in [allAccounts]
    and in no bucket of [salesByRep]; its brand bucket counts it. *)
Lemma prototype_named_rep_is_in_no_bucket :
  let p := processAccountDataInternal Sample.host [Sample.account "Foo Inc" "constructor" "100"] in
  valid (Sample.account "Foo Inc" "constructor" "100") = true
  /\ length (allAccounts p) = 1%nat
  /\ salesByRep p = ∅
  /\ bucket_accounts (salesByBrand p) "Foo" = 1%nat.
Proof. vm_compute. repeat split. Qed.

(** ** Revenue bands and lazily created rollups *)

Lemma band_of_in_BANDS s : band_of s ∈ BANDS.
Proof.
  unfold band_of, BANDS.
  repeat match goal with |- context [if ?b then _ else _] => destruct b end;
    set_solver.
Qed.

Lemma main_fold_dom_bands data : forall st,
  dom (st_salesDistribution (fold_left main_step data st)) = dom (st_salesDistribution st).
Proof.
  induction data as [|row data IH]; intros st; simpl; [done|].
  rewrite IH. unfold main_step. destruct (rejected _); [done|].
  simpl. apply dom_alter_L.
Qed.

Lemma main_fold_bands data : forall st band,
  st_salesDistribution (fold_left main_step data st) !! band
  = (fun n => (n + count_of (in_band band) data)%nat) <$> (st_salesDistribution st !! band).
Proof.
  induction data as [|row data IH]; intros st band; simpl.
  - unfold count_of. simpl. destruct (_ !! band); simpl; f_equal; lia.
  - rewrite IH, count_of_cons. unfold in_band at 2.
    destruct (valid row) eqn:Hv; simpl.
    + unfold main_step. unfold valid in Hv. apply negb_true_iff in Hv. rewrite Hv.
      simpl. unfold bump. rewrite lookup_alter.
      destruct (String.eqb_spec (band_of (parseCurrency (Total_Sales row))) band) as [->|Hne].
      * rewrite decide_True by done. destruct (_ !! band); simpl; f_equal; lia.
      * rewrite decide_False by done. destruct (_ !! band); simpl; f_equal; lia.
    + rewrite main_step_rejected by done. destruct (_ !! band); simpl; f_equal; lia.
Qed.

Lemma salesDistribution_init_lookup band :
  band ∈ BANDS -> salesDistribution_init !! band = Some 0%nat.
Proof.
  unfold BANDS, salesDistribution_init. intros H.
  repeat (apply elem_of_cons in H as [->|H]; [by simplify_map_eq|]).
  by apply elem_of_nil in H.
Qed.

Lemma salesDistribution_init_dom : dom salesDistribution_init = list_to_set BANDS.
Proof. unfold salesDistribution_init, BANDS. rewrite !dom_insert_L, dom_empty_L. set_solver. Qed.

Lemma main_fold_populated data : forall st,
  populated_sales (st_salesByRep st) -> populated_sales (st_salesByBrand st) ->
  populated_sales (st_topStates st) ->
  populated_sales (st_salesByRep (fold_left main_step data st))
  /\ populated_sales (st_salesByBrand (fold_left main_step data st))
  /\ populated_sales (st_topStates (fold_left main_step data st)).
Proof.
  induction data as [|row data IH]; intros st H1 H2 H3; cbn [fold_left]; [done|].
  apply IH; unfold main_step; destruct (rejected _);
    cbn [st_salesByRep st_salesByBrand st_topStates]; try done.
  - apply upsert_Forall; [intros; simpl; lia | done].
  - apply upsert_Forall; [intros; simpl; lia | done].
  - destruct (stateMatch _); [|done]. apply upsert_Forall; [intros; simpl; lia | done].
Qed.

Lemma fold_upsert_populated {V} (P : string -> V -> Prop)
    (step : gmap string V -> AccountData -> gmap string V) :
  (forall m row, map_Forall P m -> map_Forall P (step m row)) ->
  forall data m, map_Forall P m -> map_Forall P (fold_left step data m).
Proof.
  intros Hstep. induction data as [|row data IH]; intros m Hm; simpl; auto.
Qed.

Lemma geo_populated data :
  populated_leads (fold_left geo_step data ∅).
Proof.
  apply fold_upsert_populated; [|apply map_Forall_empty].
  intros m row Hm. unfold geo_step. apply upsert_Forall; [intros; simpl; lia | done].
Qed.

Lemma campaign_populated data :
  populated_leads (fold_left campaign_step data ∅).
Proof.
  apply fold_upsert_populated; [|apply map_Forall_empty].
  intros m row Hm. unfold campaign_step. destruct (_ && _); [|done].
  apply upsert_Forall; [intros; simpl; lia | done].
Qed.

Lemma source_populated data :
  map_Forall (fun _ b => (0 < s_leads b)%nat) (trafficSourcePerformance_of data).
Proof.
  unfold trafficSourcePerformance_of. intros k b. rewrite map_lookup_imap.
  destruct (fold_left source_step data ∅ !! k) as [b0|] eqn:Hk; simpl; [|done].
  intros [= <-]. simpl.
  revert Hk. apply (fold_upsert_populated (fun _ b => (0 < s_leads b)%nat) source_step);
    [|apply map_Forall_empty].
  intros m row Hm. unfold source_step. apply upsert_Forall; [intros; simpl; lia | done].
Qed.

Lemma page_populated host data :
  map_Forall (fun _ b => (0 < p_leads b)%nat) (landingPagePerformance_of host data).
Proof.
  unfold landingPagePerformance_of. apply map_Forall_fmap.
  apply (fold_upsert_populated (fun _ b => (0 < p_leads (page_finish b))%nat));
    [|apply map_Forall_empty].
  intros m row Hm. unfold page_step. destruct (page_key host row); [|done].
  apply upsert_Forall; [intros; simpl; lia | done].
Qed.

(** C10: for every input, the empty one included, the keys of
    [salesDistribution] are exactly the six bands; the count of a band is the
    number of valid records in it, so a band without a record holds 0; the
    rep, brand, state, source, campaign and landing-page rollups hold no
    bucket with a count of 0. *)
Theorem salesDistribution_has_the_six_bands (host : Host) (data : list AccountData) :
  let p := processAccountDataInternal host data in
  dom (salesDistribution p) = list_to_set BANDS
  /\ (forall band, band ∈ BANDS ->
        salesDistribution p !! band = Some (count_of (in_band band) data))
  /\ salesDistribution (processAccountDataInternal host []) = salesDistribution_init
  /\ populated_sales (salesByRep p) /\ populated_sales (salesByBrand p)
  /\ populated_sales (topStates p) /\ populated_leads (geographicDistribution p)
  /\ map_Forall (fun _ b => (0 < s_leads b)%nat) (trafficSourcePerformance p)
  /\ populated_leads (campaignPerformance p)
  /\ map_Forall (fun _ b => (0 < p_leads b)%nat) (landingPagePerformance p).
Proof.
  simpl. unfold main_pass.
  split. { rewrite main_fold_dom_bands. apply salesDistribution_init_dom. }
  split. { intros band Hb. rewrite main_fold_bands. simpl.
           by rewrite salesDistribution_init_lookup. }
  split; [done|].
  destruct (main_fold_populated data main_init) as (H1 & H2 & H3);
    try apply map_Forall_empty.
  repeat split; auto using geo_populated, campaign_populated, source_populated, page_populated.
Qed.

Lemma salesDistribution_has_the_six_bands_witness :
  salesDistribution (processAccountDataInternal Sample.host seven_debtors) !! "$25K+"
  = Some (count_of (in_band "$25K+") seven_debtors).
Proof.
  pose proof (salesDistribution_has_the_six_bands Sample.host seven_debtors) as H.
  cbv zeta in H. destruct H as (_ & H & _).
  apply H. apply list_elem_of_In. simpl. tauto.
Defined.

(** ** Averages and the validity bound *)

Lemma Qltb_true a b : Num.Qltb a b = true <-> (a < b)%Q.
Proof.
  unfold Num.Qltb. rewrite negb_true_iff. split.
  - intros H. apply Qnot_le_lt. intros Hle. apply Qle_bool_iff in Hle. congruence.
  - intros H. destruct (Qle_bool b a) eqn:E; [|done].
    apply Qle_bool_iff in E. exfalso. exact (Qlt_not_le _ _ H E).
Qed.

Lemma averaged_positive s : averaged s = true -> positive_number s.
Proof.
  unfold averaged. intros H. apply andb_true_iff in H as [H _].
  apply andb_true_iff in H as [H Hf]. destruct s; try discriminate.
  exists q. split; [done|]. by apply Qltb_true.
Qed.

Lemma averaged_not_rejected s : averaged s = true -> rejected s = false.
Proof.
  unfold averaged, rejected. intros H. apply andb_true_iff in H as [H H3].
  apply andb_true_iff in H as [H1 H2]. destruct s; try discriminate. simpl in *.
  apply Qltb_true in H3. unfold Num.gt. simpl.
  destruct (Num.Qltb _ (Qabs q)) eqn:E; [|done].
  apply Qltb_true in E. exfalso. exact (Qlt_irrefl _ (Qlt_trans _ _ _ E H3)).
Qed.

Lemma sum_positive l : forall acc q0,
  acc = Fin q0 -> (0 <= q0)%Q -> Forall positive_number l -> l <> [] ->
  exists q, fold_left (fun a v => Num.add a v) l acc = Fin q /\ (0 < q)%Q.
Proof.
  induction l as [|s l IH]; intros acc q0 -> Hq0 Hall Hne; [done|].
  apply Forall_cons in Hall as [(q & -> & Hq) Hall]. simpl.
  destruct l as [|s' l'].
  - simpl. exists (q0 + q)%Q. split; [done|]. lra.
  - apply (IH _ (q0 + q)%Q); [done | lra | done | done].
Qed.

Lemma calculateAverage_positive l :
  Forall positive_number l -> l <> [] -> Num.gt (calculateAverage l) Num.zero = true.
Proof.
  intros Hall Hne. unfold calculateAverage.
  assert (Hlen : (0 < length l)%nat) by (destruct l; [done | simpl; lia]).
  replace (Nat.eqb (length l) 0) with false by (symmetry; apply Nat.eqb_neq; lia).
  destruct (sum_positive l Num.zero 0%Q) as (q & -> & Hq); [done|lra|done|done|].
  unfold Num.div, Num.of_nat, Num.of_Z.
  assert (Hn : (0 < inject_Z (Z.of_nat (length l)))%Q).
  { replace 0%Q with (inject_Z 0) by done. rewrite <- Zlt_Qlt. lia. }
  destruct (Qeq_bool _ 0) eqn:E.
  { apply Qeq_bool_iff in E. rewrite E in Hn. by apply Qlt_irrefl in Hn. }
  unfold Num.gt, Num.lt, Num.zero. apply Qltb_true.
  apply Qlt_shift_div_l; [done|]. lra.
Qed.

Lemma main_fold_validSales data : forall st,
  Forall positive_number (validSales st) ->
  Forall positive_number (validSales (fold_left main_step data st))
  /\ ((validSales st <> [] \/ Exists (fun r => averaged (parseCurrency (Total_Sales r)) = true) data)
      -> validSales (fold_left main_step data st) <> []).
Proof.
  induction data as [|row data IH]; intros st Hst; simpl.
  - split; [done|]. intros [H|H]; [done|]. by apply Exists_nil in H.
  - assert (Hstep : Forall positive_number (validSales (main_step st row))).
    { unfold main_step. destruct (rejected _); [done|]. simpl.
      destruct (averaged _) eqn:E; [|done].
      apply Forall_app. split; [done|]. apply Forall_cons. split; [|done].
      by apply averaged_positive. }
    destruct (IH _ Hstep) as [H1 H2]. split; [done|].
    intros H. apply H2. destruct H as [H|H].
    + left. unfold main_step. destruct (rejected _); [done|]. simpl.
      destruct (averaged _); [|done]. by destruct (validSales st).
    + apply Exists_cons in H as [H|H]; [|by right].
      left. unfold main_step. rewrite (averaged_not_rejected _ H). simpl. rewrite H.
      by destruct (validSales st).
Qed.

(** The average is above 0 as soon as one record passes the test that
    guards [validSales.push]. *)
Lemma averageDealSize_positive (host : Host) (data : list AccountData) :
  Exists (fun r => averaged (parseCurrency (Total_Sales r)) = true) data ->
  Num.gt (averageDealSize (processAccountDataInternal host data)) Num.zero = true.
Proof.
  intros H. simpl. unfold main_pass.
  destruct (main_fold_validSales data main_init) as [H1 H2]; [by apply Forall_nil|].
  apply calculateAverage_positive; [done|]. apply H2. by right.
Qed.

(** C8 at its failing input: a single account whose sales value is exactly
    1e12 is positive, finite and within the bound (it is not rejected and it
    is the whole of [totalRevenue]), yet [validSales] stays empty and
    [averageDealSize] is 0. *)
Theorem sale_at_the_bound_is_not_averaged :
  let p := processAccountDataInternal Sample.host [at_bound] in
  parseCurrency (Total_Sales at_bound) = Fin 1000000000000
  /\ rejected (parseCurrency (Total_Sales at_bound)) = false
  /\ Num.gt (parseCurrency (Total_Sales at_bound)) Num.zero = true
  /\ Num.le (Num.abs (parseCurrency (Total_Sales at_bound))) (Num.of_Z (10 ^ 12)) = true
  /\ totalRevenue p = Fin 1000000000000
  /\ averageDealSize p = Fin 0
  /\ Num.gt (averageDealSize p) Num.zero = false.
Proof. vm_compute. repeat split. Qed.

(** ** Validity in the later passes *)

(** The geography pass adds the parsed value of every record, valid or not. *)
Lemma geographic_revenue_ignores_validity (data : list AccountData) (row : AccountData) :
  revenue <$> fold_left geo_step (data ++ [row]) ∅ !! geo_key row
  = Some (Num.add
            (revenue (default (mkLead 0 Num.zero) (fold_left geo_step data ∅ !! geo_key row)))
            (parseCurrency (Total_Sales row))).
Proof.
  rewrite fold_left_app. cbn [fold_left]. unfold geo_step at 1.
  rewrite lookup_upsert, geo_key_not_proto, decide_True by done. reflexivity.
Qed.

(** C1 at its failing input: a single account whose sales value is 2e12, as
    the flat-file adapter builds it, is rejected by the first pass (it counts
    toward [totalAccounts] and adds nothing to [totalRevenue] or to a rep,
    brand or state bucket), yet its value is added to the revenue of
    [monthlyTrends], [trafficSourcePerformance] and
    [geographicDistribution]; with attribution fields, also to the revenue of
    [campaignPerformance] and [landingPagePerformance]. *)
Theorem oversized_sale_reaches_secondary_sums :
  let p := processAccountDataInternal Sample.host [oversized] in
  let p' := processAccountDataInternal Sample.host [oversized_attributed] in
  parseCurrency (Total_Sales oversized) = Fin 2000000000000
  /\ rejected (parseCurrency (Total_Sales oversized)) = true
  /\ totalAccounts p = 1%nat
  /\ totalRevenue p = Fin 0
  /\ salesByRep p = ∅ /\ salesByBrand p = ∅ /\ topStates p = ∅
  /\ map m_revenue (monthlyTrends p) = [Fin 2000000000000]
  /\ s_revenue <$> trafficSourcePerformance p !! "Unknown" = Some (Fin 2000000000000)
  /\ revenue <$> geographicDistribution p !! "OH" = Some (Fin 2000000000000)
  /\ revenue <$> campaignPerformance p' !! "Spring" = Some (Fin 2000000000000)
  /\ p_revenue <$> landingPagePerformance p' !! "Pricing" = Some (Fin 2000000000000).
Proof. vm_compute. repeat split. Qed.

(** ** Sorting and ranking *)

Section Sorting.

Context {A : Type} (cmp : A -> A -> number).

Lemma sort_insert_perm x l : Permutation (sort_insert cmp x l) (x :: l).
Proof.
  induction l as [|y ys IH]; cbn [sort_insert]; [done|].
  destruct (Num.gt (cmp x y) Num.zero); [|reflexivity].
  rewrite IH. apply perm_swap.
Qed.

Lemma js_sort_perm l : Permutation (js_sort cmp l) l.
Proof.
  induction l as [|x l IH]; cbn [js_sort fold_right]; [done|].
  rewrite sort_insert_perm. by constructor.
Qed.

Lemma js_sort_length l : length (js_sort cmp l) = length l.
Proof. apply Permutation_length, js_sort_perm. Qed.

(** A relation [R] that the comparator decides: [cmp x y > 0] puts [y]
    first, otherwise [x] comes first. *)
Context (R : relation A) `{!Transitive R}.
Context (cmp_after : forall x y, Num.gt (cmp x y) Num.zero = true -> R y x).
Context (cmp_before : forall x y, Num.gt (cmp x y) Num.zero = false -> R x y).

Lemma sort_insert_sorted x l :
  StronglySorted R l -> StronglySorted R (sort_insert cmp x l).
Proof.
  induction l as [|y ys IH]; intros Hs; cbn [sort_insert].
  - repeat constructor.
  - apply StronglySorted_cons in Hs as [Hy Hys].
    destruct (Num.gt (cmp x y) Num.zero) eqn:E.
    + apply StronglySorted_cons. split; [|by apply IH].
      rewrite sort_insert_perm. constructor; [by apply cmp_after | done].
    + apply cmp_before in E. apply StronglySorted_cons. split.
      * constructor; [done|]. eapply Forall_impl; [exact Hy|].
        intros z Hz. simpl. by etrans.
      * by apply StronglySorted_cons.
Qed.

Lemma js_sort_sorted l : StronglySorted R (js_sort cmp l).
Proof.
  induction l as [|x l IH]; cbn [js_sort fold_right]; [constructor|].
  by apply sort_insert_sorted.
Qed.

End Sorting.

Lemma StronglySorted_rev {A} (R : relation A) l :
  StronglySorted R l -> StronglySorted (flip R) (rev l).
Proof.
  induction l as [|x l IH]; intros Hs; simpl; [constructor|].
  apply StronglySorted_cons in Hs as [Hx Hl].
  apply StronglySorted_app_2; [|by apply IH|repeat constructor].
  intros x1 x2 H1 H2. apply list_elem_of_singleton in H2 as ->.
  unfold flip. rewrite Forall_forall in Hx. apply Hx.
  apply list_elem_of_In, in_rev, list_elem_of_In in H1. done.
Qed.

Global Instance desc_trans : Transitive desc.
Proof. intros a b c. unfold desc. intros. lra. Qed.

Lemma by_sales_desc_gt x y :
  Num.gt (by_sales_desc x y) Num.zero = Num.Qltb (sale_of x) (sale_of y).
Proof.
  unfold by_sales_desc. rewrite !parseCurrency_sale_of. simpl.
  unfold Num.Qltb. f_equal.
  destruct (Qle_bool (sale_of y) (sale_of x)) eqn:E1;
    destruct (Qle_bool (sale_of y + - sale_of x) 0) eqn:E2; try done.
  - apply Qle_bool_iff in E1.
    assert (H : ~ (sale_of y + - sale_of x <= 0)%Q).
    { intros H%Qle_bool_iff. congruence. }
    exfalso. apply H. lra.
  - apply Qle_bool_iff in E2.
    assert (H : ~ (sale_of y <= sale_of x)%Q).
    { intros H%Qle_bool_iff. congruence. }
    exfalso. apply H. lra.
Qed.

Lemma sortedAccounts_sorted data : StronglySorted desc (sortedAccounts_of data).
Proof.
  apply js_sort_sorted; [apply _ | |].
  - intros x y. rewrite by_sales_desc_gt. intros H%Qltb_true. unfold desc. lra.
  - intros x y. rewrite by_sales_desc_gt. intros H. unfold desc.
    destruct (Qlt_le_dec (sale_of x) (sale_of y)) as [Hlt|Hle]; [|done].
    apply Qltb_true in Hlt. congruence.
Qed.

Lemma filter_all {A} (p : A -> bool) l :
  Forall (fun x => p x = true) l -> List.filter p l = l.
Proof. induction 1 as [|x l Hx _ IH]; simpl; [done|]. by rewrite Hx, IH. Qed.

Lemma is_negative_sale a : is_negative a = true <-> (sale_of a < 0)%Q.
Proof. unfold is_negative. rewrite parseCurrency_sale_of. simpl. apply Qltb_true. Qed.

Lemma leastPerforming_of_seven_negative (data : list AccountData) :
  length data = 7%nat ->
  Forall (fun a => (sale_of a < 0)%Q) data ->
  leastPerforming_of data = rev (drop 2 (sortedAccounts_of data)).
Proof.
  intros Hlen Hneg. unfold leastPerforming_of.
  assert (Hperm : Permutation (sortedAccounts_of data) data) by apply js_sort_perm.
  assert (Hall : Forall (fun a => is_negative a = true) (sortedAccounts_of data)).
  { rewrite Hperm. eapply Forall_impl; [exact Hneg|]. intros a. apply is_negative_sale. }
  rewrite (filter_all _ _ Hall). unfold slice_last.
  assert (Hl : length (sortedAccounts_of data) = 7%nat)
    by (unfold sortedAccounts_of; by rewrite js_sort_length).
  rewrite Hl. simpl (7 - 5)%nat.
  replace (length (rev (drop 2 (sortedAccounts_of data)))) with 5%nat; [done|].
  rewrite length_rev, length_drop, Hl. done.
Qed.

(** C3, amended: for seven accounts with strictly negative sales values (and
    none with a non-negative one), [leastPerformingAccounts] holds exactly the
    five accounts furthest below 0 (the five most negative), ordered from the
    most negative to the least negative. *)
Theorem least_performing_are_the_five_most_negative (host : Host)
    (data : list AccountData) :
  length data = 7%nat ->
  Forall (fun a => (sale_of a < 0)%Q) data ->
  five_most_negative data (leastPerformingAccounts (processAccountDataInternal host data)).
Proof.
  intros Hlen Hneg. simpl. rewrite leastPerforming_of_seven_negative by done.
  pose proof (sortedAccounts_sorted data) as Hs.
  pose proof (js_sort_perm by_sales_desc data) as Hperm. fold (sortedAccounts_of data) in Hperm.
  assert (Hl : length (sortedAccounts_of data) = 7%nat)
    by (unfold sortedAccounts_of; by rewrite js_sort_length).
  rewrite <- (take_drop 2 (sortedAccounts_of data)) in Hs, Hperm.
  exists (take 2 (sortedAccounts_of data)). split; [|split; [|split]].
  - etrans; [symmetry; exact Hperm|].
    etrans; [apply Permutation_app_comm|].
    apply Permutation_app_tail, Permutation_rev.
  - rewrite length_rev, length_drop, Hl. done.
  - intros a b Ha Hb. apply list_elem_of_In, in_rev, list_elem_of_In in Ha.
    exact (StronglySorted_app_1_elem_of _ _ _ _ _ Hs Hb Ha).
  - apply StronglySorted_app_1_r in Hs. apply StronglySorted_rev in Hs.
    exact Hs.
Qed.

Lemma seven_debtors_negative : Forall (fun a => (sale_of a < 0)%Q) seven_debtors.
Proof. unfold seven_debtors. repeat (constructor; [vm_compute; reflexivity|]). constructor. Qed.

Lemma least_performing_are_the_five_most_negative_witness :
  five_most_negative seven_debtors
    (leastPerformingAccounts (processAccountDataInternal Sample.host seven_debtors)).
Proof.
  apply (least_performing_are_the_five_most_negative Sample.host seven_debtors).
  - reflexivity.
  - exact seven_debtors_negative.
Defined.

Lemma least_performing_of_seven_debtors :
  map Total_Sales (leastPerformingAccounts (processAccountDataInternal Sample.host seven_debtors))
  = ["-7"; "-6"; "-5"; "-4"; "-3"].
Proof. vm_compute. reflexivity. Qed.

(** C3 as stated fails: of the values -1 .. -7 the list holds -7 .. -3, not
    the five closest to 0. *)
Lemma not_five_least_negative :
  ~ five_least_negative seven_debtors
      (leastPerformingAccounts (processAccountDataInternal Sample.host seven_debtors)).
Proof.
  intros (rest & Hperm & _ & Hle & _).
  assert (Hin : debtor "-1" ∈ rest).
  { assert (H : debtor "-1" ∈ seven_debtors) by (apply list_elem_of_In; simpl; tauto).
    rewrite Hperm in H. apply elem_of_app in H as [H|H]; [|done].
    exfalso. apply (list_elem_of_fmap_2 Total_Sales) in H.
    change (Total_Sales (debtor "-1")) with "-1" in H.
    change (Total_Sales <$> ?l) with (map Total_Sales l) in H.
    rewrite least_performing_of_seven_debtors in H.
    apply list_elem_of_In in H. simpl in H. intuition discriminate. }
  assert (H7 : debtor "-7" ∈ leastPerformingAccounts
                 (processAccountDataInternal Sample.host seven_debtors)).
  { vm_compute. apply list_elem_of_here. }
  specialize (Hle _ _ H7 Hin). vm_compute in Hle. by apply Hle.
Qed.


(** ** Lead health *)

Lemma clamp_max_min x : clamp 0 100 x = Z.max 0 (Z.min 100 x).
Proof. unfold clamp. destruct (Z.ltb_spec x 0), (Z.ltb_spec 100 x); lia. Qed.

Lemma score_follows_the_code_order (account : AccountData) :
  calculateLeadHealthScore account = reference_score SOURCE_BONUS_CODE account.
Proof.
  unfold calculateLeadHealthScore, reference_score. rewrite clamp_max_min.
  do 2 f_equal.
  unfold SOURCE_BONUS_CODE, first_match, visit_bonus, stage_bonus, STAGE_BONUS.
  cbn [List.find fst snd].
  set (source := Js.opt_or (Analytics_Source account) "Unknown").
  set (stage := Js.opt_or (stage_lower account) EmptyString).
  rewrite (String.eqb_sym "customer"), (String.eqb_sym "salesqualifiedlead"),
    (String.eqb_sym "marketingqualifiedlead").
  destruct (Js.includes source "Organic Search"), (Js.includes source "Paid Search"),
    (Js.includes source "Referral"),
    (Num.gt (visits_of account) (Num.of_Z 5)), (Num.gt (visits_of account) (Num.of_Z 2));
    destruct (String.eqb_spec stage "customer") as [->|?]; try (cbn; lia);
    destruct (String.eqb_spec stage "salesqualifiedlead") as [->|?]; try (cbn; lia);
    destruct (String.eqb_spec stage "marketingqualifiedlead") as [->|?]; cbn; lia.
Qed.

Lemma reference_score_range table account :
  0 <= reference_score table account <= 100.
Proof. unfold reference_score. rewrite clamp_max_min. lia. Qed.

(** C4, amended: the score is the reference definition with the source
    bonuses tried in the order Organic Search +15, Paid Search +10, Referral
    +20 (first match wins), plus +15 for more than 5 visits or +10 for more
    than 2, plus one stage bonus (customer +30, salesqualifiedlead +25,
    marketingqualifiedlead +15), clamped to [0,100]; so the score is always
    in [0,100], and an account with no matching source, at most 2 visits and
    an unknown stage scores exactly 50. *)
Theorem lead_health_score_reference (account : AccountData) :
  calculateLeadHealthScore account = reference_score SOURCE_BONUS_CODE account
  /\ 0 <= calculateLeadHealthScore account <= 100
  /\ (first_match SOURCE_BONUS_CODE (Js.opt_or (Analytics_Source account) "Unknown") = 0 ->
      Num.gt (visits_of account) (Num.of_Z 2) = false ->
      ~ In (Js.opt_or (stage_lower account) EmptyString) (map fst STAGE_BONUS) ->
      calculateLeadHealthScore account = 50).
Proof.
  rewrite score_follows_the_code_order. split; [done|]. split.
  { apply reference_score_range. }
  intros Hsrc Hvis Hstage. unfold reference_score. rewrite Hsrc.
  assert (Hv : visit_bonus account = 0).
  { unfold visit_bonus. rewrite Hvis.
    destruct (Num.gt (visits_of account) (Num.of_Z 5)) eqn:E; [|done].
    exfalso. revert E Hvis. unfold Num.gt. destruct (visits_of account); simpl; try done.
    intros H5%Qltb_true H2. assert (Num.Qltb (inject_Z 2) q = true); [|congruence].
    apply Qltb_true. eapply Qlt_trans; [|exact H5]. done. }
  assert (Hs : stage_bonus account = 0).
  { unfold stage_bonus, STAGE_BONUS in *. cbn [List.find fst snd map] in *.
    set (stage := Js.opt_or (stage_lower account) EmptyString) in *.
    destruct (String.eqb_spec "customer" stage) as [E|?];
      [exfalso; apply Hstage; simpl; auto|].
    destruct (String.eqb_spec "salesqualifiedlead" stage) as [E|?];
      [exfalso; apply Hstage; simpl; auto|].
    destruct (String.eqb_spec "marketingqualifiedlead" stage) as [E|?];
      [exfalso; apply Hstage; simpl; auto|]. done. }
  rewrite Hv, Hs. reflexivity.
Qed.

Lemma lead_health_score_reference_witness :
  calculateLeadHealthScore (Sample.account "Foo Inc" "Bob" "100") = 50.
Proof.
  apply (lead_health_score_reference (Sample.account "Foo Inc" "Bob" "100")).
  - vm_compute. reflexivity.
  - vm_compute. reflexivity.
  - simpl. intros [H|[H|[H|[]]]]; discriminate H.
Defined.

(** C4 as stated fails: a source text naming both a referral and organic
    search earns +15 in the code and +20 in the order of the specification. *)
Lemma score_is_not_the_spec_reference :
  calculateLeadHealthScore referred <> reference_score SOURCE_BONUS_SPEC referred.
Proof. vm_compute. discriminate. Qed.


(** ** Estimated values *)

Lemma estimate_of_tier s : estimate s = Num.of_Z (tier_estimate (tier_of s)).
Proof.
  unfold estimate, leadValue_of, tier_of.
  generalize (Js.toLowerCase s). intros stage.
  repeat match goal with
         | |- context [String.eqb stage ?k] => destruct (String.eqb stage k)
         end; vm_compute; reflexivity.
Qed.

Lemma estimates_descend_code : estimates_descend rank_code.
Proof.
  intros s1 s2. rewrite !estimate_of_tier.
  destruct (tier_of s1), (tier_of s2); simpl; intros H; try lia; vm_compute; reflexivity.
Qed.

Lemma tier_of_default s : tier_of (Js.or_else s "unknown") = tier_of s.
Proof. destruct s; reflexivity. Qed.

Lemma transform_contact_sales host cm om draws contact :
  Total_Sales (transform_contact host cm om draws contact).1
  = leadValue_of (prop_or (c_properties contact) "lifecyclestage" "unknown").
Proof.
  unfold transform_contact.
  destruct (Num.truthy _); reflexivity.
Qed.

Lemma with_stage_prop contact s :
  prop_or (c_properties (with_stage contact s)) "lifecyclestage" "unknown"
  = Js.or_else s "unknown".
Proof. unfold prop_or, with_stage. simpl. by rewrite lookup_insert_eq. Qed.

(** C5, amended: the estimates descend strictly in the order customer >
    salesqualifiedlead/sql > marketingqualifiedlead/mql > lead > unknown >
    subscriber; for two contacts that differ only in lifecycle stage, the one
    whose stage comes earlier in this order gets the strictly larger
    estimated Total Sales. *)
Theorem estimates_descend_by_stage :
  estimates_descend rank_code
  /\ forall host cm om draws contact s1 s2,
       (rank_code (tier_of s1) < rank_code (tier_of s2))%nat ->
       Num.gt (estimated_sales host cm om draws (with_stage contact s1))
              (estimated_sales host cm om draws (with_stage contact s2))
       = true.
Proof.
  split; [exact estimates_descend_code|].
  intros host cm om draws contact s1 s2 H. unfold estimated_sales.
  rewrite !transform_contact_sales, !with_stage_prop.
  apply estimates_descend_code. by rewrite !tier_of_default.
Qed.

Lemma estimates_descend_by_stage_witness :
  Num.gt (estimate "Customer") (estimate "SQL") = true
  /\ Num.gt
       (estimated_sales Sample.host ∅ ∅ 0 (with_stage sample_contact "opportunity"))
       (estimated_sales Sample.host ∅ ∅ 0 (with_stage sample_contact "subscriber"))
     = true.
Proof.
  destruct estimates_descend_by_stage as [H1 H2]. split.
  - apply H1. vm_compute. lia.
  - apply H2. vm_compute. lia.
Defined.

(** C5 as stated fails: a subscriber is estimated at 500, an unknown stage
    at 1000. *)
Lemma estimates_do_not_descend_in_spec_order : ~ estimates_descend rank_spec.
Proof.
  intros H. specialize (H "subscriber" "unknown").
  assert (Hr : (rank_spec (tier_of "subscriber") < rank_spec (tier_of "unknown"))%nat)
    by (vm_compute; lia).
  apply H in Hr. vm_compute in Hr. discriminate.
Qed.

(** ** Brand labels *)

Lemma brand_loop_names n l rest names :
  Forall (fun b => in_list b GENERIC_SUFFIXES = false) names ->
  Exists (fun b => Js.includes l (Js.toLowerCase b) = true) names ->
  exists b, List.find (fun b => Js.includes l (Js.toLowerCase b)) names = Some b
            /\ b ∈ names /\ brand_loop n l (names ++ rest) = Some b.
Proof.
  induction names as [|b names IH]; intros Hgen Hex.
  - by apply Exists_nil in Hex.
  - apply Forall_cons in Hgen as [Hb Hgen]. cbn [app brand_loop List.find]. rewrite Hb.
    cbn [andb].
    destruct (Js.includes l (Js.toLowerCase b)) eqn:E.
    + exists b. split; [done|]. split; [apply list_elem_of_here | done].
    + apply Exists_cons in Hex as [Hex|Hex]; [congruence|].
      destruct (IH Hgen Hex) as (b' & Hfind & Hin & Hb').
      exists b'. split; [done|]. split; [by apply list_elem_of_further | done].
Qed.

(** C7, amended: the label is a function of the name, and the known brand
    names are matched case-insensitively: two names with the same lower-case
    form in which one of Hospeco, Indoff, Triad, Impact, Legacy, Acme, Supply
    occurs both get, as their label, the first of these brand names (in this
    order) that occurs in the lower-cased name; so ACME Corp and acme corp
    both yield Acme. *)
Theorem brand_names_match_in_any_case (n1 n2 : string) :
  Js.toLowerCase n1 = Js.toLowerCase n2 ->
  Exists (fun b => Js.includes (Js.toLowerCase n1) (Js.toLowerCase b) = true) BRAND_NAMES ->
  exists b, first_brand (Js.toLowerCase n1) = Some b
            /\ b ∈ BRAND_NAMES
            /\ extractBrandFromAccountNameHS n1 = b
            /\ extractBrandFromAccountNameHS n2 = b.
Proof.
  intros Hlow Hex.
  assert (Hgen : Forall (fun b => in_list b GENERIC_SUFFIXES = false) BRAND_NAMES).
  { unfold BRAND_NAMES. repeat (constructor; [reflexivity|]). constructor. }
  destruct (brand_loop_names n1 (Js.toLowerCase n1) ["Corp"; "LLC"; "Inc"] BRAND_NAMES
              Hgen Hex) as (b & Hfind & Hin & Hb1).
  destruct (brand_loop_names n2 (Js.toLowerCase n1) ["Corp"; "LLC"; "Inc"] BRAND_NAMES
              Hgen Hex) as (b2 & Hfind2 & _ & Hb2).
  rewrite Hfind in Hfind2. injection Hfind2 as <-.
  exists b. split; [exact Hfind|]. split; [exact Hin|].
  unfold extractBrandFromAccountNameHS. rewrite <- Hlow.
  change KNOWN_BRANDS_HS with (BRAND_NAMES ++ ["Corp"; "LLC"; "Inc"]).
  by rewrite Hb1, Hb2.
Qed.

Lemma brand_names_match_in_any_case_witness :
  extractBrandFromAccountNameHS "ACME Corp" = "Acme"
  /\ extractBrandFromAccountNameHS "acme corp" = "Acme".
Proof.
  destruct (brand_names_match_in_any_case "ACME Corp" "acme corp" eq_refl)
    as (b & Hb & _ & H1 & H2).
  - unfold BRAND_NAMES. do 5 apply Exists_cons_tl. apply Exists_cons_hd.
    vm_compute. reflexivity.
  - vm_compute in Hb. injection Hb as <-. split; assumption.
Defined.

(** C7 as stated fails: a label taken from the text of the name keeps the
    casing of the name. *)
Lemma extraction_is_not_case_insensitive :
  ~ case_insensitive extractBrandFromAccountNameHS.
Proof.
  intros H. specialize (H "Foo Corp" "foo corp" eq_refl).
  vm_compute in H. discriminate.
Qed.


(** ** The adapters *)

Global Instance extends_preorder : PreOrder extends.
Proof.
  split.
  - intros s. exists []. by rewrite app_nil_r.
  - intros s1 s2 s3 [l1 H1] [l2 H2]. exists (l1 ++ l2). by rewrite H2, H1, app_assoc.
Qed.

Lemma monotone_ret {A} (a : A) : monotone (Eff.ret a).
Proof. intros s. reflexivity. Qed.

Lemma monotone_throw {A} msg : monotone (@Eff.throw A msg).
Proof. intros s. reflexivity. Qed.

Lemma monotone_call {A} ev (r : result A) : monotone (Eff.call ev r).
Proof. intros s. by exists [ev]. Qed.

Lemma monotone_push cs : monotone (Eff.push cs).
Proof. intros s. exists []. simpl. by rewrite app_nil_r. Qed.

Lemma monotone_get : monotone Eff.get_contacts.
Proof. intros s. reflexivity. Qed.

Lemma monotone_bind {A B} (m : Eff.M A) (k : A -> Eff.M B) :
  monotone m -> (forall a, monotone (k a)) -> monotone (Eff.bind m k).
Proof.
  intros Hm Hk s. unfold Eff.bind. specialize (Hm s).
  destruct (m s) as [s' [a|e]]; simpl in *; [|done].
  etrans; [exact Hm | apply Hk].
Qed.

Lemma monotone_try {A} (m : Eff.M A) handler :
  monotone m -> (forall e, monotone (handler e)) -> monotone (Eff.try_catch m handler).
Proof.
  intros Hm Hh s. unfold Eff.try_catch. specialize (Hm s).
  destruct (m s) as [s' [a|e]]; simpl in *; [done|].
  etrans; [exact Hm | apply Hh].
Qed.

Lemma monotone_paginate ev api left : forall after, monotone (paginate ev api left after).
Proof.
  induction left as [|left IH]; intros after; cbn [paginate].
  - apply monotone_ret.
  - apply monotone_bind; [apply monotone_call|]. intros page.
    apply monotone_bind; [apply monotone_push|]. intros _.
    destruct (after_truthy _); [apply IH | apply monotone_ret].
Qed.

Lemma monotone_lookup_all {V} ev (api : string -> result V) ids :
  forall m, monotone (lookup_all ev api ids m).
Proof.
  induction ids as [|i ids IH]; intros m; cbn [lookup_all].
  - apply monotone_ret.
  - apply monotone_bind; [|intros m'; apply IH].
    apply monotone_try; [|intros; apply monotone_ret].
    apply monotone_bind; [apply monotone_call | intros; apply monotone_ret].
Qed.

Lemma monotone_processCSVData host env sd ed : monotone (processCSVData host env sd ed).
Proof.
  apply monotone_try; [|intros; apply monotone_throw].
  apply monotone_bind; [apply monotone_call | intros; apply monotone_ret].
Qed.

Lemma starts_remote_extends s s' : starts_remote s -> extends s s' -> starts_remote s'.
Proof.
  intros (ev & rest & Ht & Hev) [l Hl]. exists ev, (rest ++ l).
  split; [|done]. by rewrite Hl, Ht.
Qed.

(** A listing of at least one page records its first request first. *)
Lemma paginate_starts ev api left s :
  Eff.trace s = [] -> (ev None = EvSearch None \/ ev None = EvGetPage None) ->
  starts_remote (paginate ev api (S left) None s).1.
Proof.
  intros Hs Hev. cbn [paginate]. unfold Eff.bind at 1. unfold Eff.call at 1.
  set (s1 := Eff.mkSt (Eff.trace s ++ [ev None]) (Eff.allContacts s)).
  assert (H1 : starts_remote s1).
  { exists (ev None), []. split; [|done]. unfold s1. simpl. by rewrite Hs. }
  destruct (api None) as [page|e]; [|done].
  eapply starts_remote_extends; [exact H1|].
  apply (monotone_bind (Eff.push (results page))); [apply monotone_push|].
  intros _. destruct (after_truthy _); [apply monotone_paginate | apply monotone_ret].
Qed.

Lemma fetch_contacts_starts env sd s :
  Eff.trace s = [] -> starts_remote (fetch_contacts env sd s).1.
Proof.
  intros Hs. unfold fetch_contacts.
  destruct sd as [d|]; [destruct (2025 <=? getFullYear d)|];
    try (apply paginate_starts; auto).
  unfold Eff.try_catch.
  pose proof (paginate_starts EvSearch (searchApi_doSearch env (getTime d)) 499 s Hs
                (or_introl eq_refl)) as H.
  destruct (paginate EvSearch _ 500 None s) as [s' [[]|e]]; [done|].
  simpl in H. eapply starts_remote_extends; [exact H | apply monotone_paginate].
Qed.

Lemma monotone_process_contacts host env sd ed :
  monotone (process_contacts host env sd ed).
Proof.
  unfold process_contacts.
  apply monotone_bind; [apply monotone_get|]. intros cs. cbv zeta.
  destruct (Nat.eqb _ 0).
  - apply monotone_bind; [apply monotone_processCSVData | intros; apply monotone_ret].
  - apply monotone_bind; [apply monotone_lookup_all|]. intros cm.
    apply monotone_bind; [apply monotone_lookup_all|]. intros om. apply monotone_ret.
Qed.

Lemma fetchAndProcess_starts host env sd ed :
  key_configured env = true ->
  starts_remote (fetchAndProcessHubSpotData host env sd ed Eff.initial).1.
Proof.
  intros Hk. unfold fetchAndProcessHubSpotData. rewrite Hk. cbn [negb].
  unfold Eff.try_catch, fetch_body, Eff.bind.
  pose proof (fetch_contacts_starts env sd Eff.initial eq_refl) as H.
  destruct (fetch_contacts env sd Eff.initial) as [s1 [[]|e]]; [|done].
  simpl in H. pose proof (monotone_process_contacts host env sd ed s1) as Hm.
  destruct (process_contacts host env sd ed s1) as [s2 [r|e]]; simpl in *;
    by eapply starts_remote_extends.
Qed.

Lemma missing_key_throws host env sd ed s :
  key_configured env = false ->
  fetchAndProcessHubSpotData host env sd ed s = (s, Err missing_key_message).
Proof. intros Hk. unfold fetchAndProcessHubSpotData. by rewrite Hk. Qed.

Lemma empty_qualified_uses_csv host env sd ed s1 :
  key_configured env = true ->
  fetch_contacts env sd Eff.initial = (s1, Ok tt) ->
  List.filter is_qualified (Eff.allContacts s1) = [] ->
  fetchAndProcessHubSpotData host env sd ed Eff.initial
  = (Eff.mkSt (Eff.trace s1 ++ [EvReadCsv]) (Eff.allContacts s1),
     match csvRecords env sd ed with
     | Ok accounts => Ok (Some (processAccountDataInternal host accounts))
     | Err _ => Ok None
     end).
Proof.
  intros Hk Hf Hq. unfold fetchAndProcessHubSpotData. rewrite Hk. cbn [negb].
  unfold Eff.try_catch, fetch_body, Eff.bind at 1. rewrite Hf.
  unfold process_contacts, Eff.bind at 1, Eff.get_contacts. rewrite Hq. cbn [length Nat.eqb].
  unfold Eff.bind at 1, processCSVData, Eff.try_catch, Eff.bind, Eff.call.
  by destruct (csvRecords env sd ed).
Qed.

(** A listing that fails is not a reason to read the file: the result is
    [null] and the flat-file adapter is not consulted. *)
Lemma transport_failure_returns_null host env sd ed s1 e :
  key_configured env = true ->
  fetch_contacts env sd Eff.initial = (s1, Err e) ->
  fetchAndProcessHubSpotData host env sd ed Eff.initial = (s1, Ok None).
Proof.
  intros Hk Hf. unfold fetchAndProcessHubSpotData. rewrite Hk. cbn [negb].
  unfold Eff.try_catch, fetch_body, Eff.bind at 1. by rewrite Hf.
Qed.

(** C6, amended: without a configured credential the call throws and asks
    nothing of either adapter; with one, the first request is a remote
    contact listing; and when the listing completes with no qualified
    (SQL/MQL) contact, the file is read after the remote requests and the
    result is the snapshot of the flat-file records if the file adapter
    delivers them, and null (neither a snapshot nor an error) if it
    throws. *)
Theorem remote_first_then_flat_file (host : Host) (env : Env)
    (startDate endDate : option JsDate) :
  (key_configured env = false ->
     forall s, fetchAndProcessHubSpotData host env startDate endDate s
               = (s, Err missing_key_message))
  /\ (key_configured env = true ->
        starts_remote (fetchAndProcessHubSpotData host env startDate endDate Eff.initial).1)
  /\ (key_configured env = true ->
        forall s1,
          fetch_contacts env startDate Eff.initial = (s1, Ok tt) ->
          List.filter is_qualified (Eff.allContacts s1) = [] ->
          fetchAndProcessHubSpotData host env startDate endDate Eff.initial
          = (Eff.mkSt (Eff.trace s1 ++ [EvReadCsv]) (Eff.allContacts s1),
             match csvRecords env startDate endDate with
             | Ok accounts => Ok (Some (processAccountDataInternal host accounts))
             | Err _ => Ok None
             end)).
Proof.
  split; [|split].
  - intros Hk s. by apply missing_key_throws.
  - by apply fetchAndProcess_starts.
  - intros Hk s1. by apply empty_qualified_uses_csv.
Qed.

Lemma remote_first_then_flat_file_witness :
  fetchAndProcessHubSpotData Sample.host (quiet_portal None) None None Eff.initial
  = (Eff.initial, Err missing_key_message)
  /\ starts_remote
       (fetchAndProcessHubSpotData Sample.host (quiet_portal (Some "pat-na1")) None None
          Eff.initial).1
  /\ fetchAndProcessHubSpotData Sample.host (quiet_portal (Some "pat-na1")) None None
       Eff.initial
     = (Eff.mkSt [EvGetPage None; EvReadCsv] [sample_contact],
        Ok (Some (processAccountDataInternal Sample.host seven_debtors)))
  /\ fetchAndProcessHubSpotData Sample.host (fileless_portal (Some "pat-na1")) None None
       Eff.initial
     = (Eff.mkSt [EvGetPage None; EvReadCsv] [sample_contact], Ok None).
Proof.
  split; [|split; [|split]].
  - apply (remote_first_then_flat_file Sample.host (quiet_portal None) None None).
    reflexivity.
  - apply (remote_first_then_flat_file Sample.host (quiet_portal (Some "pat-na1")) None None).
    reflexivity.
  - apply (proj2 (proj2 (remote_first_then_flat_file Sample.host
                           (quiet_portal (Some "pat-na1")) None None)) eq_refl
             (Eff.mkSt [EvGetPage None] [sample_contact]));
      reflexivity.
  - apply (proj2 (proj2 (remote_first_then_flat_file Sample.host
                           (fileless_portal (Some "pat-na1")) None None)) eq_refl
             (Eff.mkSt [EvGetPage None] [sample_contact]));
      reflexivity.
Defined.

(** C6 as stated fails: with a configured credential, a listing that
    completes with no qualified contact and a file that cannot be read, the
    call returns null, because the flat-file adapter is called inside the
    try block whose handler returns null. *)
Lemma no_snapshot_without_the_file : ~ snapshot_when_no_lead_qualifies.
Proof.
  intros H.
  destruct (H Sample.host (fileless_portal (Some "pat-na1")) None None
              (Eff.mkSt [EvGetPage None] [sample_contact]) eq_refl eq_refl eq_refl)
    as [p Hp].
  vm_compute in Hp. discriminate Hp.
Qed.

(** * Further properties *)

(** ** Currency text *)

Lemma digit_char_facts c :
  Js.is_digit c = true ->
  Js.is_space c = false /\ Ascii.eqb c "$" = false /\ Ascii.eqb c "," = false
  /\ c <> "-"%char /\ c <> "+"%char /\ c <> "I"%char /\ c <> "."%char
  /\ Ascii.eqb c "e" = false /\ Ascii.eqb c "E" = false.
Proof.
  destruct c as [[] [] [] [] [] [] [] []]; vm_compute; intros H;
    try discriminate H; repeat split; discriminate.
Qed.

Lemma digit_val_pretty d :
  (d < 10)%N -> Num.digit_val (pretty_N_char d) = Some (Z.of_N d)
                /\ Js.is_digit (pretty_N_char d) = true.
Proof.
  intros H.
  assert (d = 0 \/ d = 1 \/ d = 2 \/ d = 3 \/ d = 4 \/ d = 5 \/ d = 6 \/ d = 7
          \/ d = 8 \/ d = 9)%N as Hd by lia.
  repeat destruct Hd as [->|Hd]; try subst d; by vm_compute.
Qed.

Lemma scan_digits_pretty_go x : forall s acc n,
  exists k, Num.scan_digits (pretty_N_go x s) acc n
            = Num.scan_digits s (acc * 10 ^ Z.of_nat k + Z.of_N x) (n + k)%nat
            /\ ((0 < x)%N -> (0 < k)%nat).
Proof.
  induction (N.lt_wf_0 x) as [x _ IH]; intros s acc n.
  destruct (decide (x = 0)%N) as [->|Hx].
  - exists 0%nat. rewrite pretty_N_go_0. split; [|lia].
    f_equal; [lia | lia].
  - rewrite pretty_N_go_step by lia.
    assert (Hlt : (x `div` 10 < x)%N) by (apply N.div_lt; lia).
    destruct (IH (x `div` 10)%N Hlt
                (String (pretty_N_char (x `mod` 10)) s) acc n) as (k & Hk & _).
    exists (S k). split; [|lia]. rewrite Hk. cbn [Num.scan_digits].
    destruct (digit_val_pretty (x `mod` 10)%N) as [-> _]; [apply N.mod_lt; lia|].
    f_equal; [|lia].
    rewrite Nat2Z.inj_succ, Z.pow_succ_r by lia.
    assert (Hdm : (x = 10 * (x `div` 10) + x `mod` 10)%N) by (apply N.div_mod; lia).
    assert (Z.of_N x = 10 * Z.of_N (x `div` 10) + Z.of_N (x `mod` 10)) by lia.
    lia.
Qed.

Lemma pretty_go_head x : forall s,
  (0 < x)%N -> exists c r, pretty_N_go x s = String c r /\ Js.is_digit c = true.
Proof.
  induction (N.lt_wf_0 x) as [x _ IH]; intros s Hx.
  rewrite pretty_N_go_step by done.
  destruct (decide (x `div` 10 = 0)%N) as [E|E].
  - rewrite E, pretty_N_go_0. eexists _, _. split; [done|].
    apply digit_val_pretty, N.mod_lt. lia.
  - apply IH; [apply N.div_lt; lia | by apply N.neq_0_lt_0].
Qed.

Lemma strip_pretty_go x : forall s,
  Js.strip_currency (pretty_N_go x s) = pretty_N_go x (Js.strip_currency s).
Proof.
  induction (N.lt_wf_0 x) as [x _ IH]; intros s.
  destruct (decide (x = 0)%N) as [->|Hx]; [by rewrite !pretty_N_go_0|].
  rewrite (pretty_N_go_step x s), (pretty_N_go_step x (Js.strip_currency s)) by lia.
  rewrite IH by (apply N.div_lt; lia). f_equal.
  destruct (digit_val_pretty (x `mod` 10)%N) as [_ Hd]; [apply N.mod_lt; lia|].
  destruct (digit_char_facts _ Hd) as (Hsp & H1 & H2 & _).
  cbn [Js.strip_currency]. rewrite H1, H2. cbn [orb]. by rewrite Hsp.
Qed.

Lemma trimStart_cons c s : Js.is_space c = false -> Js.trimStart (String c s) = String c s.
Proof. intros H. cbn [Js.trimStart]. by rewrite H. Qed.

(** A run of digits that is the whole text parses to its value. *)
Lemma parseFloat_digits (sg : bool) c r v k :
  Js.is_digit c = true ->
  Num.scan_digits (String c r) 0 0 = (v, k, EmptyString) -> (0 < k)%nat ->
  Num.parseFloat ((if sg then "-" else EmptyString) +:+ String c r)
  = Num.of_literal sg (inject_Z v).
Proof.
  intros Hc Hscan Hk.
  destruct (digit_char_facts c Hc) as (Hsp & _ & _ & Hm & Hp & HI & _).
  unfold Num.parseFloat.
  assert (Hsign : Num.scan_sign (Js.trimStart ((if sg then "-" else EmptyString) +:+ String c r))
                  = (sg, String c r)).
  { destruct sg.
    - change ("-" +:+ String c r) with (String "-" (String c r)).
      by rewrite trimStart_cons.
    - change (EmptyString +:+ String c r) with (String c r).
      rewrite trimStart_cons by done. unfold Num.scan_sign.
      destruct c as [[] [] [] [] [] [] [] []]; try done; by vm_compute in Hc. }
  rewrite Hsign.
  assert (Hinf : Js.startsWith "Infinity" (String c r) = false).
  { cbn [Js.startsWith]. destruct (Ascii.eqb_spec "I" c) as [E|E]; [|done].
    by destruct HI. }
  rewrite Hinf. unfold Num.scan_decimal. rewrite Hscan.
  replace (Nat.eqb (k + 0) 0) with false by (symmetry; apply Nat.eqb_neq; lia).
  cbn [Num.scan_exponent]. unfold Num.scale10. cbn [Z.of_nat Z.sub Z.opp Z.add Z.leb Z.compare].
  by rewrite Z.pow_0_r, Z.mul_1_r.
Qed.

(** X1: Round trip: for every integer z with |z| <= 2^53, parseCurrency of
    the decimal numeral of z (with a leading minus sign when negative) is z. *)
Theorem parseCurrency_of_decimal_numeral (z : Z) :
  Z.abs z <= 2 ^ 53 ->
  parseCurrency (pretty z) = Fin (inject_Z z).
Proof.
  intros Hz.
  assert (Hlit : forall p : positive, Z.pos p <= 2 ^ 53 -> forall sg : bool,
            parseCurrency ((if sg then "-" else EmptyString) +:+ pretty (N.pos p))
            = Fin (if sg then - inject_Z (Z.pos p) else inject_Z (Z.pos p))).
  { intros p Hp sg. unfold pretty, pretty_N. rewrite decide_False by done.
    destruct (pretty_go_head (N.pos p) EmptyString) as (c & r & Hcr & Hc); [lia|].
    destruct (scan_digits_pretty_go (N.pos p) EmptyString 0 0%nat) as (k & Hk & Hpos).
    rewrite Hcr in Hk.
    unfold parseCurrency.
    assert (Hstrip : Js.strip_currency ((if sg then "-" else EmptyString) +:+ pretty_N_go (N.pos p) EmptyString)
                     = (if sg then "-" else EmptyString) +:+ String c r).
    { destruct sg.
      - change ("-" +:+ pretty_N_go (N.pos p) EmptyString)
          with (String "-" (pretty_N_go (N.pos p) EmptyString)).
        change (Js.strip_currency (String "-" ?x)) with (String "-" (Js.strip_currency x)).
        rewrite strip_pretty_go. change (Js.strip_currency EmptyString) with EmptyString.
        by rewrite Hcr.
      - change (EmptyString +:+ ?x) with x.
        rewrite strip_pretty_go. change (Js.strip_currency EmptyString) with EmptyString.
        by rewrite Hcr. }
    rewrite Hstrip.
    replace (Js.truthy _) with true.
    2:{ destruct sg; [done|]. change (EmptyString +:+ ?x) with x. by rewrite Hcr. }
    cbn [negb].
    rewrite (parseFloat_digits sg c r (Z.of_N (N.pos p)) k Hc); [| |lia].
    2:{ rewrite Hk. cbn [Num.scan_digits]. by rewrite Z.mul_0_l, Z.add_0_l, Nat.add_0_l. }
    unfold Num.of_literal.
    assert (Ho : Qle_bool Num.overflow_bound (inject_Z (Z.of_N (N.pos p))) = false).
    { apply not_true_is_false. intros E%Qle_bool_iff.
      unfold Num.overflow_bound in E. rewrite <- Zle_Qle in E.
      assert (2 ^ 53 < 2 ^ 1024 - 2 ^ 970) by (vm_compute; reflexivity). lia. }
    assert (Hu : Qle_bool (inject_Z (Z.of_N (N.pos p))) Num.underflow_bound = false).
    { apply not_true_is_false. intros E%Qle_bool_iff.
      unfold Num.underflow_bound, Qle in E. cbn [Qnum Qden inject_Z] in E.
      assert (1 < Z.pos (Z.to_pos (2 ^ 1075))) by (vm_compute; reflexivity). nia. }
    rewrite Ho, Hu. by destruct sg. }
  destruct z as [|p|p].
  - by vm_compute.
  - exact (Hlit p Hz false).
  - change (pretty (Z.neg p)) with ("-" +:+ pretty (N.pos p)).
    rewrite (Hlit p Hz true). done.
Qed.

Lemma parseCurrency_of_decimal_numeral_witness :
  Z.abs (-12345) <= 2 ^ 53
  /\ parseCurrency (pretty (-12345)) = Fin (inject_Z (-12345)).
Proof.
  assert (H : Z.abs (-12345) <= 2 ^ 53) by (vm_compute; discriminate).
  split; [exact H | exact (parseCurrency_of_decimal_numeral (-12345) H)].
Defined.

Lemma inject_nat_succ n :
  (inject_Z (Z.of_nat (S n)) == inject_Z (Z.of_nat n) + 1)%Q.
Proof. rewrite Nat2Z.inj_succ. unfold Z.succ. by rewrite inject_Z_plus. Qed.

Lemma sum_within lo hi l : forall acc a,
  acc = Fin a -> Forall (within lo hi) l ->
  exists q, fold_left (fun x v => Num.add x v) l acc = Fin q
            /\ (a + inject_Z (Z.of_nat (length l)) * lo <= q)%Q
            /\ (q <= a + inject_Z (Z.of_nat (length l)) * hi)%Q.
Proof.
  induction l as [|s l IH]; intros acc a -> Hall.
  - exists a. cbn [fold_left length]. change (inject_Z (Z.of_nat 0)) with 0%Q.
    split; [done|]. split; lra.
  - apply Forall_cons in Hall as [(q & -> & Hq) Hall].
    destruct (IH (Num.add (Fin a) (Fin q)) (a + q)%Q eq_refl Hall) as (r & Hr & H1 & H2).
    exists r. split; [exact Hr|].
    cbn [length]. rewrite inject_nat_succ. split; nra.
Qed.

Lemma mean_within lo hi arr :
  (0 < length arr)%nat -> Forall (within lo hi) arr ->
  within lo hi (Num.div (fold_left (fun acc val => Num.add acc val) arr Num.zero)
                        (Num.of_nat (length arr))).
Proof.
  intros Hlen Hall.
  destruct (sum_within lo hi arr Num.zero 0%Q eq_refl Hall) as (q & -> & H1 & H2).
  unfold Num.div, Num.of_nat, Num.of_Z.
  assert (Hn : (0 < inject_Z (Z.of_nat (length arr)))%Q).
  { replace 0%Q with (inject_Z 0) by done. rewrite <- Zlt_Qlt. lia. }
  destruct (Qeq_bool _ 0) eqn:E.
  { apply Qeq_bool_iff in E. rewrite E in Hn. by apply Qlt_irrefl in Hn. }
  eexists. split; [done|]. split.
  - apply Qle_shift_div_l; [done|]. lra.
  - apply Qle_shift_div_r; [done|]. lra.
Qed.


Lemma averaged_within s :
  averaged s = true -> within 0 (inject_Z (10 ^ 12)) s.
Proof.
  unfold averaged. intros H. apply andb_true_iff in H as [H H3].
  apply andb_true_iff in H as [H1 H2]. destruct s; try discriminate.
  exists q. split; [done|]. apply Qltb_true in H1. unfold Num.lt, Num.abs, Num.of_Z in H3.
  apply Qltb_true in H3. split; [lra|].
  pose proof (Qle_Qabs q). lra.
Qed.

Lemma main_fold_validSales_within data : forall st,
  Forall (within 0 (inject_Z (10 ^ 12))) (validSales st) ->
  Forall (within 0 (inject_Z (10 ^ 12))) (validSales (fold_left main_step data st)).
Proof.
  induction data as [|row data IH]; intros st Hst; [done|]. cbn [fold_left].
  apply IH. unfold main_step. destruct (rejected _); [done|]. cbn [validSales].
  destruct (averaged _) eqn:E; [|done].
  apply Forall_app. split; [done|]. apply Forall_cons. split; [|done].
  by apply averaged_within.
Qed.

(** X3: For every input, averageDealSize of the snapshot is a finite number
    between 0 and 10^12. *)
Theorem averageDealSize_range (host : Host) (data : list AccountData) :
  within 0 (inject_Z (10 ^ 12)) (averageDealSize (processAccountDataInternal host data)).
Proof.
  cbn [averageDealSize processAccountDataInternal]. unfold main_pass.
  pose proof (main_fold_validSales_within data main_init (Forall_nil_2 _)) as H.
  destruct (validSales (fold_left main_step data main_init)) as [|s l] eqn:E.
  - exists 0%Q. split; [done|]. split; [lra|done].
  - unfold calculateAverage. cbn [length Nat.eqb].
    apply mean_within; [simpl; lia | done].
Qed.


Lemma sort_insert_filter_other {A} (cmp : A -> A -> number) (p : A -> bool) x l :
  p x = false -> List.filter p (sort_insert cmp x l) = List.filter p l.
Proof.
  intros Hx. induction l as [|y ys IH]; cbn [sort_insert List.filter].
  - by rewrite Hx.
  - destruct (Num.gt (cmp x y) Num.zero); cbn [List.filter].
    + by rewrite IH.
    + by rewrite Hx.
Qed.

Lemma sort_insert_filter_tie v x l :
  has_sale v x = true ->
  List.filter (has_sale v) (sort_insert by_sales_desc x l) = x :: List.filter (has_sale v) l.
Proof.
  intros Hx. induction l as [|y ys IH]; cbn [sort_insert List.filter].
  - by rewrite Hx.
  - destruct (Num.gt (by_sales_desc x y) Num.zero) eqn:E; cbn [List.filter].
    + rewrite IH. rewrite by_sales_desc_gt in E. apply Qltb_true in E.
      assert (Hy : has_sale v y = false).
      { unfold has_sale in *. apply Qeq_bool_iff in Hx.
        apply not_true_is_false. intros Hy%Qeq_bool_iff. lra. }
      by rewrite Hy.
    + by rewrite Hx.
Qed.

(** X4: The ranking sort is stable: records with the same parsed sales value
    appear in the ranked list in their input order, and those of them in
    topPerformingAccounts are the first ones of the input. *)
Theorem ranking_is_stable (data : list AccountData) (v : Q) :
  List.filter (has_sale v) (sortedAccounts_of data) = List.filter (has_sale v) data
  /\ List.filter (has_sale v) (topPerforming_of data)
       `prefix_of` List.filter (has_sale v) data.
Proof.
  assert (H : List.filter (has_sale v) (sortedAccounts_of data) = List.filter (has_sale v) data).
  { unfold sortedAccounts_of. induction data as [|x l IH]; [done|].
    cbn [js_sort fold_right List.filter]. fold (js_sort by_sales_desc l).
    destruct (has_sale v x) eqn:E.
    - by rewrite sort_insert_filter_tie, IH.
    - by rewrite sort_insert_filter_other, IH. }
  split; [done|]. rewrite <- H. unfold topPerforming_of, slice_first.
  exists (List.filter (has_sale v) (drop 5 (sortedAccounts_of data))).
  by rewrite <- List.filter_app, take_drop.
Qed.

(** X5: topPerformingAccounts holds min(5, n) of the n input records, in
    descending order of parsed sales, and every record left out has parsed
    sales at most that of every record listed (the input is a permutation of
    the list followed by the rest). *)
Theorem top_performing_are_the_best (host : Host) (data : list AccountData) :
  let top := topPerformingAccounts (processAccountDataInternal host data) in
  exists rest,
    Permutation data (top ++ rest)
    /\ length top = Nat.min 5 (length data)
    /\ (forall a b, a ∈ top -> b ∈ rest -> (sale_of b <= sale_of a)%Q)
    /\ StronglySorted desc top.
Proof.
  cbn [topPerformingAccounts processAccountDataInternal]. unfold topPerforming_of, slice_first.
  pose proof (sortedAccounts_sorted data) as Hs.
  pose proof (js_sort_perm by_sales_desc data) as Hperm. fold (sortedAccounts_of data) in Hperm.
  rewrite <- (take_drop 5 (sortedAccounts_of data)) in Hs, Hperm.
  exists (drop 5 (sortedAccounts_of data)). split; [by symmetry|]. split; [|split].
  - rewrite length_take. unfold sortedAccounts_of. rewrite js_sort_length. lia.
  - intros a b Ha Hb. exact (StronglySorted_app_1_elem_of _ _ _ _ _ Hs Ha Hb).
  - by apply StronglySorted_app_1_l in Hs.
Qed.

Lemma is_non_negative_negb a : is_non_negative a = negb (is_negative a).
Proof.
  unfold is_non_negative, is_negative. rewrite parseCurrency_sale_of.
  unfold Num.ge, Num.le, Num.lt, Num.zero, Num.Qltb. by rewrite negb_involutive.
Qed.

Lemma filter_lengths {A} (p q : A -> bool) l :
  (forall a, q a = negb (p a)) ->
  (length (List.filter p l) + length (List.filter q l) = length l)%nat.
Proof.
  intros H. induction l as [|a l IH]; [done|]. cbn [List.filter]. rewrite H.
  destruct (p a); cbn [negb length]; lia.
Qed.

Lemma slice_last_length {A} n (l : list A) : length (slice_last n l) = Nat.min n (length l).
Proof. unfold slice_last. rewrite length_drop. lia. Qed.

Lemma elem_of_slice_last {A} n (l : list A) x : x ∈ slice_last n l -> x ∈ l.
Proof.
  unfold slice_last. intros H. rewrite <- (take_drop (length l - n) l).
  apply elem_of_app. by right.
Qed.

(** X6: leastPerformingAccounts holds exactly min(5, n) records for an input
    of n records, and each of them is a record of the input. *)
Theorem least_performing_length_and_origin (host : Host) (data : list AccountData) :
  let least := leastPerformingAccounts (processAccountDataInternal host data) in
  length least = Nat.min 5 (length data)
  /\ forall a, a ∈ least -> a ∈ data.
Proof.
  cbn [leastPerformingAccounts processAccountDataInternal]. unfold leastPerforming_of.
  set (sorted := sortedAccounts_of data).
  assert (Hlen : length sorted = length data) by apply js_sort_length.
  pose proof (filter_lengths is_negative is_non_negative sorted is_non_negative_negb) as Hsum.
  assert (Hin : forall p a, a ∈ List.filter p sorted -> a ∈ data).
  { intros p a Ha. apply list_elem_of_In, filter_In in Ha as [Ha _].
    apply list_elem_of_In in Ha. unfold sorted, sortedAccounts_of in Ha.
    by rewrite (js_sort_perm by_sales_desc data) in Ha. }
  split.
  - destruct (_ && _) eqn:E.
    + apply andb_true_iff in E as [E1 E2]. apply Nat.ltb_lt in E1.
      rewrite length_app, !length_rev, !slice_last_length in *. lia.
    + rewrite length_rev, slice_last_length in *.
      apply andb_false_iff in E as [E|E]; [apply Nat.ltb_ge in E|apply Nat.ltb_ge in E]; lia.
  - intros a. destruct (_ && _).
    + intros [Ha|Ha]%elem_of_app;
        apply list_elem_of_In, in_rev, list_elem_of_In, elem_of_slice_last in Ha;
        by eapply Hin.
    + intros Ha. apply list_elem_of_In, in_rev, list_elem_of_In, elem_of_slice_last in Ha.
      by eapply Hin.
Qed.

(** ** Totals *)

Lemma main_fold_revenue data : forall st,
  totalSalesValue (fold_left main_step data st)
  = fold_left (fun acc v => Num.add acc v)
      (map (fun r => parseCurrency (Total_Sales r)) (List.filter valid data))
      (totalSalesValue st).
Proof.
  induction data as [|row data IH]; intros st; [done|]. cbn [fold_left List.filter].
  rewrite IH. unfold valid at 2, main_step.
  destruct (rejected (parseCurrency (Total_Sales row))); done.
Qed.

(** X7: totalAccounts is the length of the input (rejected records
    included), totalRevenue is the left-to-right sum of the parsed sales of
    exactly the records the first pass does not reject, and it is finite. *)
Theorem totalRevenue_sums_the_valid_sales (host : Host) (data : list AccountData) :
  let p := processAccountDataInternal host data in
  totalAccounts p = length data
  /\ totalRevenue p
     = sum_numbers (map (fun r => parseCurrency (Total_Sales r)) (List.filter valid data))
  /\ Num.isFinite (totalRevenue p) = true.
Proof.
  cbn [totalAccounts totalRevenue processAccountDataInternal]. unfold main_pass.
  rewrite main_fold_revenue. split; [done|]. split; [done|].
  cbn [totalSalesValue main_init].
  generalize (List.filter valid data). intros l.
  assert (H : forall acc, Num.isFinite acc = true ->
            Num.isFinite (fold_left (fun a v => Num.add a v)
              (map (fun r => parseCurrency (Total_Sales r)) l) acc) = true).
  { induction l as [|r l IH]; intros acc Hacc; [done|]. cbn [map fold_left].
    apply IH. rewrite parseCurrency_sale_of. by destruct acc. }
  by apply H.
Qed.

(** ** States *)

Lemma state_of_geo_key row k : state_of row = Some k -> geo_key row = k.
Proof.
  unfold state_of, geo_key. destruct (Address row) as [|c s]; [done|].
  cbn [Js.or_else Js.truthy]. by intros ->.
Qed.

Lemma lead_count_upsert k k' s (m : gmap string LeadBucket) :
  proto_member k = false ->
  lead_count (upsert k (mkLead 0 Num.zero) (add_lead s) m) k'
  = (lead_count m k' + if String.eqb k k' then 1 else 0)%nat.
Proof.
  intros Hk. unfold lead_count. rewrite lookup_upsert, Hk.
  destruct (String.eqb_spec k k') as [->|Hne].
  - rewrite decide_True by done. destruct (m !! k'); simpl; lia.
  - rewrite decide_False by done. lia.
Qed.

Lemma total_leads_upsert k s (m : gmap string LeadBucket) :
  proto_member k = false ->
  total_leads (upsert k (mkLead 0 Num.zero) (add_lead s) m) = S (total_leads m).
Proof.
  intros Hproto. unfold total_leads, upsert. rewrite Hproto.
  destruct (m !! k) as [b|] eqn:Hk; simpl.
  - rewrite <- insert_delete_eq.
    rewrite map_fold_insert_L; [|intros; lia|apply lookup_delete_eq].
    rewrite (map_fold_delete_L _ _ k b m); [|intros; lia|done].
    simpl. lia.
  - rewrite map_fold_insert_L; [|intros; lia|done]. simpl. lia.
Qed.

Lemma geo_fold_counts data : forall m k,
  lead_count (fold_left geo_step data m) k
  = (lead_count m k + count_of (fun r => String.eqb (geo_key r) k) data)%nat.
Proof.
  induction data as [|row data IH]; intros m k; cbn [fold_left].
  - unfold count_of. simpl. lia.
  - rewrite IH, count_of_cons. unfold geo_step.
    rewrite lead_count_upsert by apply geo_key_not_proto.
    destruct (String.eqb (geo_key row) k); lia.
Qed.

Lemma geo_fold_total data : forall m,
  total_leads (fold_left geo_step data m) = (total_leads m + length data)%nat.
Proof.
  induction data as [|row data IH]; intros m; cbn [fold_left length]; [lia|].
  rewrite IH. unfold geo_step. rewrite total_leads_upsert by apply geo_key_not_proto. lia.
Qed.

Lemma main_fold_states data : forall st k,
  bucket_accounts (st_topStates (fold_left main_step data st)) k
  = (bucket_accounts (st_topStates st) k
     + count_of (fun r => valid r && bool_decide (state_of r = Some k)) data)%nat.
Proof.
  induction data as [|row data IH]; intros st k; cbn [fold_left].
  - unfold count_of. simpl. lia.
  - rewrite IH, count_of_cons.
    destruct (valid row) eqn:Hv; cbn [andb].
    + unfold main_step. unfold valid in Hv. apply negb_true_iff in Hv. rewrite Hv.
      cbn [st_topStates]. fold (state_of row).
      destruct (state_of row) as [st'|] eqn:Es.
      * rewrite bucket_accounts_upsert.
        rewrite (stateMatch_not_proto _ _ Es). cbn [negb andb].
        destruct (String.eqb_spec st' k) as [->|Hne].
        -- rewrite bool_decide_eq_true_2 by done. lia.
        -- rewrite bool_decide_eq_false_2 by congruence. lia.
      * rewrite bool_decide_eq_false_2 by done. lia.
    + rewrite main_step_rejected by done. lia.
Qed.

Lemma count_of_le p q data :
  (forall r, p r = true -> q r = true) -> (count_of p data <= count_of q data)%nat.
Proof.
  intros H. unfold count_of. induction data as [|r l IH]; [done|]. cbn [List.filter].
  destruct (p r) eqn:E.
  - rewrite (H r E). simpl. lia.
  - destruct (q r); simpl; lia.
Qed.

Lemma state_match_shape s : forall prev st,
  state_match prev s = Some st ->
  exists pre a b tail,
    s = pre +:+ String a (String b tail)
    /\ st = String a (String b EmptyString)
    /\ Js.is_upper a = true /\ Js.is_upper b = true
    /\ zip_tail tail = true.
Proof.
  induction s as [|x s IH]; intros prev st; [done|].
  cbn [state_match]. destruct s as [|y rest]; [done|].
  destruct (_ && _) eqn:E.
  - intros [= <-]. repeat (apply andb_true_iff in E as [E ?]).
    by exists EmptyString, x, y, rest.
  - intros H. destruct (IH _ _ H) as (pre & a & b & tail & -> & -> & Ha & Hb & Hz).
    by exists (String x pre), a, b, tail.
Qed.

(** X8: geographicDistribution counts every input record exactly once (its
    lead counts sum to the input length, each key counting the records filed
    under it); topStates counts under a state the non-rejected records whose
    address carries that state, never more than geographicDistribution does,
    and has no accounts under Unknown. *)
Theorem state_rollups_agree (host : Host) (data : list AccountData) :
  let p := processAccountDataInternal host data in
  total_leads (geographicDistribution p) = length data
  /\ (forall k, lead_count (geographicDistribution p) k
               = count_of (fun r => String.eqb (geo_key r) k) data)
  /\ (forall k, bucket_accounts (topStates p) k
               = count_of (fun r => valid r && bool_decide (state_of r = Some k)) data)
  /\ (forall k, (bucket_accounts (topStates p) k
                 <= lead_count (geographicDistribution p) k)%nat)
  /\ bucket_accounts (topStates p) "Unknown" = 0%nat.
Proof.
  cbn [geographicDistribution topStates processAccountDataInternal]. unfold main_pass.
  assert (Hst : forall k, bucket_accounts (st_topStates (fold_left main_step data main_init)) k
                = count_of (fun r => valid r && bool_decide (state_of r = Some k)) data).
  { intros k. by rewrite main_fold_states. }
  assert (Hgeo : forall k, lead_count (fold_left geo_step data ∅) k
                 = count_of (fun r => String.eqb (geo_key r) k) data).
  { intros k. by rewrite geo_fold_counts. }
  split. { rewrite geo_fold_total. unfold total_leads. by rewrite map_fold_empty. }
  split; [done|]. split; [done|]. split.
  - intros k. rewrite Hst, Hgeo. apply count_of_le. intros r Hr.
    apply andb_true_iff in Hr as [_ Hr]. apply bool_decide_eq_true in Hr.
    apply state_of_geo_key in Hr. by apply String.eqb_eq.
  - rewrite Hst. unfold count_of.
    assert (H : forall r, valid r && bool_decide (state_of r = Some "Unknown") = false).
    { intros r. apply andb_false_iff. right. apply bool_decide_eq_false.
      unfold state_of, stateMatch. intros H.
      by destruct (state_match_shape _ _ _ H) as (? & ? & ? & ? & _ & ? & _). }
    clear Hst Hgeo. induction data as [|r l IH]; [done|].
    cbn [List.filter]. rewrite (H r). exact IH.
Qed.

Lemma last_char_app p x : x <> EmptyString -> last_char (p +:+ x) = last_char x.
Proof.
  intros Hx. induction p as [|c p IH]; [done|].
  change (String c p +:+ x) with (String c (p +:+ x)). cbn [last_char].
  destruct (p +:+ x) eqn:E; [|done].
  destruct p; [|done]. by destruct x.
Qed.

Lemma all_chars_app p x y : all_chars p (x +:+ y) = all_chars p x && all_chars p y.
Proof.
  induction x as [|c x IH]; [done|].
  change (String c x +:+ y) with (String c (x +:+ y)). cbn [all_chars].
  by rewrite IH, andb_assoc.
Qed.

Lemma digits_then_split n : forall s rest,
  digits_then n s = Some rest ->
  exists d, s = d +:+ rest /\ all_chars Js.is_digit d = true /\ String.length d = n.
Proof.
  induction n as [|n IH]; intros s rest; cbn [digits_then].
  - intros [= ->]. by exists EmptyString.
  - destruct s as [|c s]; [done|]. destruct (Js.is_digit c) eqn:Hc; [|done].
    intros H. destruct (IH _ _ H) as (d & -> & Hd & Hlen).
    exists (String c d). cbn [all_chars String.length]. rewrite Hc, Hd, Hlen. done.
Qed.

Lemma trimStart_suffix s :
  exists p, s = p +:+ Js.trimStart s /\ all_chars Js.is_space p = true.
Proof.
  induction s as [|c s (p & IH & Hp)]; [by exists EmptyString|].
  cbn [Js.trimStart]. destruct (Js.is_space c) eqn:E.
  - exists (String c p). cbn [all_chars]. rewrite E, Hp.
    change (String c p +:+ ?x) with (String c (p +:+ x)). by rewrite <- IH.
  - by exists EmptyString.
Qed.

Lemma all_chars_impl (p q : ascii -> bool) s :
  (forall c, p c = true -> q c = true) -> all_chars p s = true -> all_chars q s = true.
Proof.
  intros H. induction s as [|c s IH]; [done|]. cbn [all_chars].
  intros [Hc Hs]%andb_true_iff. by rewrite (H c Hc), IH.
Qed.

Lemma digits_last d :
  all_chars Js.is_digit d = true -> d <> EmptyString ->
  exists c, last_char d = Some c /\ Js.is_digit c = true.
Proof.
  induction d as [|c d IH]; [done|]. cbn [all_chars last_char].
  intros [Hc Hd]%andb_true_iff _. destruct d as [|c' d']; [by exists c|].
  by apply IH.
Qed.

Lemma append_empty_r s : s +:+ EmptyString = s.
Proof. induction s as [|c s IH]; [done|]. change (String c s +:+ EmptyString) with (String c (s +:+ EmptyString)). by rewrite IH. Qed.

Lemma append_not_empty x y : y <> EmptyString -> x +:+ y <> EmptyString.
Proof. intros Hy. destruct x; [done|]. discriminate. Qed.

(** [\s*\d{5}(-\d{4})?$] accepts only ZIP characters and ends in a digit. *)
Lemma zip_body_shape t :
  match digits_then 5 (Js.trimStart t) with
  | Some EmptyString => true
  | Some (String "-" r) =>
      match digits_then 4 r with Some EmptyString => true | _ => false end
  | _ => false
  end = true ->
  all_chars zip_char t = true
  /\ exists c, last_char t = Some c /\ Js.is_digit c = true.
Proof.
  destruct (trimStart_suffix t) as (p1 & Ht & Hp1).
  destruct (digits_then 5 (Js.trimStart t)) as [rest|] eqn:E5; [|done].
  destruct (digits_then_split _ _ _ E5) as (d5 & Hd5 & Hall5 & Hlen5).
  assert (Hz1 : all_chars zip_char p1 = true).
  { eapply all_chars_impl; [|exact Hp1]. intros c Hc. unfold zip_char.
    rewrite Hc. by rewrite orb_true_r. }
  assert (Hz5 : all_chars zip_char d5 = true).
  { eapply all_chars_impl; [|exact Hall5]. intros c Hc. unfold zip_char. by rewrite Hc. }
  assert (Hne5 : d5 <> EmptyString) by (intros ->; discriminate).
  rewrite Ht, Hd5.
  destruct rest as [|c r].
  - intros _. rewrite append_empty_r. split.
    + by rewrite all_chars_app, Hz1, Hz5.
    + rewrite last_char_app by done. by apply digits_last.
  - destruct (Ascii.eqb_spec c "-") as [->|Hne].
    2:{ destruct c as [[] [] [] [] [] [] [] []]; done. }
    destruct (digits_then 4 r) as [[|]|] eqn:E4; try done.
    destruct (digits_then_split _ _ _ E4) as (d4 & Hd4 & Hall4 & Hlen4).
    intros _. rewrite append_empty_r in Hd4. subst r.
    assert (Hz4 : all_chars zip_char d4 = true).
    { eapply all_chars_impl; [|exact Hall4]. intros c Hc. unfold zip_char. by rewrite Hc. }
    assert (Hne4 : d4 <> EmptyString) by (intros ->; discriminate).
    split.
    + rewrite !all_chars_app. cbn [all_chars]. by rewrite Hz1, Hz5, Hz4.
    + rewrite last_char_app by (apply append_not_empty; discriminate).
      rewrite last_char_app by discriminate.
      change (String "-" d4) with ("-" +:+ d4). rewrite last_char_app by done.
      by apply digits_last.
Qed.

Lemma zip_tail_shape s :
  zip_tail s = true ->
  all_chars zip_char s = true
  /\ exists c, last_char s = Some c /\ Js.is_digit c = true.
Proof.
  unfold zip_tail. destruct s as [|c r]; [done|].
  destruct (Ascii.eqb_spec c ",") as [->|Hne].
  - intros H. destruct (zip_body_shape r H) as (Ha & d & Hl & Hd).
    split; [cbn [all_chars]; by rewrite Ha|].
    exists d. split; [|done]. change (String "," r) with ("," +:+ r).
    rewrite last_char_app; [done|]. intros ->. discriminate.
  - intros H. apply zip_body_shape.
    destruct c as [[] [] [] [] [] [] [] []]; done.
Qed.

Lemma geo_key_unknown row : stateMatch (Js.or_else (Address row) "Unknown") = None ->
  geo_key row = "Unknown".
Proof. unfold geo_key. by intros ->. Qed.

(** X9: An address whose last character is not a digit matches no state: the
    state pattern finds nothing, the record gets no topStates entry and is
    filed under Unknown in geographicDistribution. *)
Theorem no_trailing_zip_no_state (row : AccountData) :
  (forall c, last_char (Address row) = Some c -> Js.is_digit c = false) ->
  stateMatch (Address row) = None
  /\ state_of row = None
  /\ geo_key row = "Unknown".
Proof.
  intros Hlast.
  assert (H : stateMatch (Address row) = None).
  { destruct (stateMatch (Address row)) as [st|] eqn:E; [|done]. exfalso.
    destruct (state_match_shape _ _ _ E) as (pre & a & b & tail & Haddr & _ & _ & _ & Hz).
    destruct (zip_tail_shape _ Hz) as (_ & c & Hc & Hd).
    rewrite Haddr in Hlast.
    assert (Htail : tail <> EmptyString) by (intros ->; discriminate).
    rewrite last_char_app in Hlast by discriminate.
    change (String a (String b tail)) with (String a (String b EmptyString) +:+ tail) in Hlast.
    rewrite last_char_app in Hlast by done.
    specialize (Hlast c Hc). congruence. }
  split; [done|]. unfold state_of, geo_key.
  destruct (Address row) as [|x s]; [done|]. cbn [Js.or_else Js.truthy].
  by rewrite H.
Qed.

Lemma last_char_cons c s : exists d, last_char (String c s) = Some d.
Proof.
  revert c. induction s as [|c' s IH]; intros c; [by exists c|].
  destruct (IH c') as [d Hd]. exists d. by rewrite <- Hd.
Qed.

Lemma zip_tail_no_upper x a y :
  Js.is_upper a = true -> zip_tail (x +:+ String a y) = false.
Proof.
  intros Ha. apply not_true_is_false. intros H.
  destruct (zip_tail_shape _ H) as (Hall & _).
  rewrite all_chars_app in Hall. apply andb_true_iff in Hall as [_ Hall].
  cbn [all_chars] in Hall. apply andb_true_iff in Hall as [Hz _].
  destruct a as [[] [] [] [] [] [] [] []]; by vm_compute in Ha, Hz.
Qed.

(** No position inside [pre] starts a match when a state code follows. *)
Lemma state_match_skip pre : forall prev a b tail,
  Js.is_upper a = true -> Js.is_upper b = true ->
  state_match prev (pre +:+ String a (String b tail))
  = state_match (match last_char pre with Some c => Js.is_word c | None => prev end)
      (String a (String b tail)).
Proof.
  induction pre as [|x pre IH]; intros prev a b tail Ha Hb; [done|].
  change (String x pre +:+ ?s) with (String x (pre +:+ s)).
  specialize (IH (Js.is_word x) a b tail Ha Hb).
  remember (String a (String b tail)) as s eqn:Hs.
  cbn [state_match].
  destruct (pre +:+ s) as [|y rest] eqn:E.
  { destruct pre; subst s; discriminate. }
  assert (Hfail : negb prev && Js.is_upper x && Js.is_upper y
                  && negb (starts_with_word rest) && zip_tail rest = false).
  { destruct pre as [|p1 pre'].
    - subst s. injection E as <- <-. cbn [starts_with_word].
      assert (Js.is_word b = true) by (unfold Js.is_word; by rewrite Hb).
      rewrite H. cbn [negb]. by rewrite andb_false_r.
    - change (String p1 pre' +:+ ?s) with (String p1 (pre' +:+ s)) in E.
      injection E as <- <-. subst s.
      rewrite (zip_tail_no_upper pre' a (String b tail)) by done.
      by rewrite andb_false_r. }
  rewrite Hfail, IH. clear. destruct pre as [|p q]; [reflexivity|].
  change (last_char (String x (String p q))) with (last_char (String p q)).
  destruct (last_char_cons p q) as [c ->]. reflexivity.
Qed.

(** X10: An address made of any text not ending in a word character, two
    upper-case letters, one space and a five-digit ZIP code yields exactly
    those two letters as its state. *)
Theorem state_before_zip_is_found (pre : string) (a b : ascii) (zip : string) :
  (forall c, last_char pre = Some c -> Js.is_word c = false) ->
  Js.is_upper a = true -> Js.is_upper b = true ->
  String.length zip = 5%nat -> all_chars Js.is_digit zip = true ->
  stateMatch (pre +:+ String a (String b (String " " zip)))
  = Some (String a (String b EmptyString)).
Proof.
  intros Hpre Ha Hb Hlen Hzip. unfold stateMatch.
  rewrite state_match_skip by done. cbn [state_match].
  assert (Hprev : match last_char pre with Some c => Js.is_word c | None => false end = false).
  { destruct (last_char pre) as [c|]; [by apply Hpre | done]. }
  rewrite Hprev, Ha, Hb. cbn [negb andb starts_with_word].
  assert (Hz : zip_tail (String " " zip) = true).
  { unfold zip_tail. change (Js.trimStart (String " " zip)) with (Js.trimStart zip).
    destruct zip as [|c1 [|c2 [|c3 [|c4 [|c5 [|c6 z]]]]]]; try discriminate Hlen.
    cbn [all_chars] in Hzip. repeat (apply andb_true_iff in Hzip as [? Hzip]).
    repeat match goal with H : _ && _ = true |- _ => apply andb_true_iff in H as [? ?] end.
    assert (Hsp : forall c, Js.is_digit c = true -> Js.is_space c = false)
      by (intros c Hc; by destruct (digit_char_facts c Hc) as [-> _]).
    cbn [Js.trimStart]. rewrite (Hsp c1) by done.
    cbn [digits_then]. by repeat match goal with H : Js.is_digit _ = true |- _ => rewrite H; clear H end. }
  by rewrite Hz.
Qed.

Lemma no_trailing_zip_no_state_witness :
  (forall c, last_char (Address unzipped) = Some c -> Js.is_digit c = false)
  /\ stateMatch (Address unzipped) = None
  /\ state_of unzipped = None
  /\ geo_key unzipped = "Unknown".
Proof.
  assert (H : forall c, last_char (Address unzipped) = Some c -> Js.is_digit c = false).
  { intros c Hc. vm_compute in Hc. injection Hc as <-. reflexivity. }
  split; [exact H | exact (no_trailing_zip_no_state unzipped H)].
Defined.

Lemma state_before_zip_is_found_witness :
  stateMatch ("123 Main St, Columbus, " +:+ String "O" (String "H" (String " " "43215")))
  = Some "OH".
Proof.
  refine (state_before_zip_is_found "123 Main St, Columbus, " "O" "H" "43215" _ _ _ _ _);
    try reflexivity.
  intros c Hc. vm_compute in Hc. injection Hc as <-. reflexivity.
Defined.

(** ** Brand labels are never empty *)

Lemma brand_loop_truthy n l brands label :
  Forall (fun b => Js.truthy b = true) brands ->
  brand_loop n l brands = Some label -> Js.truthy label = true.
Proof.
  induction brands as [|b brands IH]; intros Hall; [done|].
  apply Forall_cons in Hall as [Hb Hall]. cbn [brand_loop].
  destruct (Js.includes l (Js.toLowerCase b)); [|by apply IH].
  destruct (_ && _).
  - destruct (Js.truthy (Js.trim _)) eqn:E; intros [= <-]; done.
  - by intros [= <-].
Qed.

Lemma extractBrand_truthy name : Js.truthy (extractBrandFromAccountNameHS name) = true.
Proof.
  unfold extractBrandFromAccountNameHS.
  destruct (brand_loop _ _ _) as [label|] eqn:E.
  - eapply brand_loop_truthy; [|exact E]. unfold KNOWN_BRANDS_HS.
    repeat (constructor; [reflexivity|]). constructor.
  - destruct (_ && _) eqn:Hw; [|done].
    apply andb_true_iff in Hw as [Hw _]. apply Nat.ltb_lt in Hw.
    destruct (Js.first_word name); [simpl in Hw; lia | done].
Qed.

(** X11: extractBrandFromAccountNameHS never returns the empty text, so
    salesByBrand has no entry under the empty key. *)
Theorem brand_labels_are_never_empty (host : Host) (data : list AccountData) :
  (forall name, extractBrandFromAccountNameHS name <> EmptyString)
  /\ salesByBrand (processAccountDataInternal host data) !! EmptyString = None.
Proof.
  assert (H : forall name, extractBrandFromAccountNameHS name <> EmptyString).
  { intros name E. pose proof (extractBrand_truthy name) as Ht. by rewrite E in Ht. }
  split; [done|]. cbn [salesByBrand processAccountDataInternal]. unfold main_pass.
  destruct (main_fold_populated data main_init) as (_ & Hpop & _);
    try apply map_Forall_empty.
  pose proof (main_fold_brand data main_init EmptyString) as Hc.
  destruct (st_salesByBrand (fold_left main_step data main_init) !! EmptyString) as [b|] eqn:E;
    [|done].
  exfalso. apply Hpop in E as Hpos. unfold bucket_accounts in Hc. rewrite E in Hc.
  cbn in Hc. rewrite lookup_empty in Hc. cbn in Hc.
  assert (Hz : count_of (keyed brand_key EmptyString) data = 0%nat).
  { unfold count_of. clear -H. induction data as [|r l IH]; [done|]. cbn [List.filter].
    unfold keyed at 1. destruct (String.eqb_spec (brand_key r) EmptyString) as [E|E].
    - by apply H in E.
    - by rewrite andb_false_r. }
  lia.
Qed.

(** ** Traffic sources *)

(** X12: normalizeTrafficSource is idempotent: normalizing a normalized
    source label changes nothing. *)
Theorem normalizeTrafficSource_idempotent (source : string) :
  normalizeTrafficSource (normalizeTrafficSource source) = normalizeTrafficSource source.
Proof.
  unfold normalizeTrafficSource at 2 3.
  destruct (negb (Js.truthy source) || String.eqb source "Unknown") eqn:E0; [by vm_compute|].
  repeat match goal with
         | |- context [if ?b then _ else _] =>
             lazymatch b with
             | context [Js.includes (Js.toLowerCase source)] =>
                 let E := fresh "E" in destruct b eqn:E; [by vm_compute|]
             end
         end.
  unfold normalizeTrafficSource. by rewrite E0, E, E1, E2, E3, E4, E5, E6.
Qed.

(** ** Traffic source buckets *)

Lemma source_fold_leads data : forall m k,
  proto_member k = false ->
  from_option s_leads 0%nat (fold_left source_step data m !! k)
  = (from_option s_leads 0%nat (m !! k)
     + count_of (fun r => String.eqb (source_key r) k) data)%nat.
Proof.
  induction data as [|row data IH]; intros m k Hk; cbn [fold_left].
  - unfold count_of. simpl. lia.
  - rewrite IH, count_of_cons by done. unfold source_step. rewrite lookup_upsert.
    destruct (String.eqb_spec (source_key row) k) as [->|Hne].
    + rewrite Hk, decide_True by done. destruct (m !! k); simpl; lia.
    + destruct (proto_member (source_key row)); [lia|].
      rewrite decide_False by done. lia.
Qed.

Lemma source_fold_no_proto data : forall m k,
  proto_member k = true -> m !! k = None -> fold_left source_step data m !! k = None.
Proof.
  induction data as [|row data IH]; intros m k Hk Hm; [done|]. cbn [fold_left].
  apply IH; [done|]. unfold source_step. by apply upsert_no_proto.
Qed.

Lemma ratio_within (a b : nat) :
  (a <= b)%nat -> (0 < b)%nat ->
  within 0 100 (Num.mul (Num.div (Num.of_nat a) (Num.of_nat b)) (Num.of_Z 100)).
Proof.
  intros Hab Hb. unfold Num.div, Num.of_nat, Num.of_Z.
  assert (Hn : (0 < inject_Z (Z.of_nat b))%Q).
  { replace 0%Q with (inject_Z 0) by done. rewrite <- Zlt_Qlt. lia. }
  assert (Ha : (0 <= inject_Z (Z.of_nat a))%Q).
  { replace 0%Q with (inject_Z 0) by done. rewrite <- Zle_Qle. lia. }
  assert (Hle : (inject_Z (Z.of_nat a) <= inject_Z (Z.of_nat b))%Q).
  { rewrite <- Zle_Qle. lia. }
  destruct (Qeq_bool _ 0) eqn:E.
  { apply Qeq_bool_iff in E. rewrite E in Hn. by apply Qlt_irrefl in Hn. }
  cbn [Num.mul]. eexists. split; [done|].
  assert (H0 : (0 <= inject_Z (Z.of_nat a) / inject_Z (Z.of_nat b))%Q).
  { apply Qle_shift_div_l; [done|]. lra. }
  assert (H1 : (inject_Z (Z.of_nat a) / inject_Z (Z.of_nat b) <= 1)%Q).
  { apply Qle_shift_div_r; [done|]. lra. }
  change (inject_Z 100) with 100%Q. split; lra.
Qed.

(** X13: Every bucket of trafficSourcePerformance has as leads the number of
    input records whose normalized source is its key, which is at least 1;
    its conversionRate is a finite number between 0 and 100 and its
    avgDealSize is revenue / leads. *)
Theorem source_buckets_count_and_rate (data : list AccountData) (k : string) (b : SourceBucket) :
  trafficSourcePerformance_of data !! k = Some b ->
  s_leads b = count_of (fun r => String.eqb (source_key r) k) data
  /\ (0 < s_leads b)%nat
  /\ within 0 100 (s_conversionRate b)
  /\ s_avgDealSize b = Num.div (s_revenue b) (Num.of_nat (s_leads b)).
Proof.
  unfold trafficSourcePerformance_of. rewrite map_lookup_imap.
  destruct (fold_left source_step data ∅ !! k) as [b0|] eqn:Hk; [|done].
  cbn. intros [= <-].
  assert (Hproto : proto_member k = false).
  { apply not_true_is_false. intros H.
    rewrite (source_fold_no_proto data ∅ k H (lookup_empty k)) in Hk. discriminate Hk. }
  pose proof (source_fold_leads data ∅ k Hproto) as Hc. rewrite Hk, lookup_empty in Hc.
  cbn in Hc. cbn [s_leads s_conversionRate s_avgDealSize s_revenue source_finish].
  assert (Hpos : (0 < s_leads b0)%nat).
  { pose proof (source_populated data k) as Hp. unfold trafficSourcePerformance_of in Hp.
    specialize (Hp (source_finish data k b0)). rewrite map_lookup_imap, Hk in Hp.
    by apply Hp. }
  split; [done|]. split; [done|]. split.
  - unfold count_of in Hc.
    destruct (Nat.ltb_spec 0 (length (List.filter (fun a => String.eqb (source_key a) k) data)))
      as [Hlt|Hge]; [|lia].
    apply ratio_within; [|done].
    generalize (List.filter (fun a => String.eqb (source_key a) k) data).
    intros l. clear. induction l as [|a l IH]; [done|]. cbn [List.filter].
    destruct (is_sql a); simpl; lia.
  - replace (Nat.ltb 0 (s_leads b0)) with true by (symmetry; by apply Nat.ltb_lt). done.
Qed.

(** ** Campaign and landing-page keys *)

Lemma campaign_keys_named (host : Host) (data : list AccountData) (k : string) :
  is_Some (campaignPerformance (processAccountDataInternal host data) !! k) ->
  Js.truthy (Js.trim k) = true /\ k <> "Unknown Campaign".
Proof.
  cbn [campaignPerformance processAccountDataInternal]. intros [b Hb].
  assert (H : map_Forall (fun k (_ : LeadBucket) =>
              Js.truthy (Js.trim k) = true /\ k <> "Unknown Campaign")
              (fold_left campaign_step data ∅)).
  { apply fold_upsert_populated; [|apply map_Forall_empty].
    intros m row Hm. unfold campaign_step.
    destruct (_ && _) eqn:E; [|done].
    apply upsert_Forall; [|done]. intros _.
    apply andb_true_iff in E as [E E3]. apply andb_true_iff in E as [_ E2].
    split; [done|]. intros Heq. rewrite Heq in E3. done. }
  exact (H k b Hb).
Qed.

Lemma length_append (a b : string) :
  String.length (a +:+ b) = (String.length a + String.length b)%nat.
Proof.
  induction a as [|c a IH]; [done|].
  change (String c a +:+ b) with (String c (a +:+ b)). cbn [String.length]. by rewrite IH.
Qed.

Lemma length_take_str n s : (String.length (Js.take_str n s) <= n)%nat.
Proof.
  revert s. induction n as [|n IH]; intros s; [done|].
  destruct s as [|c s]; cbn [Js.take_str String.length]; [lia|].
  specialize (IH s). lia.
Qed.

Lemma length_truncate n s : (String.length (truncate n s) <= n + 3)%nat.
Proof.
  unfold truncate. destruct (Nat.ltb_spec n (String.length s)).
  - rewrite length_append. pose proof (length_take_str n s). simpl. lia.
  - lia.
Qed.

Lemma length_page_name pathname : (String.length (page_name pathname) <= 33)%nat.
Proof.
  unfold page_name.
  repeat match goal with
         | |- context [if ?b then _ else _] => destruct b; [simpl; lia|]
         end.
  apply length_truncate.
Qed.

Lemma landing_keys_short (host : Host) (data : list AccountData) (k : string) :
  is_Some (landingPagePerformance (processAccountDataInternal host data) !! k) ->
  (String.length k <= 43)%nat.
Proof.
  cbn [landingPagePerformance processAccountDataInternal]. unfold landingPagePerformance_of.
  rewrite lookup_fmap. intros [b Hb].
  destruct (fold_left (page_step host) data ∅ !! k) as [b0|] eqn:Hk; [|done].
  assert (H : map_Forall (fun k (_ : PageBucket) => (String.length k <= 43)%nat)
              (fold_left (page_step host) data ∅)).
  { apply fold_upsert_populated; [|apply map_Forall_empty].
    intros m row Hm. unfold page_step.
    destruct (page_key host row) as [key|] eqn:E; [|done].
    apply upsert_Forall; [|done]. intros _.
    unfold page_key in E. destruct (_ && _); [|done].
    destruct (urlPathname host _); injection E as <-.
    - pose proof (length_page_name s). lia.
    - apply length_truncate. }
  exact (H k b0 Hk).
Qed.

(** ** Lead health *)

(** X14: Every key of campaignPerformance is a text that is not blank after
    trimming and is not the placeholder Unknown Campaign; every key of
    landingPagePerformance is non-empty and has at most 43 characters (a
    page name is cut to 40 characters plus three dots). *)
Theorem campaign_and_page_keys_are_labels (host : Host) (data : list AccountData) :
  let p := processAccountDataInternal host data in
  (forall k, is_Some (campaignPerformance p !! k) ->
     Js.truthy (Js.trim k) = true /\ k <> "Unknown Campaign")
  /\ (forall k, is_Some (landingPagePerformance p !! k) ->
       k <> EmptyString /\ (String.length k <= 43)%nat).
Proof.
  cbv zeta. split.
  - intros k. apply campaign_keys_named.
  - intros k Hk. split; [|by eapply landing_keys_short].
    intros ->. revert Hk.
    cbn [landingPagePerformance processAccountDataInternal].
    unfold landingPagePerformance_of. rewrite lookup_fmap. intros [b Hb].
    destruct (fold_left (page_step host) data ∅ !! EmptyString) as [b'|] eqn:E; [|done].
    clear Hb b.
    assert (H : forall data m, is_Some (fold_left (page_step host) data m !! EmptyString) ->
                is_Some (m !! EmptyString)).
    { clear. induction data as [|a data IH]; intros m Hm; [done|]. cbn [fold_left] in Hm.
      apply IH in Hm. unfold page_step in Hm.
      destruct (page_key host a) as [key|] eqn:Hkey; [|done].
      rewrite lookup_upsert in Hm. destruct (proto_member key); [done|].
      destruct (decide (key = EmptyString)) as [->|]; [|done].
      exfalso. unfold page_key in Hkey.
      destruct (Js.truthy _ && Js.truthy _) eqn:Ht; [|done].
      apply andb_true_iff in Ht as [Ht _].
      destruct (urlPathname host _) as [pathname|].
      - injection Hkey as Hkey. unfold page_name in Hkey.
        destruct (String.eqb pathname "/" || String.eqb pathname EmptyString) eqn:E0;
          [discriminate Hkey|].
        repeat match type of Hkey with (if ?b then _ else _) = _ => destruct b end;
          try discriminate Hkey.
        unfold truncate in Hkey. destruct (Nat.ltb _ _) eqn:Hl.
        + destruct (Js.take_str 30 pathname); discriminate Hkey.
        + subst pathname. discriminate E0.
      - injection Hkey as Hkey. unfold truncate in Hkey. destruct (Nat.ltb _ _).
        + destruct (Js.take_str 40 _); discriminate Hkey.
        + by rewrite Hkey in Ht. }
    assert (Hs : is_Some (fold_left (page_step host) data ∅ !! EmptyString)) by (by rewrite E).
    apply H in Hs. rewrite lookup_empty in Hs. by destruct Hs.
Qed.

Lemma score_at_least_base account : 50 <= calculateLeadHealthScore account <= 100.
Proof.
  unfold calculateLeadHealthScore.
  repeat match goal with
         | |- context [if ?b then _ else _] => destruct b
         end; lia.
Qed.

(** X15: leadHealthScores is a permutation of the per-record entries, sorted
    by descending health score; every score lies between 50 and 100, every
    temperature is the one getLeadTemperature gives for the score, and the
    Cold label never occurs. *)
Theorem lead_health_entries_are_ranked (host : Host) (data : list AccountData) :
  let entries := leadHealthScores (processAccountDataInternal host data) in
  Permutation entries (map health_entry data)
  /\ StronglySorted (fun a b => healthScore b <= healthScore a) entries
  /\ Forall (fun e => 50 <= healthScore e <= 100
                      /\ temperature e = getLeadTemperature (healthScore e)
                      /\ temperature e <> "🧊 Cold") entries.
Proof.
  cbn [leadHealthScores processAccountDataInternal]. unfold leadHealthScores_of.
  set (cmp := fun a b : HealthEntry => Num.of_Z (healthScore b - healthScore a)).
  pose proof (js_sort_perm cmp (map health_entry data)) as Hperm.
  split; [done|]. split.
  - apply js_sort_sorted.
    + intros a b c. lia.
    + intros x y. unfold cmp, Num.gt, Num.lt, Num.zero, Num.of_Z.
      intros H%Qltb_true. change 0%Q with (inject_Z 0) in H. rewrite <- Zlt_Qlt in H. lia.
    + intros x y. unfold cmp, Num.gt, Num.lt, Num.zero, Num.of_Z. intros H.
      destruct (Z_le_gt_dec (healthScore y) (healthScore x)) as [Hle|Hgt]; [done|].
      assert (Ht : Num.Qltb 0 (inject_Z (healthScore y - healthScore x)) = true).
      { apply Qltb_true. change 0%Q with (inject_Z 0). rewrite <- Zlt_Qlt. lia. }
      congruence.
  - rewrite Hperm. apply Forall_map, Forall_forall. intros a _. unfold health_entry.
    cbn [healthScore temperature]. pose proof (score_at_least_base a) as Hs.
    split; [done|]. split; [done|].
    unfold getLeadTemperature.
    destruct (Z.leb_spec 80 (calculateLeadHealthScore a)); [done|].
    destruct (Z.leb_spec 60 (calculateLeadHealthScore a)); [done|].
    destruct (Z.leb_spec 40 (calculateLeadHealthScore a)); [done|lia].
Qed.

Lemma source_buckets_count_and_rate_witness :
  exists b,
    trafficSourcePerformance_of [Sample.account "Foo Inc" "Bob" "100"] !! "Direct Traffic" = Some b
    /\ s_leads b = 1%nat
    /\ within 0 100 (s_conversionRate b)
    /\ s_avgDealSize b = Num.div (s_revenue b) (Num.of_nat (s_leads b)).
Proof.
  destruct (trafficSourcePerformance_of [Sample.account "Foo Inc" "Bob" "100"] !! "Direct Traffic")
    as [b|] eqn:E; [|vm_compute in E; discriminate].
  exists b. split; [reflexivity|].
  pose proof (source_buckets_count_and_rate _ _ _ E) as (H1 & _ & H3 & H4).
  split; [|split; [exact H3 | exact H4]].
  rewrite H1. vm_compute. reflexivity.
Defined.

(** ** Monthly trend *)

Lemma month_add_keys key amount l :
  map fst (month_add key amount l)
  = if bool_decide (key ∈ map fst l) then map fst l else map fst l ++ [key].
Proof.
  induction l as [|[k b] l IH]; [done|]. cbn [month_add map fst].
  destruct (String.eqb_spec k key) as [->|Hne].
  - cbn [map fst]. rewrite bool_decide_eq_true_2; [done|]. apply list_elem_of_here.
  - cbn [map fst]. rewrite IH. destruct (bool_decide (key ∈ map fst l)) eqn:E.
    + apply bool_decide_eq_true in E. rewrite bool_decide_eq_true_2; [done|].
      by apply list_elem_of_further.
    + apply bool_decide_eq_false in E. rewrite bool_decide_eq_false_2; [done|].
      intros [?|?]%elem_of_cons; [congruence|done].
Qed.

Lemma month_add_total key amount l :
  sum_list_with (fun e => t_accounts (snd e)) (month_add key amount l)
  = S (sum_list_with (fun e => t_accounts (snd e)) l).
Proof.
  induction l as [|[k b] l IH]; [done|]. cbn [month_add].
  destruct (String.eqb k key); cbn [sum_list_with snd t_accounts].
  - lia.
  - rewrite IH. lia.
Qed.

Lemma month_fold host data : forall l,
  NoDup (map fst l) ->
  NoDup (map fst (fold_left (month_step host) data l))
  /\ sum_list_with (fun e => t_accounts (snd e)) (fold_left (month_step host) data l)
     = (sum_list_with (fun e => t_accounts (snd e)) l + count_of (dated host) data)%nat.
Proof.
  induction data as [|row data IH]; intros l Hl; cbn [fold_left].
  - unfold count_of. simpl. split; [done|lia].
  - rewrite count_of_cons. unfold month_step at 2 4, dated at 1.
    destruct (Js.truthy (Date_Created row) && negb (String.eqb (Date_Created row) "N/A"));
      cbn [andb].
    + destruct (newDate host (Date_Created row)) as [d|] eqn:Ed.
      * rewrite bool_decide_eq_true_2 by done.
        destruct (IH (month_add (month_key d) (parseCurrency (Total_Sales row)) l)) as [H1 H2].
        { rewrite month_add_keys. destruct (bool_decide _) eqn:E; [done|].
          apply bool_decide_eq_false in E. apply NoDup_app. split; [done|].
          split; [|apply NoDup_singleton].
          intros x Hx ->%list_elem_of_singleton. done. }
        split; [done|]. rewrite H2, month_add_total. lia.
      * rewrite bool_decide_eq_false_2 by (by intros [? ?]).
        destruct (IH l Hl) as [H1 H2]. split; [done|]. rewrite H2. lia.
    + destruct (IH l Hl) as [H1 H2]. split; [done|]. rewrite H2. lia.
Qed.

(** X16: monthlyTrends has at most 12 entries; the month keys are distinct,
    and the per-month account counts sum to the number of records whose
    creation date is non-empty, not N/A and readable by the host (when at
    most 12 months occur, so do the counts of monthlyTrends). *)
Theorem monthly_trends_shape (host : Host) (data : list AccountData) :
  let trends := monthlyTrends (processAccountDataInternal host data) in
  (length trends <= 12)%nat
  /\ NoDup (map fst (monthCounts_of host data))
  /\ sum_list_with (fun e => t_accounts (snd e)) (monthCounts_of host data)
     = count_of (dated host) data
  /\ ((length (monthCounts_of host data) <= 12)%nat ->
      sum_list_with m_accounts trends = count_of (dated host) data).
Proof.
  cbn [monthlyTrends processAccountDataInternal]. unfold monthlyTrends_of.
  destruct (month_fold host data [] (NoDup_nil_2)) as [Hnd Hsum].
  fold (monthCounts_of host data) in Hnd, Hsum. cbn in Hsum.
  split. { rewrite length_map, slice_last_length. lia. }
  split; [done|]. split; [done|].
  intros Hlen. unfold slice_last. rewrite js_sort_length.
  replace (length (monthCounts_of host data) - 12)%nat with 0%nat by lia.
  rewrite drop_0. rewrite <- Hsum.
  rewrite <- (js_sort_perm (fun a b => localeCompare host (fst a) (fst b))
                (monthCounts_of host data)) at 2.
  generalize (js_sort (fun a b => localeCompare host (fst a) (fst b)) (monthCounts_of host data)).
  intros l. induction l as [|e l IH]; [done|]. cbn [map sum_list_with m_accounts]. by rewrite IH.
Qed.

Lemma monthly_trends_shape_witness :
  sum_list_with m_accounts
    (monthlyTrends (processAccountDataInternal Sample.host seven_debtors)) = 7%nat.
Proof.
  pose proof (monthly_trends_shape Sample.host seven_debtors) as H.
  cbv zeta in H. destruct H as (_ & _ & _ & H).
  rewrite H; [vm_compute; reflexivity | vm_compute; lia].
Defined.

Lemma append_assoc_cons a c b : (a +:+ String c EmptyString) +:+ b = a +:+ String c b.
Proof.
  induction a as [|x a IH]; [done|].
  change (String x a +:+ ?s) with (String x (a +:+ s)).
  change ((String x (a +:+ String c EmptyString)) +:+ b)
    with (String x ((a +:+ String c EmptyString) +:+ b)). by rewrite IH.
Qed.

(** Inside quotes every character but a quote is kept. *)
Lemma csv_scan_quoted x : forall rest result current,
  all_chars no_quote x = true ->
  csv_scan (x +:+ rest) result current true = csv_scan rest result (current +:+ x) true.
Proof.
  induction x as [|c x IH]; intros rest result current Hx.
  - by rewrite append_empty_r.
  - cbn [all_chars] in Hx. apply andb_true_iff in Hx as [Hc Hx].
    change (String c x +:+ rest) with (String c (x +:+ rest)). cbn [csv_scan].
    unfold no_quote in Hc. apply negb_true_iff in Hc. rewrite Hc.
    cbn [negb andb]. rewrite andb_false_r. rewrite IH by done.
    by rewrite append_assoc_cons.
Qed.

(** X17: Round trip: fields that contain no double quote (commas allowed),
    each written between double quotes and joined by commas, are read back
    by parseCSVLine exactly. *)
Theorem parseCSVLine_reads_quoted_fields (fields : list string) :
  fields <> [] ->
  Forall (fun f => all_chars no_quote f = true) fields ->
  parseCSVLine (csv_join (map quoted fields)) = fields.
Proof.
  intros Hne Hall. unfold parseCSVLine.
  assert (H : forall result, Forall (fun f => all_chars no_quote f = true) fields ->
            fields <> [] ->
            csv_scan (csv_join (map quoted fields)) result EmptyString false = result ++ fields).
  { clear. induction fields as [|f fields IH]; intros result Hall Hne; [done|].
    apply Forall_cons in Hall as [Hf Hall].
    assert (Hq : forall rest res, csv_scan (quoted f +:+ rest) res EmptyString false
                 = csv_scan rest res f false).
    { intros rest res. unfold quoted.
      change (String dquote (f +:+ String dquote EmptyString) +:+ rest)
        with (String dquote ((f +:+ String dquote EmptyString) +:+ rest)).
      cbn [csv_scan]. change (Ascii.eqb dquote dquote) with true. cbn [negb].
      rewrite append_assoc_cons, csv_scan_quoted by done. cbn [csv_scan].
      change (Ascii.eqb dquote dquote) with true. done. }
    destruct fields as [|g fields].
    - cbn [map csv_join]. rewrite <- (append_empty_r (quoted f)), Hq. done.
    - change (csv_join (map quoted (f :: g :: fields)))
        with (quoted f +:+ "," +:+ csv_join (map quoted (g :: fields))).
      rewrite Hq. change ("," +:+ ?s) with (String "," s). cbn [csv_scan].
      change (Ascii.eqb "," dquote) with false. change (Ascii.eqb "," ",") with true.
      cbn [andb negb]. rewrite IH by done. by rewrite <- app_assoc. }
  by rewrite H.
Qed.

(** X18: On a line without double quotes parseCSVLine splits at the commas
    and nowhere else: joining the fields with commas gives the line back,
    and there is one more field than there are commas. *)
Theorem parseCSVLine_splits_plain_lines (line : string) :
  all_chars no_quote line = true ->
  csv_join (parseCSVLine line) = line
  /\ length (parseCSVLine line)
     = S (length (List.filter (Ascii.eqb ",") (list_ascii_of_string line))).
Proof.
  intros Hline. unfold parseCSVLine.
  assert (H : forall result current,
            all_chars no_quote line = true ->
            csv_join (csv_scan line result current false)
            = csv_join (result ++ [current +:+ line])
            /\ length (csv_scan line result current false)
               = (length result
                  + S (length (List.filter (Ascii.eqb ",") (list_ascii_of_string line))))%nat).
  { clear. induction line as [|c line IH]; intros result current Hline.
    - cbn [csv_scan list_ascii_of_string List.filter length].
      rewrite append_empty_r, length_app. cbn. split; [done|lia].
    - cbn [all_chars] in Hline. apply andb_true_iff in Hline as [Hc Hline].
      unfold no_quote in Hc. apply negb_true_iff in Hc.
      cbn [csv_scan list_ascii_of_string List.filter]. rewrite Hc. cbn [negb].
      rewrite andb_true_r.
      destruct (Ascii.eqb_spec c ",") as [->|Hne].
      + destruct (IH (result ++ [current]) EmptyString Hline) as [H1 H2].
        change (Ascii.eqb "," ",") with true. cbn [length].
        rewrite H1, H2, length_app. cbn [length]. split; [|lia].
        change (EmptyString +:+ line) with line.
        clear. induction result as [|r result IH].
        * reflexivity.
        * destruct result as [|r' result].
          -- reflexivity.
          -- change ((r :: r' :: result) ++ ?x) with (r :: (r' :: result) ++ x).
             cbn [csv_join app] in *. by rewrite IH.
      + destruct (IH result (current +:+ String c EmptyString) Hline) as [H1 H2].
        destruct (Ascii.eqb_spec "," c) as [E|_]; [by destruct Hne|].
        rewrite H1, H2. by rewrite append_assoc_cons. }
  destruct (H [] EmptyString Hline) as [H1 H2]. split; [by rewrite H1|by rewrite H2].
Qed.

Lemma parseCSVLine_reads_quoted_fields_witness :
  parseCSVLine (csv_join (map quoted ["Acme, Inc"; "$1,200.50"; EmptyString]))
  = ["Acme, Inc"; "$1,200.50"; EmptyString].
Proof.
  apply parseCSVLine_reads_quoted_fields; [discriminate|].
  repeat (constructor; [reflexivity|]). constructor.
Defined.

Lemma parseCSVLine_splits_plain_lines_witness :
  csv_join (parseCSVLine "7,Acme,,OH") = "7,Acme,,OH"
  /\ length (parseCSVLine "7,Acme,,OH") = 4%nat.
Proof.
  exact (parseCSVLine_splits_plain_lines "7,Acme,,OH" eq_refl).
Defined.

(** ** The transformer *)

Lemma or_else_truthy a b : Js.truthy b = true -> Js.truthy (Js.or_else a b) = true.
Proof. unfold Js.or_else. by destruct (Js.truthy a) eqn:E. Qed.

Lemma leadValue_of_estimate stage : In (leadValue_of stage) ESTIMATES.
Proof.
  unfold leadValue_of, ESTIMATES.
  repeat match goal with |- context [if ?b then _ else _] => destruct b end;
    simpl; tauto.
Qed.

Lemma estimate_averaged s :
  In s ESTIMATES ->
  averaged (parseCurrency s) = true /\ within 500 25000 (parseCurrency s).
Proof.
  unfold ESTIMATES. intros H.
  repeat (destruct H as [<-|H];
          [split; [by vm_compute | eexists; split; [by vm_compute|split; discriminate]]|]).
  destruct H.
Qed.

Lemma transform_contact_estimated host cm om draws contact :
  estimated (transform_contact host cm om draws contact).1.
Proof.
  pose proof (leadValue_of_estimate
                (prop_or (c_properties contact) "lifecyclestage" "unknown")) as Hin.
  destruct (estimate_averaged _ Hin) as [Hav Hw].
  unfold estimated, transform_contact.
  destruct (Num.truthy _); cbn [fst Total_Sales Account_Name Address Primary_Rep_Name
                                 Lifecycle_Stage].
  all: split; [done|]; split; [done|]; split; [done|].
  all: split; [by repeat apply or_else_truthy|].
  all: split; [destruct (company_of cm contact); by apply or_else_truthy|].
  all: split; [destruct (owner_of om contact); [by apply or_else_truthy|done]|by eexists].
Qed.

Lemma transform_all_estimated host cm om contacts : forall draws,
  Forall estimated (transform_all host cm om draws contacts)
  /\ length (transform_all host cm om draws contacts) = length contacts.
Proof.
  induction contacts as [|c contacts IH]; intros draws; [by split|].
  cbn [transform_all].
  pose proof (transform_contact_estimated host cm om draws c) as Hc.
  destruct (transform_contact host cm om draws c) as [a draws'].
  destruct (IH draws') as [H1 H2]. split; [by constructor|]. cbn [length]. by rewrite H2.
Qed.

Lemma transformed_records_shape host contacts cm om startDate endDate :
  Forall estimated (transformHubSpotDataToAccountData host contacts cm om startDate endDate)
  /\ Forall (fun a => valid a = true)
       (transformHubSpotDataToAccountData host contacts cm om startDate endDate).
Proof.
  unfold transformHubSpotDataToAccountData.
  destruct (transform_all_estimated host cm om
              (List.filter (keep_contact host cm startDate endDate) contacts) 0%nat)
    as [Hall _].
  split; [done|].
  eapply Forall_impl; [exact Hall|]. intros a (_ & Hav & _). unfold valid.
  by rewrite averaged_not_rejected.
Qed.

(** X19: transformHubSpotDataToAccountData returns one record per contact
    that passes its date filter (all of them without a date range); every
    record carries one of the six sales estimates (25000, 10000, 5000, 2000,
    500, 1000), passes the validity guard of the aggregation, has a
    lifecycle stage and a non-empty name, address and rep. *)
Theorem transformed_records_are_estimates (host : Host) (contacts : list Contact)
    (companiesMap : gmap string CrmObject) (ownersMap : gmap string Owner)
    (startDate endDate : option Z) :
  let out := transformHubSpotDataToAccountData host contacts companiesMap ownersMap
               startDate endDate in
  length out = length (List.filter (keep_contact host companiesMap startDate endDate) contacts)
  /\ (length out <= length contacts)%nat
  /\ (startDate = None -> endDate = None -> length out = length contacts)
  /\ Forall estimated out
  /\ Forall (fun a => valid a = true) out.
Proof.
  cbv zeta. unfold transformHubSpotDataToAccountData.
  destruct (transform_all_estimated host companiesMap ownersMap
              (List.filter (keep_contact host companiesMap startDate endDate) contacts) 0%nat)
    as [Hall Hlen].
  split; [done|]. split; [rewrite Hlen; apply filter_length_le|].
  split.
  { intros -> ->. rewrite Hlen. f_equal. clear. induction contacts as [|c l IH]; [done|].
    cbn [List.filter keep_contact]. by rewrite IH. }
  split; [done|].
  eapply Forall_impl; [exact Hall|]. intros a (_ & Hav & _). unfold valid.
  by rewrite averaged_not_rejected.
Qed.

(** ** Snapshots of transformed records *)

Lemma main_fold_all_averaged data : forall st,
  Forall (fun r => averaged (parseCurrency (Total_Sales r)) = true) data ->
  validSales (fold_left main_step data st)
  = validSales st ++ map (fun r => parseCurrency (Total_Sales r)) data.
Proof.
  induction data as [|row data IH]; intros st Hall; cbn [fold_left map].
  - by rewrite app_nil_r.
  - apply Forall_cons in Hall as [Hrow Hall]. rewrite IH by done.
    unfold main_step. rewrite (averaged_not_rejected _ Hrow). cbn [validSales].
    rewrite Hrow. by rewrite <- app_assoc.
Qed.

Lemma estimated_band a : estimated a -> in_band "Negative" a = false.
Proof.
  intros (_ & _ & (q & Hq & Hlo & _) & _). unfold in_band, band_of. rewrite Hq.
  replace (Num.lt (Fin q) Num.zero) with false.
  { repeat match goal with |- context [if ?b then _ else _] => destruct b end;
      apply andb_false_r. }
  symmetry. apply not_true_is_false. unfold Num.lt, Num.zero, Num.of_Z. intros E%Qltb_true.
  change (inject_Z 0) with 0%Q in E. lra.
Qed.

Lemma count_of_ext p q data :
  Forall (fun r => p r = q r) data -> count_of p data = count_of q data.
Proof.
  unfold count_of. induction 1 as [|r l Hr _ IH]; [done|]. cbn [List.filter].
  rewrite Hr. destruct (q r); cbn [length]; by rewrite IH.
Qed.

(** X20: Composition of transformer and aggregation: in the snapshot of
    transformed contacts no account is rejected, so the rep rollup counts
    every account whose rep name is not the name of a member of
    Object.prototype and the brand rollup every account whose brand label
    is not one (the bucket counts sum to totalAccounts when there is no such
    name); the Negative band is 0, totalRevenue lies between 500 n and
    25000 n for n accounts, and averageDealSize lies between 500 and 25000
    when there is an account. *)
Theorem live_snapshot_counts_every_lead (host : Host) (contacts : list Contact)
    (companiesMap : gmap string CrmObject) (ownersMap : gmap string Owner)
    (startDate endDate : option Z) :
  let data := transformHubSpotDataToAccountData host contacts companiesMap ownersMap
                startDate endDate in
  let p := processAccountDataInternal host data in
  let n := inject_Z (Z.of_nat (length data)) in
  total_accounts (salesByRep p)
  = count_of (fun a => negb (proto_member (rep_key a))) data
  /\ total_accounts (salesByBrand p)
     = count_of (fun a => negb (proto_member (brand_key a))) data
  /\ (Forall (fun a => proto_member (rep_key a) = false
                       /\ proto_member (brand_key a) = false) data ->
      total_accounts (salesByRep p) = totalAccounts p
      /\ total_accounts (salesByBrand p) = totalAccounts p)
  /\ salesDistribution p !! "Negative" = Some 0%nat
  /\ within (n * 500) (n * 25000) (totalRevenue p)
  /\ (data <> [] -> within 500 25000 (averageDealSize p)).
Proof.
  cbv zeta.
  destruct (transformed_records_shape host contacts companiesMap ownersMap startDate endDate)
    as (Hest & Hvalid).
  set (data := transformHubSpotDataToAccountData _ _ _ _ _ _) in *.
  cbn [salesByRep salesByBrand salesDistribution totalRevenue averageDealSize totalAccounts
       processAccountDataInternal]. unfold main_pass.
  destruct (main_fold_totals data main_init) as [Hr Hb].
  cbn [st_salesByRep st_salesByBrand main_init] in Hr, Hb.
  rewrite total_accounts_empty in Hr, Hb. cbn [Nat.add] in Hr, Hb.
  rewrite (count_of_ext (counted rep_key) (fun a => negb (proto_member (rep_key a)))) in Hr.
  2:{ eapply Forall_impl; [exact Hvalid|]. intros a Ha. unfold counted. by rewrite Ha. }
  rewrite (count_of_ext (counted brand_key) (fun a => negb (proto_member (brand_key a))))
    in Hb.
  2:{ eapply Forall_impl; [exact Hvalid|]. intros a Ha. unfold counted. by rewrite Ha. }
  split; [done|]. split; [done|]. split.
  { intros Hall. rewrite Hr, Hb. split; apply count_of_all.
    - eapply Forall_impl; [exact Hall|]. by intros a [-> _].
    - eapply Forall_impl; [exact Hall|]. by intros a [_ ->]. }
  split.
  { rewrite main_fold_bands. cbn [st_salesDistribution main_init].
    rewrite salesDistribution_init_lookup by (apply list_elem_of_In; simpl; tauto).
    cbn [fmap option_fmap option_map]. f_equal.
    unfold count_of. clear -Hest. induction Hest as [|a l Ha _ IH]; [done|].
    cbn [List.filter]. by rewrite (estimated_band a Ha). }
  assert (Hw : Forall (within 500 25000) (map (fun r => parseCurrency (Total_Sales r)) data)).
  { apply Forall_map. eapply Forall_impl; [exact Hest|]. by intros a (_ & _ & H & _). }
  split.
  { rewrite main_fold_revenue. rewrite (filter_all valid data Hvalid).
    destruct (sum_within 500 25000 _ Num.zero 0%Q eq_refl Hw) as (q & Hq & H1 & H2).
    cbn [totalSalesValue main_init]. rewrite Hq. rewrite length_map in H1, H2.
    exists q. split; [done|]. split; lra. }
  intros Hne. rewrite main_fold_all_averaged.
  2:{ eapply Forall_impl; [exact Hest|]. by intros a (_ & H & _). }
  cbn [validSales main_init app].
  unfold calculateAverage. rewrite length_map.
  assert (Hlen : (0 < length data)%nat) by (destruct data; [done | simpl; lia]).
  replace (Nat.eqb (length data) 0) with false by (symmetry; apply Nat.eqb_neq; lia).
  rewrite <- (length_map (fun r => parseCurrency (Total_Sales r)) data).
  apply mean_within; [by rewrite length_map | done].
Qed.

(** ** Bands and stages *)

Lemma one_band row :
  sum_list_with (fun band => if in_band band row then 1%nat else 0%nat) BANDS
  = if valid row then 1%nat else 0%nat.
Proof.
  unfold in_band. destruct (valid row); [|done]. cbn [andb].
  pose proof (band_of_in_BANDS (parseCurrency (Total_Sales row))) as H.
  set (b := band_of _) in *. clearbody b. unfold BANDS in *.
  repeat (apply elem_of_cons in H as [->|H]; [reflexivity|]).
  by apply elem_of_nil in H.
Qed.

Lemma band_counts_sum data :
  sum_list_with (fun band => count_of (in_band band) data) BANDS = count_of valid data.
Proof.
  induction data as [|row data IH]; [done|].
  rewrite count_of_cons, <- IH, <- one_band. unfold BANDS. cbn [sum_list_with].
  rewrite !count_of_cons. lia.
Qed.

Lemma of_nat_succ n : Num.add (Num.of_nat n) (Num.of_Z 1) = Num.of_nat (S n).
Proof.
  unfold Num.add, Num.of_nat, Num.of_Z, inject_Z, Qplus. cbn [Qnum Qden Pos.mul].
  do 2 f_equal. lia.
Qed.

Lemma of_nat_truthy n : Num.truthy (Num.of_nat (S n)) = true.
Proof.
  unfold Num.truthy, Num.of_nat, Num.of_Z. apply negb_true_iff, not_true_is_false.
  intros H%Qeq_bool_iff. unfold Qeq, inject_Z in H. cbn [Qnum Qden] in H. lia.
Qed.

Lemma count_up_other k k' m : k <> k' -> count_up k m !! k' = m !! k'.
Proof.
  intros Hne. unfold count_up. destruct (String.eqb k "__proto__"); [done|].
  destruct (m !! k); [by rewrite lookup_insert_ne|].
  destruct (proto_member k); by rewrite lookup_insert_ne.
Qed.

Lemma count_up_entry k m n :
  m !! k = stage_entry k n -> count_up k m !! k = stage_entry k (S n).
Proof.
  unfold count_up, stage_entry. destruct (String.eqb k "__proto__"); [done|].
  intros ->. destruct n as [|n'].
  - destruct (proto_member k); by rewrite lookup_insert_eq.
  - destruct (proto_member k).
    + destruct n' as [|n'']; rewrite lookup_insert_eq; [reflexivity|].
      by rewrite of_nat_truthy, of_nat_succ.
    + by rewrite lookup_insert_eq, of_nat_truthy, of_nat_succ.
Qed.

Lemma main_fold_stage data : forall st k n,
  st_lifecycle st !! k = stage_entry k n ->
  st_lifecycle (fold_left main_step data st) !! k
  = stage_entry k (n + count_of (keyed stage_key k) data).
Proof.
  induction data as [|row data IH]; intros st k n Hst; cbn [fold_left].
  - unfold count_of. cbn [List.filter length]. by rewrite Nat.add_0_r.
  - rewrite count_of_cons. unfold keyed at 1.
    destruct (valid row) eqn:Hv; cbn [andb].
    + destruct (String.eqb_spec (stage_key row) k) as [<-|Hne].
      * rewrite Nat.add_assoc, Nat.add_1_r. apply IH.
        unfold main_step. unfold valid in Hv. apply negb_true_iff in Hv. rewrite Hv.
        cbn [st_lifecycle]. fold (stage_key row). by apply count_up_entry.
      * cbn [Nat.add]. apply IH.
        unfold main_step. unfold valid in Hv. apply negb_true_iff in Hv. rewrite Hv.
        cbn [st_lifecycle]. fold (stage_key row). by rewrite count_up_other.
    + rewrite main_step_rejected by done. cbn [Nat.add]. by apply IH.
Qed.

(** X21: The six counts of salesDistribution sum to the number of records
    the first pass does not reject (at most totalAccounts).
    lifecycleStageDistribution holds under a stage the number n of
    non-rejected records of that stage (unknown when the record has none),
    and no entry when there is none, with the exceptions the code makes for
    the names of Object.prototype: nothing is ever stored under __proto__,
    and under the name of an inherited function (constructor, toString,
    ...) NaN is stored for one record and n - 1 for n >= 2.  A 0 is never
    stored. *)
Theorem bands_and_stages_partition_the_valid_records (host : Host) (data : list AccountData) :
  let p := processAccountDataInternal host data in
  band_total (salesDistribution p) = count_of valid data
  /\ (band_total (salesDistribution p) <= totalAccounts p)%nat
  /\ (forall k, lifecycleStageDistribution p !! k
                = stage_entry k (count_of (keyed stage_key k) data))
  /\ (forall k, proto_member k = false ->
        lifecycleStageDistribution p !! k
        = match count_of (keyed stage_key k) data with
          | O => None
          | S n => Some (Num.of_nat (S n))
          end)
  /\ (forall k, lifecycleStageDistribution p !! k <> Some Num.zero).
Proof.
  cbv zeta. cbn [salesDistribution lifecycleStageDistribution totalAccounts
                 processAccountDataInternal]. unfold main_pass.
  assert (Hsum : band_total (st_salesDistribution (fold_left main_step data main_init))
                 = count_of valid data).
  { rewrite <- band_counts_sum. unfold band_total, BANDS. cbn [sum_list_with].
    rewrite !main_fold_bands. cbn [st_salesDistribution main_init].
    rewrite !salesDistribution_init_lookup by (apply list_elem_of_In; simpl; tauto).
    reflexivity. }
  assert (Hstage : forall k,
            st_lifecycle (fold_left main_step data main_init) !! k
            = stage_entry k (count_of (keyed stage_key k) data)).
  { intros k. rewrite (main_fold_stage data main_init k 0); [done|].
    cbn [st_lifecycle main_init]. rewrite lookup_empty. unfold stage_entry.
    by destruct (String.eqb k "__proto__"). }
  split; [done|]. split.
  { rewrite Hsum. unfold count_of. apply filter_length_le. }
  split; [exact Hstage|]. split.
  { intros k Hk. rewrite Hstage. unfold stage_entry. rewrite Hk.
    destruct (String.eqb_spec k "__proto__") as [->|_]; [discriminate Hk|].
    by destruct (count_of (keyed stage_key k) data). }
  intros k. rewrite Hstage. unfold stage_entry.
  destruct (String.eqb k "__proto__"); [done|].
  destruct (count_of (keyed stage_key k) data) as [|n]; [done|].
  assert (Hz : forall c, Num.of_nat (S c) <> Num.zero).
  { intros c H. unfold Num.of_nat, Num.of_Z, Num.zero in H. injection H as H. lia. }
  destruct (proto_member k); [destruct n as [|n]; [done|]|]; intros [= H]; by apply Hz in H.
Qed.

(** ** Requests *)

Lemma paginate_run ev api left : forall after s,
  exists evs,
    Eff.trace (paginate ev api left after s).1 = Eff.trace s ++ evs
    /\ (length evs <= left)%nat
    /\ Forall (fun e => exists a, e = ev a) evs.
Proof.
  induction left as [|left IH]; intros after s; cbn [paginate].
  - exists []. cbn. rewrite app_nil_r. split; [done|]. split; [lia|constructor].
  - unfold Eff.bind at 1. unfold Eff.call at 1.
    destruct (api after) as [page|e].
    + unfold Eff.bind at 1. unfold Eff.push at 1. cbn [Eff.trace Eff.allContacts].
      destruct (after_truthy (next_after page)).
      * destruct (IH (next_after page)
                    (Eff.mkSt (Eff.trace s ++ [ev after])
                              (Eff.allContacts s ++ results page)))
          as (evs & Ht & Hlen & Hall).
        cbn [Eff.trace] in Ht. exists (ev after :: evs). rewrite Ht. cbn [length].
        rewrite <- app_assoc. split; [done|]. split; [lia|].
        constructor; [by eexists | done].
      * exists [ev after]. cbn. split; [done|]. split; [lia|].
        constructor; [by eexists | constructor].
    + exists [ev after]. cbn. split; [done|]. split; [lia|].
      constructor; [by eexists | constructor].
Qed.

Lemma fetch_contacts_run env sd s :
  exists searches pages,
    Eff.trace (fetch_contacts env sd s).1 = Eff.trace s ++ searches ++ pages
    /\ Forall (fun e => is_search e = true) searches
    /\ Forall (fun e => is_page e = true) pages
    /\ (length searches <= 500)%nat /\ (length pages <= 500)%nat
    /\ (length searches + length pages <= 700)%nat.
Proof.
  assert (Hs : forall evs, Forall (fun e => exists a, e = EvSearch a) evs ->
                 Forall (fun e => is_search e = true) evs).
  { intros evs H. eapply Forall_impl; [exact H|]. by intros e [a ->]. }
  assert (Hp : forall evs, Forall (fun e => exists a, e = EvGetPage a) evs ->
                 Forall (fun e => is_page e = true) evs).
  { intros evs H. eapply Forall_impl; [exact H|]. by intros e [a ->]. }
  assert (Hplain : exists searches pages,
    Eff.trace (paginate EvGetPage (contacts_getPage env) 500 None s).1
      = Eff.trace s ++ searches ++ pages
    /\ Forall (fun e => is_search e = true) searches
    /\ Forall (fun e => is_page e = true) pages
    /\ (length searches <= 500)%nat /\ (length pages <= 500)%nat
    /\ (length searches + length pages <= 700)%nat).
  { destruct (paginate_run EvGetPage (contacts_getPage env) 500 None s)
      as (evs & Ht & Hlen & Hall).
    exists [], evs. cbn [app length]. repeat split; auto; lia. }
  unfold fetch_contacts. destruct sd as [d|]; [|exact Hplain].
  destruct (2025 <=? getFullYear d); [|exact Hplain].
  unfold Eff.try_catch.
  destruct (paginate_run EvSearch (searchApi_doSearch env (getTime d)) 500 None s)
    as (evs1 & Ht1 & Hlen1 & Hall1).
  destruct (paginate EvSearch (searchApi_doSearch env (getTime d)) 500 None s)
    as [s1 [[]|e]]; cbn [fst] in Ht1.
  - exists evs1, []. cbn [fst]. rewrite app_nil_r. cbn [length].
    repeat split; auto; lia.
  - destruct (paginate_run EvGetPage (contacts_getPage env) 200 None s1)
      as (evs2 & Ht2 & Hlen2 & Hall2).
    exists evs1, evs2. rewrite Ht2, Ht1, <- app_assoc. repeat split; auto; lia.
Qed.

(** The map the lookup loop ends with. *)
Lemma lookup_all_run {V} ev (api : string -> result V) ids : forall m s,
  exists m',
    lookup_all ev api ids m s
    = (Eff.mkSt (Eff.trace s ++ map ev ids) (Eff.allContacts s), Ok m')
    /\ forall i, m' !! i = if bool_decide (i ∈ ids)
                           then match api i with Ok v => Some v | Err _ => m !! i end
                           else m !! i.
Proof.
  induction ids as [|j ids IH]; intros m s; cbn [lookup_all].
  - exists m. cbn. rewrite app_nil_r. split; [by destruct s|].
    intros i. rewrite bool_decide_eq_false_2; [done|]. apply not_elem_of_nil.
  - unfold Eff.bind at 1. unfold Eff.try_catch, Eff.bind, Eff.call, Eff.ret.
    set (s1 := Eff.mkSt (Eff.trace s ++ [ev j]) (Eff.allContacts s)).
    assert (Happ : forall l, Eff.trace s1 ++ l = Eff.trace s ++ ev j :: l).
    { intros l. unfold s1. cbn. by rewrite <- app_assoc. }
    destruct (api j) as [v|e] eqn:Hj.
    + destruct (IH (<[j := v]> m) s1) as (m' & Hrun & Hm').
      exists m'. rewrite Hrun, Happ. split; [done|].
      intros i. rewrite Hm'. destruct (decide (i = j)) as [->|Hne].
      * rewrite (bool_decide_eq_true_2 (j ∈ j :: ids)) by apply list_elem_of_here.
        rewrite Hj, lookup_insert_eq. by destruct (bool_decide (j ∈ ids)).
      * rewrite lookup_insert_ne by done.
        destruct (bool_decide (i ∈ ids)) eqn:E.
        -- apply bool_decide_eq_true in E.
           rewrite bool_decide_eq_true_2; [done|]. by apply list_elem_of_further.
        -- apply bool_decide_eq_false in E.
           rewrite bool_decide_eq_false_2; [done|].
           intros [?|?]%elem_of_cons; done.
    + destruct (IH m s1) as (m' & Hrun & Hm').
      exists m'. rewrite Hrun, Happ. split; [done|].
      intros i. rewrite Hm'. destruct (decide (i = j)) as [->|Hne].
      * rewrite (bool_decide_eq_true_2 (j ∈ j :: ids)) by apply list_elem_of_here.
        rewrite Hj. by destruct (bool_decide (j ∈ ids)).
      * destruct (bool_decide (i ∈ ids)) eqn:E.
        -- apply bool_decide_eq_true in E.
           rewrite bool_decide_eq_true_2; [done|]. by apply list_elem_of_further.
        -- apply bool_decide_eq_false in E.
           rewrite bool_decide_eq_false_2; [done|].
           intros [?|?]%elem_of_cons; done.
Qed.

Lemma in_list_elem_of x l : in_list x l = true <-> x ∈ l.
Proof.
  unfold in_list. rewrite existsb_exists. split.
  - intros (y & Hy & E). apply String.eqb_eq in E. subst. by apply list_elem_of_In.
  - intros H. exists x. split; [by apply list_elem_of_In | apply String.eqb_refl].
Qed.

Lemma dedupe_spec ids : forall seen,
  NoDup (dedupe seen ids)
  /\ forall i, i ∈ dedupe seen ids <-> i ∈ ids /\ i ∉ seen.
Proof.
  induction ids as [|j ids IH]; intros seen; cbn [dedupe].
  - split; [constructor|]. intros i. split; [by intros ?%elem_of_nil|].
    by intros [?%elem_of_nil _].
  - destruct (in_list j seen) eqn:E.
    + apply in_list_elem_of in E. destruct (IH seen) as [Hnd Hin]. split; [done|].
      intros i. rewrite Hin, elem_of_cons. split; [tauto|].
      intros [[->|H] Hs]; [done|by split].
    + assert (Hj : j ∉ seen).
      { intros H%in_list_elem_of. congruence. }
      destruct (IH (j :: seen)) as [Hnd Hin]. split.
      * constructor; [|done]. rewrite Hin. intros [_ H]. apply H, list_elem_of_here.
      * intros i. rewrite !elem_of_cons, Hin, elem_of_cons. split.
        -- intros [->|[H1 H2]]; [by split; [left|] |]. split; [by right|]. tauto.
        -- intros [[->|H] Hs]; [by left|]. destruct (decide (i = j)) as [->|Hne]; [by left|].
           right. split; [done|]. intros [?|?]; done.
Qed.

Lemma process_contacts_run host env sd ed s :
  exists rest,
    Eff.trace (process_contacts host env sd ed s).1 = Eff.trace s ++ rest
    /\ (rest = [EvReadCsv]
        \/ exists companyIds ownerIds,
             rest = map EvGetCompany companyIds ++ map EvGetOwner ownerIds
             /\ NoDup companyIds /\ NoDup ownerIds).
Proof.
  unfold process_contacts. unfold Eff.bind at 1. unfold Eff.get_contacts. cbv zeta.
  destruct (Nat.eqb _ 0).
  - exists [EvReadCsv]. split; [|by left].
    unfold Eff.bind, processCSVData, Eff.try_catch, Eff.bind, Eff.call.
    by destruct (csvRecords env sd ed).
  - set (contacts := match sd, ed with None, None => _ | _, _ => _ end).
    set (companyIds := dedupe [] (concat (map c_companies contacts))).
    set (ownerIds := dedupe [] (owner_ids contacts)).
    exists (map EvGetCompany companyIds ++ map EvGetOwner ownerIds). split.
    + unfold Eff.bind at 1.
      destruct (lookup_all_run EvGetCompany (companies_getById env) companyIds ∅ s)
        as (cm & -> & _).
      unfold Eff.bind at 1.
      destruct (lookup_all_run EvGetOwner (owners_getById env) ownerIds ∅
                  (Eff.mkSt (Eff.trace s ++ map EvGetCompany companyIds) (Eff.allContacts s)))
        as (om & -> & _).
      cbn. by rewrite <- app_assoc.
    + right. exists companyIds, ownerIds. split; [done|].
      split; apply dedupe_spec.
Qed.

(** X22: The requests of one invocation, in order: at most 500 search pages,
    then at most 500 listing pages (at most 700 pages in all), then either
    nothing, or one read of the flat file, or the company lookups followed
    by the owner lookups with no id asked for twice; with a configured key
    the returned promise never rejects. *)
Theorem requests_follow_the_protocol (host : Host) (env : Env)
    (startDate endDate : option JsDate) :
  protocol (Eff.trace (fetchAndProcessHubSpotData host env startDate endDate Eff.initial).1)
  /\ (key_configured env = true ->
      exists r, (fetchAndProcessHubSpotData host env startDate endDate Eff.initial).2 = Ok r).
Proof.
  unfold fetchAndProcessHubSpotData. destruct (key_configured env); cbn [negb].
  2:{ split; [|done]. exists [], [], []. cbn. repeat split; auto; lia. }
  unfold Eff.try_catch, fetch_body. unfold Eff.bind.
  destruct (fetch_contacts_run env startDate Eff.initial)
    as (searches & pages & Ht & Hs & Hp & H1 & H2 & H3).
  destruct (fetch_contacts env startDate Eff.initial) as [s1 [[]|e]]; cbn [fst] in Ht.
  - destruct (process_contacts_run host env startDate endDate s1) as (rest & Hr & Hrest).
    destruct (process_contacts host env startDate endDate s1) as [s2 [r|e]];
      cbn [fst snd Eff.ret] in *.
    all: split; [|by eexists].
    all: exists searches, pages, rest; rewrite Hr, Ht; cbn [Eff.trace Eff.initial app].
    all: rewrite <- app_assoc; repeat split; auto.
    all: destruct Hrest as [->|H]; [by right; left | by right; right].
  - cbn [fst snd Eff.ret]. split; [|by eexists].
    exists searches, pages, []. rewrite Ht. cbn [Eff.trace Eff.initial app].
    rewrite app_nil_r. repeat split; auto.
Qed.

(** ** Qualified leads *)

Lemma lead_in_range_keep host cm sd ed c :
  lead_in_range host sd ed c = true ->
  keep_contact host cm (getTime <$> sd) (getTime <$> ed) c = true.
Proof.
  unfold lead_in_range, keep_contact. intros H.
  destruct (c_properties c !! "createdate") as [s|]; [|done].
  destruct (Js.truthy s) eqn:Hs; [|done]. rewrite Hs.
  destruct (newDate host s) as [d|]; [|done].
  by destruct (getTime <$> sd), (getTime <$> ed).
Qed.

Lemma filteredLeads_kept host cm sd ed cs :
  List.filter (keep_contact host cm (getTime <$> sd) (getTime <$> ed))
    (filteredLeads host sd ed cs)
  = filteredLeads host sd ed cs.
Proof.
  apply filter_all. unfold filteredLeads.
  destruct sd as [sd|], ed as [ed|];
    try (apply Forall_forall; intros c Hc%list_elem_of_In; apply filter_In in Hc as [_ Hc];
         by apply lead_in_range_keep).
  apply Forall_forall. by intros c _.
Qed.

Lemma qualified_leads_processed host env sd ed s :
  List.filter is_qualified (Eff.allContacts s) <> [] ->
  exists p s',
    process_contacts host env sd ed s = (s', Ok (Some p))
    /\ totalAccounts p = length (filteredLeads host sd ed (Eff.allContacts s))
    /\ Forall estimated (allAccounts p)
    /\ EvReadCsv ∉ drop (length (Eff.trace s)) (Eff.trace s').
Proof.
  intros Hq. unfold process_contacts. unfold Eff.bind at 1. unfold Eff.get_contacts.
  cbv zeta.
  destruct (Nat.eqb_spec (length (List.filter is_qualified (Eff.allContacts s))) 0)
    as [E|_].
  { destruct (List.filter is_qualified (Eff.allContacts s)); [done|discriminate E]. }
  fold (filteredLeads host sd ed (Eff.allContacts s)).
  set (contacts := filteredLeads host sd ed (Eff.allContacts s)).
  set (companyIds := dedupe [] (concat (map c_companies contacts))).
  set (ownerIds := dedupe [] (owner_ids contacts)).
  unfold Eff.bind at 1.
  destruct (lookup_all_run EvGetCompany (companies_getById env) companyIds ∅ s)
    as (cm & -> & _).
  unfold Eff.bind at 1.
  destruct (lookup_all_run EvGetOwner (owners_getById env) ownerIds ∅
              (Eff.mkSt (Eff.trace s ++ map EvGetCompany companyIds) (Eff.allContacts s)))
    as (om & -> & _).
  eexists _, _. split; [reflexivity|].
  cbn [totalAccounts allAccounts processAccountDataInternal Eff.trace].
  unfold transformHubSpotDataToAccountData. subst contacts.
  rewrite filteredLeads_kept.
  destruct (transform_all_estimated host cm om
              (filteredLeads host sd ed (Eff.allContacts s)) 0%nat) as [H1 H2].
  split; [done|]. split; [done|].
  rewrite <- app_assoc, drop_app_length.
  intros [H|H]%elem_of_app; apply list_elem_of_fmap in H as (i & Hi & _); discriminate Hi.
Qed.

(** X23: With a configured key and a range whose dates are absent or
    valid, when the contact listing completes and at least one fetched
    contact is a qualified lead, the call returns a snapshot (not null,
    whatever the company and owner lookups answer) whose totalAccounts is
    the number of qualified leads inside the date range, so the
    transformer's own date filter drops none of them; every account carries
    a sales estimate, and the flat file is not read, even when the range
    leaves no lead.  When the listing fails instead, on whatever page, the
    call returns null, whatever was fetched before. *)
Theorem qualified_leads_become_accounts (host : Host) (env : Env)
    (startDate endDate : option JsDate) (s1 : Eff.St) :
  key_configured env = true ->
  (fetch_contacts env startDate Eff.initial = (s1, Ok tt) ->
   List.filter is_qualified (Eff.allContacts s1) <> [] ->
   exists p s',
     fetchAndProcessHubSpotData host env startDate endDate Eff.initial = (s', Ok (Some p))
     /\ totalAccounts p = length (filteredLeads host startDate endDate (Eff.allContacts s1))
     /\ Forall estimated (allAccounts p)
     /\ EvReadCsv ∉ Eff.trace s')
  /\ (forall e, fetch_contacts env startDate Eff.initial = (s1, Err e) ->
       fetchAndProcessHubSpotData host env startDate endDate Eff.initial = (s1, Ok None)).
Proof.
  intros Hk. split; [|intros e; by apply transport_failure_returns_null].
  intros Hf Hq.
  destruct (qualified_leads_processed host env startDate endDate s1 Hq)
    as (p & s' & Hrun & Htotal & Hest & Hcsv).
  exists p, s'. unfold fetchAndProcessHubSpotData. rewrite Hk. cbn [negb].
  unfold Eff.try_catch, fetch_body, Eff.bind at 1. rewrite Hf, Hrun.
  split; [done|]. split; [done|]. split; [done|].
  destruct (fetch_contacts_run env startDate Eff.initial)
    as (searches & pages & Ht & Hs & Hp & _).
  rewrite Hf in Ht. cbn [fst Eff.trace Eff.initial app] in Ht.
  pose proof (monotone_process_contacts host env startDate endDate s1) as [l Hl].
  rewrite Hrun in Hl. cbn [fst] in Hl.
  rewrite Hl, drop_app_length in Hcsv. rewrite Hl, Ht.
  intros [[H|H]%elem_of_app|H]%elem_of_app; [| |done].
  - rewrite Forall_forall in Hs. by apply Hs in H.
  - rewrite Forall_forall in Hp. by apply Hp in H.
Qed.

Lemma qualified_leads_become_accounts_witness :
  exists p s',
    fetchAndProcessHubSpotData Sample.host (busy_portal (Some "key")) None None Eff.initial
    = (s', Ok (Some p))
    /\ totalAccounts p = 1%nat
    /\ Forall estimated (allAccounts p)
    /\ EvReadCsv ∉ Eff.trace s'.
Proof.
  refine (proj1 (qualified_leads_become_accounts Sample.host (busy_portal (Some "key"))
                   None None (Eff.mkSt [EvGetPage None] [qualified_contact; sample_contact])
                   eq_refl) eq_refl _).
  vm_compute. discriminate.
Defined.

(** ** Risk levels *)

Lemma days_gt (age n : Z) :
  Num.gt (Num.div (Num.of_Z age) (Num.of_Z MS_PER_DAY)) (Num.of_Z n)
  = (n * MS_PER_DAY <? age).
Proof.
  unfold Num.gt, Num.lt, Num.div, Num.of_Z.
  change (Qeq_bool (inject_Z MS_PER_DAY) 0) with false. cbv iota.
  assert (Hms : (0 < inject_Z MS_PER_DAY)%Q) by reflexivity.
  destruct (Z.ltb_spec (n * MS_PER_DAY) age) as [H|H].
  - apply Qltb_true. apply Qlt_shift_div_l; [done|].
    rewrite <- inject_Z_mult, <- Zlt_Qlt. done.
  - apply not_true_is_false. intros E%Qltb_true.
    assert (inject_Z age <= inject_Z n * inject_Z MS_PER_DAY)%Q
      by (rewrite <- inject_Z_mult, <- Zle_Qle; done).
    assert (inject_Z age / inject_Z MS_PER_DAY <= inject_Z n)%Q
      by (apply Qle_shift_div_r; done).
    lra.
Qed.

(** X24: getLeadRiskLevel returns Unknown exactly when the creation date is
    empty or N/A; a date text the host cannot read gives Low Risk (the NaN
    age fails both comparisons); otherwise the level depends only on the age
    now - created in milliseconds: High Risk above 60 days, Medium Risk
    above 30 days, else Low Risk. *)
Theorem risk_level_by_age (host : Host) (now : Z) (account : AccountData) :
  let created := Date_Created account in
  let risk := getLeadRiskLevel host now account in
  (risk = "Unknown" <-> created = EmptyString \/ created = "N/A")
  /\ (created <> EmptyString -> created <> "N/A" ->
      newDate host created = None -> risk = "✅ Low Risk")
  /\ (forall d, created <> EmptyString -> created <> "N/A" ->
      newDate host created = Some d -> risk = risk_of_age (now - getTime d)).
Proof.
  cbv zeta. unfold getLeadRiskLevel.
  assert (Hcase : forall d, (if Num.gt (Num.div (Num.sub (Num.of_Z now) (Num.of_Z (getTime d)))
                                      (Num.of_Z MS_PER_DAY)) (Num.of_Z 60)
             then "🚨 High Risk"
             else if Num.gt (Num.div (Num.sub (Num.of_Z now) (Num.of_Z (getTime d)))
                                     (Num.of_Z MS_PER_DAY)) (Num.of_Z 30)
                  then "⚠️ Medium Risk" else "✅ Low Risk")
            = risk_of_age (now - getTime d)).
  { intros d. unfold risk_of_age. rewrite <- !days_gt.
    assert (Heq : forall n,
              Num.gt (Num.div (Num.sub (Num.of_Z now) (Num.of_Z (getTime d)))
                              (Num.of_Z MS_PER_DAY)) (Num.of_Z n)
              = Num.gt (Num.div (Num.of_Z (now - getTime d)) (Num.of_Z MS_PER_DAY))
                       (Num.of_Z n)).
    { intros n. unfold Num.gt, Num.lt, Num.div, Num.sub, Num.add, Num.neg, Num.of_Z.
      change (Qeq_bool (inject_Z MS_PER_DAY) 0) with false. cbv iota.
      assert (E : (inject_Z now + - inject_Z (getTime d) == inject_Z (now - getTime d))%Q).
      { unfold Z.sub. by rewrite inject_Z_plus, inject_Z_opp. }
      unfold Num.Qltb. f_equal.
      destruct (Qle_bool ((inject_Z now + - inject_Z (getTime d)) / inject_Z MS_PER_DAY)
                         (inject_Z n)) eqn:E1.
      - apply Qle_bool_iff in E1. rewrite E in E1. symmetry. by apply Qle_bool_iff.
      - symmetry. apply not_true_is_false. intros E2%Qle_bool_iff. rewrite <- E in E2.
        apply Qle_bool_iff in E2. congruence. }
    by rewrite !Heq. }
  destruct (Date_Created account) as [|c s] eqn:Hc.
  { cbn. split; [split; [by left|done]|]. split; [done|]. intros d H. by destruct H. }
  cbn [Js.truthy negb orb].
  destruct (String.eqb_spec (String c s) "N/A") as [E|E].
  { rewrite E. split; [split; [by right|done]|]. split; [done|]. intros d _ H. by destruct H. }
  split.
  { split; [|by intros [?|?]].
    destruct (newDate host (String c s)) as [d|].
    - rewrite Hcase. unfold risk_of_age. by repeat destruct (_ <? _).
    - by cbn. }
  split.
  { by intros _ _ ->. }
  intros d _ _ ->. apply Hcase.
Qed.

(** ** Flat-file records *)

Lemma opt_or_truthy o d : Js.truthy d = true -> Js.truthy (Js.opt_or o d) = true.
Proof. intros Hd. destruct o as [s|]; [by apply or_else_truthy | done]. Qed.

Lemma csv_row_record ch headers sd ed line a :
  csv_row ch headers sd ed line = Some a -> csv_record a.
Proof.
  unfold csv_row. cbv zeta. destruct (Nat.ltb _ _); [done|].
  destruct (negb _); [done|]. intros [= <-]. unfold csv_record.
  cbn [Lifecycle_Stage Total_Sales Account_ID Account_Name Address Date_Last_Quoted
       Primary_Rep_Name Analytics_Source Latest_Source First_Touch_Campaign
       Last_Touch_Campaign First_URL Number_of_Visits].
  split.
  { destruct (csv_object headers (parseCSVLine line) !! "Total Sales") as [s|]; [|done].
    cbn [Js.opt_or]. unfold Js.or_else. by destruct s. }
  split.
  { destruct (Num.truthy _) eqn:E; [|done].
    by destruct (match csv_object _ _ !! "Account ID" with Some s => _ | None => _ end). }
  repeat (split; [by apply opt_or_truthy|]). done.
Qed.

Lemma omap_length_le {A B} (f : A -> option B) l : (length (omap f l) <= length l)%nat.
Proof. induction l as [|x l IH]; [done|]. cbn. destruct (f x); simpl; lia. Qed.

(** X25: The account list of processCSVData: building it fails exactly when
    the file has no non-blank line; otherwise it has fewer accounts than
    non-blank lines, and every account has its lifecycle stage derived from
    its own Total Sales text, an id that is not NaN, non-empty name,
    address, sales, last-quoted and rep texts, and no attribution field. *)
Theorem flat_file_rows_are_well_formed (ch : CsvHost) (csvContent : string)
    (startDate endDate : option JsDate) :
  match csv_accounts ch csvContent startDate endDate with
  | Ok accounts =>
      (length accounts < length (csv_lines csvContent))%nat
      /\ Forall csv_record accounts
  | Err _ => csv_lines csvContent = []
  end.
Proof.
  unfold csv_accounts. destruct (csv_lines csvContent) as [|header rows]; [done|].
  split.
  - cbn [length]. pose proof (omap_length_le
      (csv_row ch (csv_headers header) startDate endDate) rows). lia.
  - apply Forall_forall. intros a Ha. apply list_elem_of_omap in Ha as (line & _ & Hrow).
    by eapply csv_row_record.
Qed.

(** ** Snapshots of flat-file records *)

Lemma csv_record_campaign data : forall m,
  Forall csv_record data -> fold_left campaign_step data m = m.
Proof.
  induction data as [|a data IH]; intros m Hall; [done|].
  apply Forall_cons in Hall as [Ha Hall]. cbn [fold_left]. rewrite IH by done.
  destruct Ha as (_ & _ & _ & _ & _ & _ & _ & _ & _ & Hf & Hl & _).
  unfold campaign_step, campaign_of. by rewrite Hf, Hl.
Qed.

Lemma csv_record_page host data : forall m,
  Forall csv_record data -> fold_left (page_step host) data m = m.
Proof.
  induction data as [|a data IH]; intros m Hall; [done|].
  apply Forall_cons in Hall as [Ha Hall]. cbn [fold_left]. rewrite IH by done.
  destruct Ha as (_ & _ & _ & _ & _ & _ & _ & _ & _ & _ & _ & Hu & _).
  unfold page_step, page_key. by rewrite Hu.
Qed.

Lemma csv_record_source data : forall m k,
  Forall csv_record data ->
  is_Some (fold_left source_step data m !! k) -> k = "Unknown" \/ is_Some (m !! k).
Proof.
  induction data as [|a data IH]; intros m k Hall Hk; [by right|].
  apply Forall_cons in Hall as [Ha Hall]. cbn [fold_left] in Hk.
  destruct (IH _ _ Hall Hk) as [?|H]; [by left|].
  destruct Ha as (_ & _ & _ & _ & _ & _ & _ & Hs & Hl & _).
  unfold source_step, source_key in H. rewrite Hs, Hl in H.
  change (normalizeTrafficSource _) with "Unknown" in H.
  rewrite lookup_upsert in H. destruct (decide ("Unknown" = k)); [by left|by right].
Qed.

Lemma csv_record_score a :
  csv_record a -> In (calculateLeadHealthScore a) [50; 65; 75; 80].
Proof.
  intros (Hstage & _ & _ & _ & _ & _ & _ & Hs & _ & _ & _ & _ & Hv).
  unfold calculateLeadHealthScore, visits_of, stage_lower. rewrite Hs, Hv, Hstage.
  assert (H : In (determineLifecycleStage (parseCurrency (Total_Sales a)))
                ["customer"; "salesqualifiedlead"; "marketingqualifiedlead"; "lead"]).
  { unfold determineLifecycleStage.
    repeat match goal with |- context [if ?b then _ else _] => destruct b end;
      simpl; tauto. }
  set (stage := determineLifecycleStage _) in *. clearbody stage.
  repeat (destruct H as [<-|H]; [vm_compute; tauto|]). destruct H.
Qed.

(** X26: In the snapshot of records built by the flat-file adapter,
    campaignPerformance and landingPagePerformance are empty, the only
    traffic source is Unknown, and every lead health score is 50, 65, 75 or
    80. *)
Theorem flat_file_snapshot_has_no_attribution (host : Host) (data : list AccountData) :
  Forall csv_record data ->
  let p := processAccountDataInternal host data in
  campaignPerformance p = ∅
  /\ landingPagePerformance p = ∅
  /\ (forall k, is_Some (trafficSourcePerformance p !! k) -> k = "Unknown")
  /\ Forall (fun e => In (healthScore e) [50; 65; 75; 80]) (leadHealthScores p).
Proof.
  intros Hall. cbv zeta.
  cbn [campaignPerformance landingPagePerformance trafficSourcePerformance leadHealthScores
       processAccountDataInternal].
  split; [by apply csv_record_campaign|]. split.
  { unfold landingPagePerformance_of. rewrite csv_record_page by done. apply fmap_empty. }
  split.
  { intros k Hk. unfold trafficSourcePerformance_of in Hk.
    rewrite map_lookup_imap in Hk.
    destruct (fold_left source_step data ∅ !! k) as [b|] eqn:E.
    - destruct (csv_record_source data ∅ k Hall) as [?|H]; [by rewrite E | done |].
      rewrite lookup_empty in H. by destruct H.
    - cbn in Hk. by destruct Hk. }
  unfold leadHealthScores_of.
  rewrite js_sort_perm.
  apply Forall_map. eapply Forall_impl; [exact Hall|].
  intros a Ha. cbn [health_entry healthScore]. by apply csv_record_score.
Qed.

Lemma flat_file_snapshot_has_no_attribution_witness :
  let p := processAccountDataInternal Sample.host [Sample.csv_account "Foo Inc" "Bob" "12,500"] in
  campaignPerformance p = ∅
  /\ landingPagePerformance p = ∅
  /\ (forall k, is_Some (trafficSourcePerformance p !! k) -> k = "Unknown")
  /\ Forall (fun e => In (healthScore e) [50; 65; 75; 80]) (leadHealthScores p).
Proof.
  refine (flat_file_snapshot_has_no_attribution Sample.host
            [Sample.csv_account "Foo Inc" "Bob" "12,500"] _).
  constructor; [|constructor]. unfold csv_record. vm_compute. repeat split.
Defined.

(** ** Columns *)

Lemma csv_object_other (l : list (string * string)) : forall (m : gmap string string) h,
  h ∉ map fst l ->
  fold_left (fun account hv =>
               if String.eqb hv.1 "__proto__" then account
               else <[hv.1 := Js.or_else (Js.trim (remove_quotes hv.2)) EmptyString]> account) l m !! h
  = m !! h.
Proof.
  induction l as [|[h0 v0] l IH]; intros m h Hh; [done|]. cbn [fold_left].
  cbn [map fst] in Hh. apply not_elem_of_cons in Hh as [Hne Hh].
  rewrite IH by done. cbn [fst snd]. destruct (String.eqb h0 "__proto__"); [done|].
  by rewrite lookup_insert_ne.
Qed.

Lemma csv_object_proto (l : list (string * string)) : forall (m : gmap string string),
  m !! "__proto__" = None ->
  fold_left (fun account hv =>
               if String.eqb hv.1 "__proto__" then account
               else <[hv.1 := Js.or_else (Js.trim (remove_quotes hv.2)) EmptyString]> account) l m
    !! "__proto__"
  = None.
Proof.
  induction l as [|[h0 v0] l IH]; intros m Hm; [done|]. cbn [fold_left fst snd].
  apply IH. destruct (String.eqb_spec h0 "__proto__") as [->|Hne]; [done|].
  by rewrite lookup_insert_ne.
Qed.

Lemma or_else_empty s : Js.or_else s EmptyString = s.
Proof. by destruct s. Qed.

(** X27: With distinct headers, the value a row stores under a header other
    than __proto__ is the field at the header's position, without its double
    quotes and trimmed, whatever the order of the columns; under the header
    __proto__ a row stores nothing. *)
Theorem columns_are_read_by_header (headers values : list string) (i : nat) (h v : string) :
  NoDup headers -> headers !! i = Some h -> values !! i = Some v ->
  (h <> "__proto__" -> csv_object headers values !! h = Some (Js.trim (remove_quotes v)))
  /\ csv_object headers values !! "__proto__" = None.
Proof.
  intros Hnd Hh Hv. split; [|by apply csv_object_proto].
  intros Hproto. revert Hnd Hh Hv.
  unfold csv_object. generalize (∅ : gmap string string) as m.
  revert values i. induction headers as [|h0 hs IH]; intros values i m Hnd Hh Hv; [done|].
  destruct values as [|v0 vs]; [done|]. apply NoDup_cons in Hnd as [Hh0 Hnd].
  cbn [zip zip_with fold_left fst snd]. destruct i as [|i].
  - injection Hh as ->. injection Hv as ->.
    apply String.eqb_neq in Hproto. rewrite Hproto.
    rewrite csv_object_other.
    + by rewrite lookup_insert_eq, or_else_empty.
    + intros H. apply Hh0. apply list_elem_of_fmap in H as ([h' v'] & -> & Hin).
      apply elem_of_zip_l in Hin. done.
  - by apply (IH vs i).
Qed.

Lemma columns_are_read_by_header_witness :
  csv_object ["Total Sales"; "__proto__"; "Account Name"]
    (parseCSVLine (quoted "$1,200" +:+ ",x, Acme ")) !! "Account Name"
  = Some "Acme"
  /\ csv_object ["Total Sales"; "__proto__"; "Account Name"]
       (parseCSVLine (quoted "$1,200" +:+ ",x, Acme ")) !! "__proto__"
     = None.
Proof.
  assert (Hnd : NoDup ["Total Sales"; "__proto__"; "Account Name"]).
  { repeat constructor; [| |by intros ?%elem_of_nil].
    - intros [E|[E|H]%elem_of_cons]%elem_of_cons;
        [discriminate E | discriminate E | by apply elem_of_nil in H].
    - intros [E|H]%elem_of_cons; [discriminate E | by apply elem_of_nil in H]. }
  destruct (columns_are_read_by_header ["Total Sales"; "__proto__"; "Account Name"]
              (parseCSVLine (quoted "$1,200" +:+ ",x, Acme ")) 2 "Account Name" " Acme "
              Hnd eq_refl eq_refl) as [H1 H2].
  split; [|exact H2]. apply H1. discriminate.
Defined.

(** ** Responders *)

Lemma rep_incr_keys rep l :
  map fst (rep_incr rep l)
  = if bool_decide (rep ∈ map fst l) then map fst l else map fst l ++ [rep].
Proof.
  induction l as [|[k n] l IH]; [done|]. cbn [rep_incr map fst].
  destruct (String.eqb_spec k rep) as [->|Hne].
  - cbn [map fst]. rewrite bool_decide_eq_true_2; [done|]. apply list_elem_of_here.
  - cbn [map fst]. rewrite IH. destruct (bool_decide (rep ∈ map fst l)) eqn:E.
    + apply bool_decide_eq_true in E. rewrite bool_decide_eq_true_2; [done|].
      by apply list_elem_of_further.
    + apply bool_decide_eq_false in E. rewrite bool_decide_eq_false_2; [done|].
      intros [?|?]%elem_of_cons; [congruence|done].
Qed.

Lemma rep_incr_tally rep l k :
  tally (rep_incr rep l) k = (tally l k + if String.eqb rep k then 1 else 0)%nat.
Proof.
  unfold tally. induction l as [|[k0 n0] l IH].
  - cbn. destruct (String.eqb rep k); lia.
  - cbn [rep_incr]. destruct (String.eqb_spec k0 rep) as [->|Hne].
    + cbn [sum_list_with fst snd]. destruct (String.eqb rep k); lia.
    + cbn [sum_list_with fst snd]. rewrite IH. lia.
Qed.

Lemma reps_fold data : forall l,
  NoDup (map fst l) ->
  NoDup (map fst (fold_left (fun l a => rep_add (responder a) l) data l))
  /\ (forall k, k <> "__proto__" ->
         tally (fold_left (fun l a => rep_add (responder a) l) data l) k
         = (tally l k + leads_of data k)%nat)
  /\ (forall k, k ∈ map fst (fold_left (fun l a => rep_add (responder a) l) data l)
                <-> k ∈ map fst l \/ (k <> "__proto__" /\ k ∈ map responder data)).
Proof.
  induction data as [|a data IH]; intros l Hnd; cbn [fold_left].
  - split; [done|]. split.
    + intros k _. unfold leads_of, count_of. simpl. lia.
    + intros k. cbn. rewrite elem_of_nil. tauto.
  - unfold rep_add at 2 4 6. destruct (String.eqb_spec (responder a) "__proto__") as [E|E].
    + destruct (IH _ Hnd) as (H1 & H2 & H3). split; [done|]. split.
      * intros k Hk. rewrite H2 by done. unfold leads_of. rewrite count_of_cons.
        rewrite E. destruct (String.eqb_spec "__proto__" k); [congruence|]. lia.
      * intros k. rewrite H3. cbn [map]. rewrite elem_of_cons.
        split; [tauto|]. intros [?|[Hk [->|?]]]; [tauto|congruence|tauto].
    + assert (Hnd' : NoDup (map fst (rep_incr (responder a) l))).
      { rewrite rep_incr_keys. destruct (bool_decide _) eqn:E'; [done|].
        apply bool_decide_eq_false in E'. apply NoDup_app. split; [done|].
        split; [|repeat constructor; by intros ?%elem_of_nil].
        intros x Hx ->%list_elem_of_singleton. done. }
      destruct (IH _ Hnd') as (H1 & H2 & H3). split; [done|]. split.
      * intros k Hk. rewrite H2, rep_incr_tally by done. unfold leads_of.
        rewrite count_of_cons. lia.
      * intros k. rewrite H3, rep_incr_keys. cbn [map]. rewrite elem_of_cons.
        destruct (bool_decide _) eqn:E'.
        -- apply bool_decide_eq_true in E'. split; [tauto|].
           intros [?|[Hk [->|?]]]; tauto.
        -- rewrite elem_of_app, list_elem_of_singleton. split; [|tauto].
           intros [[?| ->]|?]; tauto.
Qed.

Lemma tally_entry l k n :
  NoDup (map fst l) -> (k, n) ∈ l -> tally l k = n.
Proof.
  unfold tally. induction l as [|[k0 n0] l IH]; intros Hnd Hin; [by apply elem_of_nil in Hin|].
  cbn [map fst] in Hnd. apply NoDup_cons in Hnd as [Hk0 Hnd].
  cbn [sum_list_with fst snd]. apply elem_of_cons in Hin as [E|Hin].
  - injection E as -> ->. rewrite String.eqb_refl.
    assert (H : sum_list_with (fun e => if String.eqb (fst e) k0 then snd e else 0%nat) l = 0%nat).
    { clear -Hk0. induction l as [|[k1 n1] l IH]; [done|]. cbn [sum_list_with fst snd].
      cbn [map fst] in Hk0. apply not_elem_of_cons in Hk0 as [Hne Hk0].
      destruct (String.eqb_spec k1 k0) as [->|_]; [done|]. by rewrite IH. }
    lia.
  - destruct (String.eqb_spec k0 k) as [->|_].
    + exfalso. apply Hk0. apply list_elem_of_fmap. by exists (k, n).
    + by rewrite IH.
Qed.

Lemma tally_perm l1 l2 k : Permutation l1 l2 -> tally l1 k = tally l2 k.
Proof. unfold tally. by intros ->. Qed.

Lemma own_entries_perm {V} (l : list (string * V)) : Permutation (own_entries l) l.
Proof.
  unfold own_entries. rewrite js_sort_perm.
  induction l as [|e l IH]; [done|]. cbn [List.filter].
  destruct (bool_decide _); cbn [negb app].
  - by constructor.
  - rewrite <- Permutation_middle. by constructor.
Qed.

Lemma sort_reps_perm l : Permutation (sort_reps l) l.
Proof. unfold sort_reps. by rewrite js_sort_perm, own_entries_perm. Qed.

Lemma sort_reps_sorted l :
  StronglySorted (fun a b => (snd b <= snd a)%nat) (sort_reps l).
Proof.
  assert (Hgt : forall x y : string * nat,
            Num.gt (Num.of_Z (Z.of_nat (snd y) - Z.of_nat (snd x))) Num.zero
            = (Z.of_nat (snd x) <? Z.of_nat (snd y))).
  { intros x y. unfold Num.gt, Num.lt, Num.zero, Num.of_Z.
    destruct (Z.ltb_spec (Z.of_nat x.2) (Z.of_nat y.2)) as [H|H].
    - apply Qltb_true. change 0%Q with (inject_Z 0). rewrite <- Zlt_Qlt. lia.
    - apply not_true_is_false. intros E%Qltb_true.
      change 0%Q with (inject_Z 0) in E. rewrite <- Zlt_Qlt in E. lia. }
  apply js_sort_sorted.
  - intros a b c. lia.
  - intros x y. rewrite Hgt. intros H%Z.ltb_lt. lia.
  - intros x y. rewrite Hgt. intros H%Z.ltb_ge. lia.
Qed.

Lemma sortedReps_facts data :
  let S := sort_reps (fold_left (fun l a => rep_add (responder a) l) data []) in
  NoDup (fst <$> S)
  /\ (fst <$> S) ≡ₚ reps_of data
  /\ (forall k n, (k, n) ∈ S -> n = leads_of data k).
Proof.
  cbv zeta. set (R := fold_left (fun l a => rep_add (responder a) l) data []).
  pose proof (sort_reps_perm R) as Hperm.
  destruct (reps_fold data [] (NoDup_nil_2)) as (Hnd & Htally & Hkeys).
  fold R in Hnd, Htally, Hkeys.
  assert (HndS : NoDup (fst <$> sort_reps R)).
  { rewrite (fmap_Permutation fst _ _ Hperm). exact Hnd. }
  split; [done|]. split.
  - apply NoDup_Permutation; [done | apply NoDup_remove_dups |].
    intros k. unfold reps_of. rewrite elem_of_remove_dups.
    rewrite (fmap_Permutation fst _ _ Hperm).
    change (fst <$> R) with (map fst R).
    rewrite Hkeys. cbn [map]. rewrite elem_of_nil.
    rewrite (list_elem_of_In (List.filter _ _) k), filter_In, <- list_elem_of_In,
      negb_true_iff, String.eqb_neq.
    tauto.
  - intros k n Hin.
    assert (Hk : k <> "__proto__").
    { assert (Hin' : k ∈ map fst R).
      { rewrite <- (fmap_Permutation fst _ _ Hperm). apply list_elem_of_fmap. by exists (k, n). }
      apply Hkeys in Hin' as [Hin'|[Hk _]]; [by apply elem_of_nil in Hin' | done]. }
    rewrite <- (tally_entry _ k n HndS Hin).
    rewrite (tally_perm _ _ k Hperm), Htally by done. unfold tally. simpl. lia.
Qed.

Lemma split_ranked (S : list (string * nat)) (i : nat) r r' :
  NoDup (fst <$> S) ->
  StronglySorted (fun a b => (snd b <= snd a)%nat) S ->
  r ∈ fst <$> take i S -> r' ∈ fst <$> S -> r' ∉ fst <$> take i S ->
  exists n n', (r, n) ∈ S /\ (r', n') ∈ S /\ (n' <= n)%nat.
Proof.
  intros Hnd Hs Hr Hr' Hnot.
  apply list_elem_of_fmap in Hr as ([k n] & -> & Hin).
  rewrite <- (take_drop i S) in Hr'. rewrite fmap_app, elem_of_app in Hr'.
  destruct Hr' as [?|Hr']; [done|].
  apply list_elem_of_fmap in Hr' as ([k' n'] & -> & Hin').
  rewrite <- (take_drop i S) in Hs.
  pose proof (StronglySorted_app_1_elem_of _ _ _ _ _ Hs Hin Hin') as Hle.
  exists n, n'. cbn [fst snd] in *. split; [|split; [|done]].
  - eapply elem_of_sublist; [exact Hin | apply sublist_take].
  - eapply elem_of_sublist; [exact Hin' | apply sublist_drop].
Qed.

Lemma split_ranked_last (S : list (string * nat)) (i : nat) r r' :
  NoDup (fst <$> S) ->
  StronglySorted (fun a b => (snd b <= snd a)%nat) S ->
  r ∈ fst <$> drop i S -> r' ∈ fst <$> S -> r' ∉ fst <$> drop i S ->
  exists n n', (r, n) ∈ S /\ (r', n') ∈ S /\ (n <= n')%nat.
Proof.
  intros Hnd Hs Hr Hr' Hnot.
  apply list_elem_of_fmap in Hr as ([k n] & -> & Hin).
  rewrite <- (take_drop i S) in Hr'. rewrite fmap_app, elem_of_app in Hr'.
  destruct Hr' as [Hr'|?]; [|done].
  apply list_elem_of_fmap in Hr' as ([k' n'] & -> & Hin').
  rewrite <- (take_drop i S) in Hs.
  pose proof (StronglySorted_app_1_elem_of _ _ _ _ _ Hs Hin' Hin) as Hle.
  exists n, n'. cbn [fst snd] in *. split; [|split; [|done]].
  - eapply elem_of_sublist; [exact Hin | apply sublist_drop].
  - eapply elem_of_sublist; [exact Hin' | apply sublist_take].
Qed.

(** X28: When no record's rep (an empty name counting as Unknown) is the
    name of a function every object inherits (constructor, toString, ...),
    fastResponders holds min(3, r) and slowResponders min(2, r) of the r
    distinct reps other than __proto__, each list without repetition; no
    such rep outside fastResponders has more records than one inside, none
    outside slowResponders has fewer than one inside; and with one to four
    such reps some rep is listed both as a fast and as a slow responder.  A
    rep named __proto__ is never listed. *)
Theorem responders_are_ranked (data : list AccountData) :
  Forall (fun a => stores_text a = false) data ->
  exists m,
    responseTimeMetrics_of data = Some m
    /\ let reps := reps_of data in
       NoDup (fastResponders m) /\ NoDup (slowResponders m)
       /\ length (fastResponders m) = Nat.min 3 (length reps)
       /\ length (slowResponders m) = Nat.min 2 (length reps)
       /\ (forall r, r ∈ fastResponders m \/ r ∈ slowResponders m ->
              r ∈ reps /\ r <> "__proto__")
       /\ (forall r r', r ∈ fastResponders m -> r' ∈ reps -> r' ∉ fastResponders m ->
              (leads_of data r' <= leads_of data r)%nat)
       /\ (forall r r', r ∈ slowResponders m -> r' ∈ reps -> r' ∉ slowResponders m ->
              (leads_of data r <= leads_of data r')%nat)
       /\ ((0 < length reps <= 4)%nat ->
           exists r, r ∈ fastResponders m /\ r ∈ slowResponders m).
Proof.
  intros Hfun.
  assert (Hno : existsb stores_text data = false).
  { apply not_true_is_false. intros (a & Ha & Hs)%existsb_exists.
    rewrite Forall_forall in Hfun. apply list_elem_of_In, Hfun in Ha. congruence. }
  unfold responseTimeMetrics_of, sortedReps_of, repsWithLeads_of. rewrite Hno.
  cbn [fmap option_fmap option_map]. eexists. split; [reflexivity|].
  cbv zeta. destruct (sortedReps_facts data) as (Hnd & Hperm & Hcount).
  pose proof (sort_reps_sorted (fold_left (fun l a => rep_add (responder a) l) data []))
    as Hsorted.
  cbn [fastResponders slowResponders].
  unfold slice_first, slice_last.
  set (S := sort_reps (fold_left (fun l a => rep_add (responder a) l) data [])) in *.
  change (map fst (take 3 S)) with (fst <$> take 3 S).
  change (map fst (drop (length S - 2) S)) with (fst <$> drop (length S - 2) S).
  assert (Hlen : length S = length (reps_of data)).
  { by rewrite <- (Permutation_length Hperm), length_fmap. }
  assert (Hin : forall k, k ∈ fst <$> S <-> k ∈ reps_of data).
  { intros k. by rewrite Hperm. }
  assert (Hproto : forall k, k ∈ reps_of data -> k <> "__proto__").
  { intros k. unfold reps_of. rewrite elem_of_remove_dups.
    rewrite (list_elem_of_In (List.filter _ _) k), filter_In, negb_true_iff, String.eqb_neq.
    tauto. }
  split. { rewrite fmap_take. eapply sublist_NoDup; [exact Hnd|]. apply sublist_take. }
  split. { rewrite fmap_drop. eapply sublist_NoDup; [exact Hnd|]. apply sublist_drop. }
  split. { rewrite length_fmap, length_take. lia. }
  split. { rewrite length_fmap, length_drop. lia. }
  split.
  { assert (H' : forall r, r ∈ fst <$> take 3 S \/ r ∈ fst <$> drop (length S - 2) S ->
                   r ∈ reps_of data).
    { intros r [H|H]; apply Hin.
      - rewrite fmap_take in H. eapply elem_of_sublist; [exact H | apply sublist_take].
      - rewrite fmap_drop in H. eapply elem_of_sublist; [exact H | apply sublist_drop]. }
    intros r Hr. split; [by apply H' | by apply Hproto, H']. }
  split.
  { intros r r' Hr Hr' Hnot. apply Hin in Hr'.
    destruct (split_ranked S 3 r r' Hnd Hsorted Hr Hr' Hnot) as (n & n' & H1 & H2 & Hle).
    by rewrite <- (Hcount _ _ H1), <- (Hcount _ _ H2). }
  split.
  { intros r r' Hr Hr' Hnot. apply Hin in Hr'.
    destruct (split_ranked_last S _ r r' Hnd Hsorted Hr Hr' Hnot) as (n & n' & H1 & H2 & Hle).
    by rewrite <- (Hcount _ _ H1), <- (Hcount _ _ H2). }
  intros Hfour.
  assert (Hpos : (0 < length S)%nat) by lia.
  set (i := Nat.min 2 (length S - 1)).
  destruct (lookup_lt_is_Some_2 S i) as [[k n] Hi]; [unfold i; lia|].
  exists k. split.
  - apply list_elem_of_fmap. exists (k, n). split; [done|].
    apply elem_of_take. exists i. split; [done | unfold i; lia].
  - apply list_elem_of_fmap. exists (k, n). split; [done|].
    apply list_elem_of_lookup. exists (i - (length S - 2))%nat.
    rewrite lookup_drop. rewrite <- Hi. f_equal. unfold i. lia.
Qed.

Lemma responders_are_ranked_witness :
  exists m,
    responseTimeMetrics_of
      [Sample.csv_account "Foo Inc" "Bob" "100"; Sample.csv_account "Bar Inc" "__proto__" "5";
       Sample.csv_account "Baz Inc" "Ann" "7"; Sample.csv_account "Qux Inc" "Bob" "9"]
    = Some m
    /\ length (fastResponders m) = 2%nat
    /\ length (slowResponders m) = 2%nat.
Proof.
  destruct (responders_are_ranked
              [Sample.csv_account "Foo Inc" "Bob" "100";
               Sample.csv_account "Bar Inc" "__proto__" "5";
               Sample.csv_account "Baz Inc" "Ann" "7"; Sample.csv_account "Qux Inc" "Bob" "9"])
    as (m & Hm & _ & _ & H3 & H4 & _).
  - repeat constructor.
  - exists m. split; [exact Hm|]. split; [exact H3 | exact H4].
Defined.

(** ** The earlier module *)

Lemma legacy_loop_view data : forall st lst,
  Legacy.totalSalesValue lst = totalSalesValue st ->
  Legacy.validSales lst = validSales st ->
  Legacy.l_salesByRep lst = st_salesByRep st ->
  Legacy.l_salesByBrand lst = st_salesByBrand st ->
  Legacy.l_salesDistribution lst = st_salesDistribution st ->
  Legacy.l_topStates lst = st_topStates st ->
  let lst' := fold_left (Legacy.loop_step Legacy.safeParseCurrency extractBrandFromAccountNameHS)
                        data lst in
  let st' := fold_left main_step data st in
  Legacy.totalSalesValue lst' = totalSalesValue st'
  /\ Legacy.validSales lst' = validSales st'
  /\ Legacy.l_salesByRep lst' = st_salesByRep st'
  /\ Legacy.l_salesByBrand lst' = st_salesByBrand st'
  /\ Legacy.l_salesDistribution lst' = st_salesDistribution st'
  /\ Legacy.l_topStates lst' = st_topStates st'.
Proof.
  induction data as [|row data IH]; intros st lst H1 H2 H3 H4 H5 H6; [done|].
  cbn [fold_left]. apply IH; unfold Legacy.loop_step, main_step;
    change (Legacy.safeParseCurrency (Total_Sales row)) with (parseCurrency (Total_Sales row));
    destruct (rejected _); try done;
    cbn [Legacy.totalSalesValue Legacy.validSales Legacy.l_salesByRep Legacy.l_salesByBrand
         Legacy.l_salesDistribution Legacy.l_topStates totalSalesValue validSales
         st_salesByRep st_salesByBrand st_salesDistribution st_topStates];
    unfold rep_key, brand_key; rewrite ?H1, ?H2, ?H3, ?H4, ?H5, ?H6; reflexivity.
Qed.

Lemma safeAverage_finite arr :
  Forall positive_number arr -> Legacy.safeAverage arr = calculateAverage arr.
Proof.
  intros Hall. unfold Legacy.safeAverage, calculateAverage.
  destruct (Nat.eqb (length arr) 0) eqn:E; [done|]. cbv zeta.
  rewrite filter_all.
  - by rewrite E.
  - eapply Forall_impl; [exact Hall|]. by intros s (q & -> & _).
Qed.

(** X29: The aggregation of the earlier module, called as it calls it
    (safeParseCurrency, extractBrandFromAccountNameHS), returns for every
    input exactly the values the current aggregation gives to the fields
    both snapshots have; in particular safeAverage and calculateAverage
    agree on validSales. *)
Theorem legacy_snapshot_agrees_with_current (host : Host) (data : list AccountData) :
  Legacy.processAccountDataInternal host Legacy.safeParseCurrency
    extractBrandFromAccountNameHS data
  = legacy_view (processAccountDataInternal host data).
Proof.
  unfold Legacy.processAccountDataInternal, legacy_view, processAccountDataInternal.
  cbn [totalAccounts totalRevenue averageDealSize salesByRep salesDistribution monthlyTrends
       topStates salesByBrand topPerformingAccounts leastPerformingAccounts allAccounts].
  unfold main_pass.
  destruct (legacy_loop_view data main_init Legacy.loop_init) as (H1 & H2 & H3 & H4 & H5 & H6);
    try reflexivity.
  cbv zeta in *. rewrite H1, H2, H3, H4, H5, H6.
  rewrite safeAverage_finite.
  2:{ apply (main_fold_validSales data main_init). constructor. }
  reflexivity.
Qed.

Lemma legacy_transform_all_sales host cm om deals : forall draws,
  map Total_Sales (Legacy.transform_all host cm om draws deals)
  = map (fun d => prop_or (Legacy.d_properties d) "amount" "0") deals
  /\ Forall (fun a => Lifecycle_Stage a = None /\ Analytics_Source a = None)
       (Legacy.transform_all host cm om draws deals).
Proof.
  induction deals as [|d deals IH]; intros draws; [by split|].
  cbn [Legacy.transform_all]. unfold Legacy.transform_deal.
  destruct (Num.truthy _); cbn [map Total_Sales].
  all: destruct (IH draws) as [H1 H2]; destruct (IH (S draws)) as [H3 H4].
  - rewrite H1. split; [done|]. by constructor.
  - rewrite H3. split; [done|]. by constructor.
Qed.

(** X30: The earlier fetchAndProcessHubSpotData: without a key (absent or
    empty) it returns null and asks nothing; when the deal listing fails it
    returns null; it asks for at most one page of deals; and a returned
    snapshot counts exactly the deals in stage closedwon, each with the deal
    amount (or 0) as its Total Sales. *)
Theorem legacy_fetch_counts_closed_won_deals (host : Host) (portal : Legacy.Portal) :
  let run := Legacy.fetchAndProcessHubSpotData host portal in
  ((Legacy.HUBSPOT_API_KEY portal = None \/ Legacy.HUBSPOT_API_KEY portal = Some EmptyString) ->
     run = ([], None))
  /\ (forall e, Legacy.deals_getPage portal = Err e -> run.2 = None)
  /\ (length (List.filter Legacy.is_listing run.1) <= 1)%nat
  /\ (forall p, run.2 = Some p ->
      exists deals,
        Legacy.deals_getPage portal = Ok deals
        /\ Legacy.totalAccounts p = length (List.filter Legacy.is_closed_won deals)
        /\ map Total_Sales (Legacy.allAccounts p)
           = map (fun d => prop_or (Legacy.d_properties d) "amount" "0")
                 (List.filter Legacy.is_closed_won deals)).
Proof.
  cbv zeta. unfold Legacy.fetchAndProcessHubSpotData.
  destruct (Legacy.HUBSPOT_API_KEY portal) as [[|c k]|].
  1,3: cbn; repeat split; auto; try lia; intros p [=].
  cbn [Js.truthy negb].
  destruct (Legacy.deals_getPage portal) as [deals|e].
  2:{ cbn. split; [by intros [?|?]|]. split; [done|]. split; [lia|]. by intros p [=]. }
  cbv zeta. cbn [fst snd]. split; [by intros [?|?]|]. split; [done|]. split.
  { cbn [List.filter Legacy.is_listing length]. rewrite List.filter_app, length_app.
    assert (H1 : forall ids, List.filter Legacy.is_listing (map Legacy.GetCompany ids) = []).
    { induction ids as [|i ids IH]; [done|]. by cbn. }
    assert (H2 : forall ids, List.filter Legacy.is_listing (map Legacy.GetOwner ids) = []).
    { induction ids as [|i ids IH]; [done|]. by cbn. }
    rewrite H1, H2. cbn. lia. }
  intros p [= <-]. exists deals. split; [done|].
  cbn [Legacy.totalAccounts Legacy.allAccounts Legacy.processAccountDataInternal].
  unfold Legacy.transformHubSpotDataToAccountData.
  destruct (legacy_transform_all_sales host
              (Legacy.lookups (Legacy.companies_getById portal)
                 (dedupe [] (concat (map Legacy.d_companies deals))))
              (Legacy.lookups (Legacy.owners_getById portal)
                 (dedupe [] (Legacy.owner_ids deals)))
              (List.filter Legacy.is_closed_won deals) 0%nat) as [H _].
  split; [|exact H].
  rewrite <- (length_map Total_Sales), H. by rewrite length_map.
Qed.
